(** * Rephole: ingestion worker, vector store adapter and parent-child retriever

    A shallow embedding of the TypeScript services of the repository:

    - [ContentStoreService]   (libs/knowledge-base/src/services/content-store.service.ts)
    - [EmbeddingsService]     (libs/ai-foundation/src/embeddings/embeddings.service.ts)
    - [VectorStoreService]    (libs/knowledge-base/src/services/vector-store.service.ts)
    - [AstSplitterService]    (libs/ingestion/ast-parser/src/services/ast-splitter.service.ts)
    - [RepoUpdateProcessor]   (libs/ingestion/repo-rag/src/processors/repo-update.processor.ts)
    - [ParentChildRetrieverService] (libs/retrieval-common, the variant that
      returns structured chunks and takes metadata filters)
    - [QueryService]          (apps/api/src/queries/query.service.ts)
    - [IngestionService]      (apps/api/src/ingestions, the repository id
      deduced from a URL)
    - [GitService]            (libs/git/src/services/git.service.ts, the
      reading of git's output)

    Conventions.  Text that the services inspect character by character (file
    contents, chunk contents, prompts) is a JavaScript string, i.e. a sequence
    of UTF-16 code units: [jsstring := list N].  Identifiers, paths, metadata
    keys and log messages are only compared and concatenated; they are
    [string]s.  [async] methods run their awaits in program order, so they are
    functions in a state-and-exception monad [M] over a [World] that holds
    the Chroma collection, the two PostgreSQL tables, the trace of calls made
    on external clients and the warnings and errors written to the logger
    ([logger.debug] and [logger.log] lines are not recorded).  The two stores
    are reachable (no transport failure).  Chroma may refuse a batch of
    [upsert] and refuses a [where] mapping of several keys; PostgreSQL orders
    an answer without ORDER BY as it likes; the embedding endpoint, git and
    the file system may fail.  These answers are the fields of [Env]. *)

From Stdlib Require Import ZArith NArith QArith Qcanon List Bool Ascii Lia.
From stdpp Require Import base option list strings gmap pretty.

Set Default Proof Using "Type".
Local Open Scope N_scope.

(** ** JavaScript strings as UTF-16 code units *)

Module Js.

Definition jsstring := list N.

(** Code units of a literal; literals in the sources are ASCII. *)
Fixpoint of_string (s : string) : jsstring :=
  match s with
  | EmptyString => []
  | String a r => Ascii.N_of_ascii a :: of_string r
  end.

Definition LF : N := 10.
Definition SPACE : N := 32.

(** The class [\s] of an ECMAScript regular expression (and the characters
    [String.prototype.trim] strips): WhiteSpace and LineTerminator. *)
Definition is_whitespace (c : N) : bool :=
  (c =? 9) || (c =? 10) || (c =? 11) || (c =? 12) || (c =? 13) || (c =? 32)
  || (c =? 160) || (c =? 5760) || ((8192 <=? c) && (c <=? 8202))
  || (c =? 8232) || (c =? 8233) || (c =? 8239) || (c =? 8287)
  || (c =? 12288) || (c =? 65279).

Fixpoint dropWhile (p : N -> bool) (s : jsstring) : jsstring :=
  match s with
  | [] => []
  | c :: r => if p c then dropWhile p r else s
  end.

Fixpoint takeWhile (p : N -> bool) (s : jsstring) : jsstring :=
  match s with
  | [] => []
  | c :: r => if p c then c :: takeWhile p r else []
  end.

(** [String.prototype.trim]. *)
Definition trim (s : jsstring) : jsstring :=
  rev (dropWhile is_whitespace (rev (dropWhile is_whitespace s))).

End Js.

Import Js.

(** ** Data model *)

(** JavaScript numbers that reach the services: every finite double is a
    rational; [NaN] and the infinities are kept apart. *)
Inductive JsNumber :=
| Finite (q : Qc)
| NaN
| Infinity (negative : bool).

Definition Z2Qc (z : Z) : Qc := Q2Qc (inject_Z z).

(** [Number.isInteger]. *)
Definition Number_isInteger (x : JsNumber) : bool :=
  match x with
  | Finite q => Pos.eqb (Qden (this q)) 1
  | _ => false
  end.

(** Values a metadata mapping can hold
    ([string | number | boolean | null], see [ChromaMetadata]). *)
Inductive MetaValue :=
| MStr (s : string)
| MNum (q : Qc)
| MBool (b : bool)
| MNull.

#[global] Instance MetaValue_eq_dec : EqDecision MetaValue.
Proof. solve_decision. Defined.

Abbreviation Metadata := (gmap string MetaValue).

(** Values of [job.data.meta] before sanitization ([Record<string, unknown>]). *)
#[warnings="-register-all"]
Inductive JsonValue :=
| JString (s : string)
| JNumber (q : Qc)
| JBoolean (b : bool)
| JNull
| JArray (items : list JsonValue)
| JObject (fields : list (string * JsonValue)).

(** JavaScript truthiness of a metadata value. *)
Definition truthy (v : MetaValue) : bool :=
  match v with
  | MStr s => negb (String.eqb s "")
  | MNum q => negb (bool_decide (q = Z2Qc 0))
  | MBool b => b
  | MNull => false
  end.

Definition EmbeddingVector := list Qc.

(** [CodeChunk] of the AST splitter. *)
Record CodeChunk := mkChunk {
  chunk_id : string;
  chunk_type : string;
  chunk_content : jsstring;
  chunk_startLine : Z;
  chunk_endLine : Z
}.

(** [VectorRecord] of shared-interfaces. *)
Record VectorRecord := mkVectorRecord {
  vr_id : string;
  vr_score : option Qc;
  vr_content : option jsstring;
  vr_vector : EmbeddingVector;
  vr_metadata : Metadata
}.

(** One item of the Chroma collection: [ids], [embeddings], [metadatas],
    [documents] at the same index. *)
Record ChromaItem := mkItem {
  it_id : string;
  it_embedding : EmbeddingVector;
  it_metadata : Metadata;
  it_document : jsstring
}.

(** One row of a Chroma [query] answer. *)
Record QueryHit := mkHit {
  qh_id : string;
  qh_distance : option Qc;
  qh_metadata : option Metadata;
  qh_document : option jsstring
}.

(** The [where] argument handed to Chroma: a plain field mapping, or
    [{ $and: [{k1: v1}, ...] }]. *)
Inductive Where :=
| WhereFields (f : Metadata)
| WhereAnd (clauses : list (string * MetaValue)).

(** [ContentBlobEntity] (table content_blobs, primary key [id]). *)
Record ContentBlobEntity := mkBlob {
  blob_id : string;
  blob_repoId : option string;
  blob_content : jsstring;
  blob_metadata : Metadata
}.

(** [RepoStateEntity] (primary key [id]); [fileSignatures] is never read. *)
Record RepoStateEntity := mkState {
  state_id : string;
  state_repoUrl : string;
  state_localPath : string;
  state_lastProcessedCommit : option string
}.

(** [GitChangedFiles]. *)
Record GitChangedFiles := mkChanges {
  added : list string;
  modified : list string;
  deleted : list string;
  renamed : list string
}.

(** [RepoIngestionJobData]; [ref], [token] and [queuedAt] are not read by
    the worker. *)
Record RepoIngestionJobData := mkJob {
  job_repoUrl : string;
  job_repoId : string;
  job_userId : option string;
  job_meta : option (list (string * JsonValue))
}.

(** [RetrievedChunk] of the retriever. *)
Record RetrievedChunk := mkRetrieved {
  rc_id : string;
  rc_content : jsstring;
  rc_repoId : option MetaValue;
  rc_metadata : Metadata
}.

(** ** Errors, the world and the monad *)

Inductive ErrorKind := PlainError | BadRequestException.

Record JsError := mkError { err_kind : ErrorKind; err_message : string }.

Inductive Result (A : Type) :=
| Ok (a : A)
| Throw (e : JsError).
Arguments Ok {A} a.
Arguments Throw {A} e.

Inductive LogLevel := Warn | Error.

(** Calls made on the clients of external systems, in program order. *)
Inductive Call :=
| ChromaGetCollection
| ChromaCreateCollection
| ChromaUpsert (ids : list string)
| ChromaQuery (nResults : Z) (clause : option Where)
| ChromaDeleteIds (ids : list string)
| ChromaDeleteWhere (clause : Metadata)
| OpenAIEmbeddingsCreate (input : list jsstring)
| BlobSave (id : string)
| BlobFindByIdIn (ids : list string)
| RepoStateSave (id : string) (commit : option string)
| GitClone (url path : string).

Record World := mkWorld {
  chroma : option (list ChromaItem);       (* None: collection not created *)
  collection_cached : bool;                (* VectorStoreService.collection *)
  content_blobs : list ContentBlobEntity;
  repo_states : list RepoStateEntity;
  calls : list Call;
  logs : list (LogLevel * string)
}.

Definition M (A : Type) : Type := World -> Result A * World.

Definition ret {A} (a : A) : M A := fun w => (Ok a, w).
Definition throw {A} (e : JsError) : M A := fun w => (Throw e, w).
Definition bind {A B} (m : M A) (f : A -> M B) : M B :=
  fun w => match m w with
           | (Ok a, w') => f a w'
           | (Throw e, w') => (Throw e, w')
           end.

Declare Scope js_scope.
Delimit Scope js_scope with js.
Notation "x <- m ;; k" := (bind m (fun x => k))
  (at level 100, m at next level, right associativity) : js_scope.
Notation "m ;; k" := (bind m (fun _ => k))
  (at level 100, right associativity) : js_scope.
Local Open Scope js_scope.

Definition get_world : M World := fun w => (Ok w, w).
Definition modify (f : World -> World) : M unit := fun w => (Ok tt, f w).

Definition log_call (c : Call) : M unit :=
  modify (fun w => mkWorld (chroma w) (collection_cached w) (content_blobs w)
                           (repo_states w) (calls w ++ [c]) (logs w)).
Definition logger (lvl : LogLevel) (msg : string) : M unit :=
  modify (fun w => mkWorld (chroma w) (collection_cached w) (content_blobs w)
                           (repo_states w) (calls w) (logs w ++ [(lvl, msg)])).
Definition set_chroma (c : option (list ChromaItem)) (cached : bool) : M unit :=
  modify (fun w => mkWorld c cached (content_blobs w)
                           (repo_states w) (calls w) (logs w)).
Definition set_blobs (b : list ContentBlobEntity) : M unit :=
  modify (fun w => mkWorld (chroma w) (collection_cached w) b
                           (repo_states w) (calls w) (logs w)).
Definition set_states (s : list RepoStateEntity) : M unit :=
  modify (fun w => mkWorld (chroma w) (collection_cached w) (content_blobs w)
                           s (calls w) (logs w)).

(** [for (const x of xs) { body }]. *)
Fixpoint for_each {A} (xs : list A) (body : A -> M unit) : M unit :=
  match xs with
  | [] => ret tt
  | x :: r => body x ;; for_each r body
  end.

(** The items of the collection, [[]] while it does not exist. *)
Definition collection_items (w : World) : list ChromaItem :=
  default [] (chroma w).

(** ** JavaScript library functions used by the services *)

(** [new Set(iterable)] keeps the first occurrence of every element, in
    insertion order; a [Set<string>] is the list of its elements in that
    order. *)
Definition Set_add (s : list string) (x : string) : list string :=
  if bool_decide (x ∈ s) then s else s ++ [x].
Definition Set_from (l : list string) : list string := fold_left Set_add l [].

(** [ids.indexOf(id)], [-1] when absent. *)
Fixpoint indexOf (ids : list string) (id : string) : Z :=
  match ids with
  | [] => -1
  | x :: r => if String.eqb x id then 0
              else let i := indexOf r id in if (i <? 0)%Z then -1 else (i + 1)%Z
  end.

(** [ids.filter((id, index) => ids.indexOf(id) !== index)]. *)
Definition duplicates_of (ids : list string) : list string :=
  omap (fun '(index, id) =>
          if Z.eqb (indexOf ids id) (Z.of_nat index) then None else Some id)
       (zip (seq 0 (length ids)) ids).

(** The double-quote and line-feed characters of message templates. *)
Definition dquote : string := String (ascii_of_nat 34) EmptyString.
Definition newline : string := String (ascii_of_nat 10) EmptyString.

(** [xs.join(sep)]. *)
Fixpoint join (sep : string) (xs : list string) : string :=
  match xs with
  | [] => ""
  | [x] => x
  | x :: r => x +:+ sep +:+ join sep r
  end.

(** [s.split(sep)] for a one-character separator. *)
Fixpoint split_on (sep : Ascii.ascii) (s : string) : list string :=
  match s with
  | EmptyString => [""]
  | String c r =>
      if Ascii.eqb c sep then "" :: split_on sep r
      else match split_on sep r with
           | [] => [String c ""]
           | h :: t => String c h :: t
           end
  end.

(** [String.prototype.toLowerCase] on ASCII text: the letters [A]-[Z] are
    lowered and every other character is kept.  Outside ASCII JavaScript
    lowers more (the Kelvin sign becomes [k], U+0130 becomes two code
    units); what is proved of [isBinaryFile] through this function is stated
    for ASCII paths. *)
Definition lower_ascii (c : Ascii.ascii) : Ascii.ascii :=
  let n := Ascii.nat_of_ascii c in
  if (65 <=? n)%nat && (n <=? 90)%nat then Ascii.ascii_of_nat (n + 32) else c.
Fixpoint toLowerCase (s : string) : string :=
  match s with
  | EmptyString => EmptyString
  | String c r => String (lower_ascii c) (toLowerCase r)
  end.

(** [s.lastIndexOf('.')], [None] for [-1]. *)
Fixpoint lastIndexOf_dot (s : string) : option nat :=
  match s with
  | EmptyString => None
  | String c r =>
      match lastIndexOf_dot r with
      | Some i => Some (S i)
      | None => if Ascii.eqb c "."%char then Some 0%nat else None
      end
  end.

Fixpoint string_drop (n : nat) (s : string) : string :=
  match n, s with
  | O, _ => s
  | S n', String _ r => string_drop n' r
  | S _, EmptyString => EmptyString
  end.

(** [s.substring(start, end)] on code units. *)
Definition substring (a b : nat) (s : jsstring) : jsstring :=
  let a' := Nat.min a (length s) in
  let b' := Nat.min b (length s) in
  let lo := Nat.min a' b' in
  let hi := Nat.max a' b' in
  firstn (hi - lo) (skipn lo s).

(** Slices of at most [n] elements: [l.slice(i, i + n)] for [i = 0, n, 2n, ...]. *)
Fixpoint slices_fuel {A} (fuel n : nat) (l : list A) : list (list A) :=
  match fuel with
  | O => []
  | S fuel' =>
      match l with
      | [] => []
      | _ => firstn n l :: slices_fuel fuel' n (skipn n l)
      end
  end.
Definition slices {A} (n : positive) (l : list A) : list (list A) :=
  slices_fuel (length l) (Pos.to_nat n) l.

(** ** Collaborators outside the repository *)

(** A node of the tree-sitter syntax tree, with the fields [split] reads;
    [node_prev] is the chain of [previousSibling]s, nearest first. *)
Record Sibling := mkSibling {
  sib_type : string;
  sib_startIndex : nat;
  sib_startRow : Z
}.

Record SyntaxNode := mkNode {
  node_id : Z;
  node_type : string;
  node_text : string;
  node_parent : option Z;
  node_startIndex : nat;
  node_endIndex : nat;
  node_startRow : Z;
  node_endRow : Z;
  node_prev : list Sibling
}.

Record QueryCapture := mkCapture { cap_name : string; cap_node : SyntaxNode }.

(** Configuration and the answers of external systems.  Chroma and
    PostgreSQL are the in-memory stores of [World]; what is left outside is
    listed here. *)
Record Env := mkEnv {
  (** [CHROMA_COLLECTION_NAME] (default ['rephole-collection']). *)
  collectionName : string;
  (** [VECTOR_STORE_BATCH_SIZE] after [parseInt]; the batching loop of
      [upsert] advances only for a positive value. *)
  batchSize : positive;
  (** [openai.embeddings.create]: the vectors of [response.data], or the
      error raised. *)
  openai_embeddings_create : list jsstring -> Result (list EmbeddingVector);
  (** Chroma's nearest-neighbour ranking of the items that pass the filter. *)
  chroma_rank : EmbeddingVector -> list ChromaItem -> list QueryHit;
  (** What the Chroma client and server make of a batch handed to
      [collection.upsert]: the error raised for a batch they refuse (a
      record without metadata entries or without an embedding, say). *)
  chroma_validate : list ChromaItem -> Result unit;
  (** The error with which Chroma refuses a [where] mapping of several keys
      that is not wrapped in [$and]. *)
  chroma_where_error : Metadata -> JsError;
  (** The order in which PostgreSQL answers a query without ORDER BY for
      the rows with the given ids: the place it gives the row with a given
      id.  Rows come out by increasing place, rows of equal place as they
      lie in the table. *)
  findBy_place : list string -> string -> nat;
  (** [GitService.getCurrentCommit], [getChangedFiles], [cloneRepo]. *)
  git_getCurrentCommit : string -> Result string;
  git_getChangedFiles : string -> option string -> Result GitChangedFiles;
  git_cloneRepo : string -> string -> Result unit;
  (** [fs.readFileSync(path, 'utf-8')]. *)
  fs_readFileSync : string -> Result jsstring;
  (** [path.extname]. *)
  path_extname : string -> string;
  (** [path.join(process.cwd(), LOCAL_STORAGE_PATH, id)]. *)
  storage_path : string -> string;
  (** [ulid()] drawn for a repository URL. *)
  ulid : string -> string;
  (** [new Date().toISOString()] read while chunk [idx] of a file is mapped. *)
  now_toISOString : string -> nat -> string;
  (** [String(x)] for a number. *)
  Number_toString : Qc -> string;
  (** Grammar lookup, [parser.parse] and [query.captures] of
      [AstSplitterService.split]: the captures, or the warnings and errors
      logged on a path that returns no chunk. *)
  query_captures :
    string -> jsstring -> list (LogLevel * string) + list QueryCapture
}.

Section Services.

Variable env : Env.

Definition lift {A} (r : Result A) : M A := fun w => (r, w).

(** [String(v)]. *)
Definition String_of (v : MetaValue) : string :=
  match v with
  | MStr s => s
  | MNum q => Number_toString env q
  | MBool true => "true"
  | MBool false => "false"
  | MNull => "null"
  end.

(** ** ContentStoreService *)

(** Character class [[\x00-\x08\x0B\x0C\x0E-\x1F\x7F]]. *)
Definition control_class (c : N) : bool :=
  (c <=? 8) || (c =? 11) || (c =? 12) || ((14 <=? c) && (c <=? 31)) || (c =? 127).

(** Value computed by [sanitizeContent]. *)
Definition sanitizeContent_text (content : jsstring) : jsstring :=
  let content1 :=
    if existsb (N.eqb 0) content
    then List.filter (fun c => negb (c =? 0)) content
    else content in
  List.filter (fun c => negb (control_class c)) content1.

Definition sanitizeContent (content : jsstring) (fileId : string) : M jsstring :=
  (if existsb (N.eqb 0) content
   then logger Warn ("Removing null bytes from content for file: " +:+ fileId)
   else ret tt) ;;
  ret (sanitizeContent_text content).

(** [repo.save(row)]: insert, or replace the row with the same primary key. *)
Fixpoint save_blob (row : ContentBlobEntity) (table : list ContentBlobEntity)
  : list ContentBlobEntity :=
  match table with
  | [] => [row]
  | r :: t => if String.eqb (blob_id r) (blob_id row) then row :: t
              else r :: save_blob row t
  end.

Definition saveParent (id : string) (content : jsstring) (repoId : option string)
    (metadata : option Metadata) : M unit :=
  sanitizedContent <- sanitizeContent content id ;;
  log_call (BlobSave id) ;;
  w <- get_world ;;
  set_blobs (save_blob (mkBlob id (Some (default "no-repo" repoId))
                               sanitizedContent (default ∅ metadata))
                       (content_blobs w)).

(** Rows by increasing place, rows of equal place in their given order. *)
Fixpoint insert_row (place : string -> nat) (row : ContentBlobEntity)
    (sorted : list ContentBlobEntity) : list ContentBlobEntity :=
  match sorted with
  | [] => [row]
  | r :: t => if (place (blob_id row) <=? place (blob_id r))%nat then row :: sorted
              else r :: insert_row place row t
  end.
Definition rows_by_place (place : string -> nat) (rows : list ContentBlobEntity)
  : list ContentBlobEntity :=
  fold_right (insert_row place) [] rows.

(** [repo.findBy({ id: In(ids) })]: the rows whose key is requested.  The
    query has no ORDER BY, so the order of the answer is the database's
    choice ([findBy_place]). *)
Definition getParents (ids : list string) : M (list ContentBlobEntity) :=
  log_call (BlobFindByIdIn ids) ;;
  w <- get_world ;;
  ret (rows_by_place (findBy_place env ids)
         (List.filter (fun b => bool_decide (blob_id b ∈ ids)) (content_blobs w))).

(** ** EmbeddingsService *)

(** [text.replace(/^\s+|\s+$|\n/g, (match) => match === '\n' ? ' ' : '')].

    The callback: a match that is exactly one line feed becomes a space,
    every other match is deleted. *)
Definition replacement (matched : jsstring) : jsstring :=
  match matched with
  | [c] => if c =? LF then [SPACE] else []
  | _ => []
  end.

(** Scan from an index greater than 0, where [^\s+] cannot match.  At each
    index the alternatives are tried in order: [\s+$] matches when the
    rest of the string is a non-empty run of whitespace (and then consumes
    it), otherwise [\n] matches a single line feed, otherwise the code unit
    is copied. *)
Fixpoint replace_from (s : jsstring) : jsstring :=
  match s with
  | [] => []
  | c :: r =>
      if is_whitespace c && forallb is_whitespace r then replacement s
      else if c =? LF then replacement [c] ++ replace_from r
      else c :: replace_from r
  end.

(** The whole replacement: at index 0 the first alternative [^\s+] takes
    the longest run of leading whitespace when there is one. *)
Definition replace_trim_newlines (text : jsstring) : jsstring :=
  match takeWhile is_whitespace text with
  | [] => replace_from text
  | lead => replacement lead ++ replace_from (dropWhile is_whitespace text)
  end.

(** [estimateTokens]: [Math.ceil(text.length / 4)]. *)
Definition estimateTokens (text : jsstring) : nat := (length text + 3) / 4.

Definition MAX_TOKENS_PER_INPUT : nat := 80 * 100.

Definition truncateToTokenLimit (text : jsstring) (maxTokens : nat) : M jsstring :=
  let estimatedTokens := estimateTokens text in
  if (estimatedTokens <=? maxTokens)%nat then ret text
  else
    let maxChars := (maxTokens * 4)%nat in
    logger Warn ("Truncated text from " +:+ pretty estimatedTokens +:+ " tokens (~"
                 +:+ pretty (length text) +:+ " chars) to " +:+ pretty maxTokens
                 +:+ " tokens (~" +:+ pretty maxChars +:+ " chars)") ;;
    ret (substring 0 maxChars text).

(** The single pass of [embedDocuments] over [texts], from index [i]. *)
Fixpoint process_texts (i : nat) (texts : list (option jsstring)) : M (list jsstring) :=
  match texts with
  | [] => ret []
  | text :: rest =>
      match text with
      | None | Some [] => process_texts (S i) rest
      | Some text =>
          let processed := replace_trim_newlines text in
          if (length processed =? 0)%nat then process_texts (S i) rest
          else
            let estimatedTokens := estimateTokens processed in
            processed' <-
              (if (MAX_TOKENS_PER_INPUT <? estimatedTokens)%nat then
                 logger Warn ("Text " +:+ pretty i +:+ " exceeds token limit: "
                              +:+ pretty estimatedTokens +:+ " tokens (max: "
                              +:+ pretty MAX_TOKENS_PER_INPUT +:+ ")") ;;
                 truncateToTokenLimit processed MAX_TOKENS_PER_INPUT
               else ret processed) ;;
            others <- process_texts (S i) rest ;;
            ret (processed' :: others)
      end
  end.

(** The texts that the pass keeps, before truncation. *)
Definition kept_texts (texts : list (option jsstring)) : list jsstring :=
  omap (fun text =>
          match text with
          | None => None
          | Some t => match replace_trim_newlines t with
                      | [] => None
                      | processed => Some processed
                      end
          end) texts.

Definition embedDocuments (texts : option (list (option jsstring)))
  : M (list EmbeddingVector) :=
  match texts with
  | None | Some [] =>
      logger Warn "embedDocuments called with empty array" ;; ret []
  | Some texts =>
      processedTexts <- process_texts 0 texts ;;
      if (length processedTexts =? 0)%nat then
        logger Warn "All texts were empty after sanitization" ;; ret []
      else
        log_call (OpenAIEmbeddingsCreate processedTexts) ;;
        match openai_embeddings_create env processedTexts with
        | Ok data => ret data
        | Throw e =>
            logger Error ("Failed to create embeddings: " +:+ err_message e) ;;
            throw e
        end
  end.

(** ** VectorStoreService *)

(** [ensureCollection]: the cached handle, else [getCollection], else
    (when that rejects because the collection is absent) [createCollection]. *)
Definition ensureCollection : M unit :=
  w <- get_world ;;
  if collection_cached w then ret tt
  else
    log_call ChromaGetCollection ;;
    match chroma w with
    | Some items => set_chroma (Some items) true
    | None =>
        logger Warn ("Collection " +:+ collectionName env
                     +:+ " not found, creating new one") ;;
        log_call ChromaCreateCollection ;;
        set_chroma (Some []) true
    end.

(** [validateUniqueIds]. *)
Definition duplicate_error_message (ids : list string) : string :=
  let uniqueIds := Set_from ids in
  let duplicates := duplicates_of ids in
  let uniqueDuplicates := Set_from duplicates in
  join newline
    [ "Duplicate IDs detected in batch before ChromaDB upsert.";
      "Found " +:+ pretty (length ids - length uniqueIds)%nat
        +:+ " duplicate(s) out of " +:+ pretty (length ids) +:+ " total records.";
      "Duplicate IDs: " +:+ join ", " uniqueDuplicates;
      "This indicates a bug in ID generation logic. All chunk IDs must be unique." ].

Definition validateUniqueIds (records : list VectorRecord) : M unit :=
  let ids := map vr_id records in
  let uniqueIds := Set_from ids in
  if negb (length ids =? length uniqueIds)%nat then
    let errorMessage := duplicate_error_message ids in
    logger Error errorMessage ;;
    throw (mkError PlainError errorMessage)
  else ret tt.

(** Chroma's [collection.upsert] of one item: replace the item with the
    same id, or append. *)
Fixpoint chroma_upsert_item (it : ChromaItem) (items : list ChromaItem)
  : list ChromaItem :=
  match items with
  | [] => [it]
  | x :: r => if String.eqb (it_id x) (it_id it) then it :: r
              else x :: chroma_upsert_item it r
  end.

(** [collection.upsert] of a batch: refused as a whole, or stored. *)
Definition collection_upsert (batch : list ChromaItem) : M unit :=
  log_call (ChromaUpsert (map it_id batch)) ;;
  lift (chroma_validate env batch) ;;
  w <- get_world ;;
  set_chroma (Some (fold_left (fun items it => chroma_upsert_item it items)
                              batch (collection_items w)))
             (collection_cached w).

Definition upsert (records : list VectorRecord) : M unit :=
  ensureCollection ;;
  validateUniqueIds records ;;
  for_each (slices (batchSize env) records)
    (fun batch =>
       collection_upsert
         (map (fun record => mkItem (vr_id record) (vr_vector record)
                                    (vr_metadata record)
                                    (default [] (vr_content record)))
              batch)).

(** Chroma's evaluation of a [where] clause on one item: every listed field
    is present with the listed value. *)
Definition fields_match (fields : list (string * MetaValue)) (it : ChromaItem) : bool :=
  forallb (fun '(k, v) => bool_decide (it_metadata it !! k = Some v)) fields.

Definition where_matches (clause : option Where) (it : ChromaItem) : bool :=
  match clause with
  | None => true
  | Some (WhereFields f) => fields_match (map_to_list f) it
  | Some (WhereAnd clauses) => fields_match clauses it
  end.

(** [collection.query({ queryEmbeddings: [vector], nResults, where })]:
    the [nResults] best-ranked items among those that pass the filter. *)
Definition collection_query (vector : EmbeddingVector) (nResults : Z)
    (clause : option Where) : M (list QueryHit) :=
  log_call (ChromaQuery nResults clause) ;;
  w <- get_world ;;
  ret (firstn (Z.to_nat nResults)
         (chroma_rank env vector
            (List.filter (where_matches clause) (collection_items w)))).

(** The mapping [ids.map((id, index) => ...)] of [similaritySearch].  The
    score [1 - distance] is the exact difference here; the source computes
    it in binary64, so its score is the rounding of this one. *)
Fixpoint hits_to_records (index : nat) (hits : list QueryHit) : M (list VectorRecord) :=
  match hits with
  | [] => ret []
  | hit :: rest =>
      match qh_distance hit with
      | None =>
          throw (mkError PlainError
                   ("No distance found for result at index " +:+ pretty index))
      | Some distance =>
          let metadata := default ∅ (qh_metadata hit) in
          let content :=
            match qh_document hit with
            | Some (c :: d) => c :: d
            | _ => match metadata !! "text" with
                   | Some v => if truthy v then of_string (String_of v) else []
                   | None => []
                   end
            end in
          others <- hits_to_records (S index) rest ;;
          ret (mkVectorRecord (qh_id hit) (Some (Z2Qc 1 - distance)%Qc)
                              (Some content) []
                              (<["id" := MStr (qh_id hit)]> metadata)
               :: others)
      end
  end.

(** The [where] clause that [similaritySearch] builds from [filter]: none
    for no key, the mapping itself for one key, [$and] of the single-key
    clauses for more. *)
Definition where_of_filter (filter : option Metadata) : option Where :=
  match filter with
  | Some f =>
      if (0 <? size f)%nat then
        if (1 <? size f)%nat then Some (WhereAnd (map_to_list f))
        else Some (WhereFields f)
      else None
  | None => None
  end.

Definition similaritySearch (vector : EmbeddingVector) (topK : Z)
    (filter : option Metadata) : M (list VectorRecord) :=
  ensureCollection ;;
  hits <- collection_query vector topK (where_of_filter filter) ;;
  hits_to_records 0 hits.

(** [deleteDocuments]: delete by vector id. *)
Definition deleteDocuments (ids : list string) : M unit :=
  ensureCollection ;;
  if (length ids =? 0)%nat then ret tt
  else
    log_call (ChromaDeleteIds ids) ;;
    w <- get_world ;;
    set_chroma (Some (List.filter (fun it => negb (bool_decide (it_id it ∈ ids)))
                                  (collection_items w)))
               (collection_cached w).

(** [deleteByFilter]: the mapping goes to [collection.delete({ where })] as
    it is.  Chroma takes a mapping of one key and refuses one of several
    keys (unlike [similaritySearch], this method does not build [$and]);
    the [catch] logs the error and throws it again. *)
Definition deleteByFilter (filter : Metadata) : M unit :=
  ensureCollection ;;
  if (size filter =? 0)%nat then
    logger Warn "deleteByFilter called with empty filter, skipping"
  else
    log_call (ChromaDeleteWhere filter) ;;
    if (1 <? size filter)%nat then
      let error := chroma_where_error env filter in
      logger Error ("Failed to delete documents by filter: " +:+ err_message error) ;;
      throw error
    else
      w <- get_world ;;
      set_chroma (Some (List.filter
                          (fun it => negb (where_matches (Some (WhereFields filter)) it))
                          (collection_items w)))
                 (collection_cached w).

(** ** AstSplitterService *)

(** [generateChunkId]. *)
Definition generateChunkId (fileName name nodeType : string) (startLine : Z) : string :=
  fileName +:+ ":" +:+ name +:+ ":" +:+ nodeType +:+ ":L" +:+ pretty startLine.

(** [expandContext]: the start of the chunk after walking back over the
    comments and decorators that precede the block. *)
Fixpoint expandContext_from (start : nat * Z) (prev : list Sibling) : nat * Z :=
  match prev with
  | [] => start
  | p :: rest =>
      if String.eqb (sib_type p) "comment" || String.eqb (sib_type p) "decorator"
      then expandContext_from (sib_startIndex p, sib_startRow p) rest
      else start
  end.
Definition expandContext (node : SyntaxNode) : nat * Z :=
  expandContext_from (node_startIndex node, node_startRow node) (node_prev node).

(** [findNameNode]. *)
Definition findNameNode (captures : list QueryCapture) (blockNode : SyntaxNode)
  : option SyntaxNode :=
  cap_node <$>
    List.find (fun c => String.eqb (cap_name c) "name"
                        && bool_decide (node_parent (cap_node c) = Some (node_id blockNode)))
              captures.

(** Body of the loop [for (const capture of captures)] for one capture. *)
Definition chunk_of_capture (fileName : string) (content : jsstring)
    (captures : list QueryCapture) (capture : QueryCapture) : option CodeChunk :=
  if negb (String.eqb (cap_name capture) "block") then None
  else
    let node := cap_node capture in
    let name := match findNameNode captures node with
                | Some nameNode => node_text nameNode
                | None => "anonymous"
                end in
    let '(startIndex, startRow) := expandContext node in
    let chunkContent := substring startIndex (node_endIndex node) content in
    let chunkStartLine := (startRow + 1)%Z in
    let chunkEndLine := (node_endRow node + 1)%Z in
    Some (mkChunk (generateChunkId fileName name (node_type node) chunkStartLine)
                  (node_type node) chunkContent chunkStartLine chunkEndLine).

Definition split (fileName : string) (content : jsstring) : M (list CodeChunk) :=
  match query_captures env fileName content with
  | inl messages =>
      for_each messages (fun '(lvl, msg) => logger lvl msg) ;; ret []
  | inr captures =>
      let chunks := omap (chunk_of_capture fileName content captures) captures in
      let chunkIds := map chunk_id chunks in
      let uniqueChunkIds := Set_from chunkIds in
      (if negb (length chunkIds =? length uniqueChunkIds)%nat then
         let duplicates := duplicates_of chunkIds in
         logger Warn ("[AST-SPLITTER-WARNING] Found "
                      +:+ pretty (length chunkIds - length uniqueChunkIds)%nat
                      +:+ " duplicate chunk IDs in " +:+ fileName +:+ ": "
                      +:+ join ", " (Set_from duplicates))
       else ret tt) ;;
      ret chunks
  end.

(** ** ParentChildRetrieverService *)

Definition orphan_of (res : VectorRecord) (content : jsstring) : RetrievedChunk :=
  mkRetrieved (vr_id res) content (vr_metadata res !! "repoId") (vr_metadata res).

(** The loop [for (const res of childResults)] of [retrieve], with its
    [continue] and [break]; the state is [parentIds] (a [Set<string>]) and
    [orphanChunks]. *)
Fixpoint collect_parents (k : Z) (childResults : list VectorRecord)
    (parentIds : list string) (orphanChunks : list RetrievedChunk)
  : M (list string * list RetrievedChunk) :=
  match childResults with
  | [] => ret (parentIds, orphanChunks)
  | res :: rest =>
      let step (parentIds' : list string) (orphanChunks' : list RetrievedChunk) :=
        if (k <=? Z.of_nat (length parentIds'))%Z then ret (parentIds', orphanChunks')
        else collect_parents k rest parentIds' orphanChunks' in
      match vr_metadata res !! "parentId" with
      | Some pid =>
          if truthy pid then step (Set_add parentIds (String_of pid)) orphanChunks
          else match vr_content res with
               | Some (c :: d) => step parentIds (orphanChunks ++ [orphan_of res (c :: d)])
               | _ =>
                   logger Warn ("Child " +:+ vr_id res
                                +:+ " has no parent or content. Skipping...") ;;
                   collect_parents k rest parentIds orphanChunks
               end
      | None =>
          match vr_content res with
          | Some (c :: d) => step parentIds (orphanChunks ++ [orphan_of res (c :: d)])
          | _ =>
              logger Warn ("Child " +:+ vr_id res
                           +:+ " has no parent or content. Skipping...") ;;
              collect_parents k rest parentIds orphanChunks
          end
      end
  end.

Definition parent_to_chunk (p : ContentBlobEntity) : RetrievedChunk :=
  mkRetrieved (blob_id p) (blob_content p) (MStr <$> blob_repoId p) (blob_metadata p).

Definition retrieve (queryVector : EmbeddingVector) (k : Z)
    (metadataFilters : option Metadata) : M (list RetrievedChunk) :=
  childResults <- similaritySearch queryVector (k * 3) metadataFilters ;;
  collected <- collect_parents k childResults [] [] ;;
  let '(parentIds, orphanChunks) := collected in
  if (0 <? length parentIds)%nat then
    parents <- getParents parentIds ;;
    ret (map parent_to_chunk parents)
  else ret orphanChunks.

Definition retrieveChunks (queryVector : EmbeddingVector) (k : Z)
    (metadataFilters : option Metadata) : M (list RetrievedChunk) :=
  chunkResults <- similaritySearch queryVector k metadataFilters ;;
  ret (omap (fun chunk =>
               match vr_content chunk with
               | Some (c :: d) => Some (orphan_of chunk (c :: d))
               | _ => None
               end)
            chunkResults).

(** ** QueryService *)

Definition DEFAULT_K : Z := 5.
Definition MAX_K : Z := 100.

(** [k < 1] on numbers. *)
Definition lt_one (k : JsNumber) : bool :=
  match k with
  | Finite q => bool_decide (q < Z2Qc 1)%Qc
  | NaN => false
  | Infinity negative => negative
  end.

(** [normalizeK]; [None] is [undefined] or [null].  The value returned on
    the last line is an integer, [Math.min(k, MAX_K)]. *)
Definition normalizeK (k : option JsNumber) : Z :=
  match k with
  | None => DEFAULT_K
  | Some k =>
      if negb (Number_isInteger k) || lt_one k then DEFAULT_K
      else match k with
           | Finite q => Z.min (Qnum (this q)) MAX_K
           | _ => DEFAULT_K
           end
  end.

(** [QuerySearchRequest]. *)
Record QuerySearchRequest := mkRequest {
  req_prompt : jsstring;
  req_k : option JsNumber;
  req_meta : option Metadata
}.

Inductive SearchMode := ParentMode | ChunkMode.

(** [search] ([ParentMode]) and [searchChunks] ([ChunkMode]); the two
    methods differ only in the retriever method they call. *)
Definition search_with (mode : SearchMode) (repoId : string)
    (params : QuerySearchRequest) : M (list RetrievedChunk) :=
  let k := normalizeK (req_k params) in
  let metaFilters : Metadata :=
    default ∅ (req_meta params) ∪ {[ "repoId" := MStr repoId ]} in
  embeddings <- embedDocuments (Some [Some (req_prompt params)]) ;;
  match embeddings with
  | [] =>
      logger Error "EmbeddingsService returned an empty array" ;;
      throw (mkError BadRequestException
               "Failed to generate embeddings for the query. Please try again.")
  | queryVector :: _ =>
      retrievedChunks <-
        match mode with
        | ParentMode => retrieve queryVector k (Some metaFilters)
        | ChunkMode => retrieveChunks queryVector k (Some metaFilters)
        end ;;
      ret (map (fun chunk => mkRetrieved (rc_id chunk) (rc_content chunk)
                                         (rc_repoId chunk) (rc_metadata chunk))
               retrievedChunks)
  end.

Definition search := search_with ParentMode.
Definition searchChunks := search_with ChunkMode.

(** ** RepoUpdateProcessor *)

(** [reservedFields] of [sanitizeMeta]. *)
Definition reservedFields : list string :=
  [ "id"; "category"; "repositoryId"; "repoId"; "workspaceId"; "userId";
    "timestamp"; "filePath"; "fileType"; "chunkIndex"; "chunkType";
    "parentId"; "functionName"; "startLine"; "endLine" ].

(** [typeof value] is ['string'], ['number'] or ['boolean']. *)
Definition primitive (value : JsonValue) : option MetaValue :=
  match value with
  | JString s => Some (MStr s)
  | JNumber q => Some (MNum q)
  | JBoolean b => Some (MBool b)
  | JNull | JArray _ | JObject _ => None
  end.

(** The loop [for (const [key, value] of Object.entries(meta))].  The
    assignment [sanitized[key] = value] adds or replaces the entry, except
    for the key [__proto__]: there it runs the setter of [Object.prototype],
    which does nothing for a string, number or boolean. *)
Fixpoint sanitize_entries (entries : list (string * JsonValue))
    (sanitized : Metadata) (skippedKeys : list string)
  : M (Metadata * list string) :=
  match entries with
  | [] => ret (sanitized, skippedKeys)
  | (key, value) :: rest =>
      if bool_decide (key ∈ reservedFields) then
        logger Warn ("[META-SANITIZE] Skipping reserved field " +:+ dquote +:+ key
                     +:+ dquote +:+ " in meta - this field is managed by the system") ;;
        sanitize_entries rest sanitized skippedKeys
      else
        match primitive value with
        | Some v =>
            sanitize_entries rest
              (if String.eqb key "__proto__" then sanitized else <[key := v]> sanitized)
              skippedKeys
        | None => sanitize_entries rest sanitized (skippedKeys ++ [key])
        end
  end.

Definition sanitizeMeta (meta : option (list (string * JsonValue))) : M Metadata :=
  match meta with
  | None => ret ∅
  | Some entries =>
      result <- sanitize_entries entries ∅ [] ;;
      let '(sanitized, skippedKeys) := result in
      (if (0 <? length skippedKeys)%nat then
         logger Warn ("[META-SANITIZE] Skipped " +:+ pretty (length skippedKeys)
                      +:+ " non-primitive meta values: " +:+ join ", " skippedKeys
                      +:+ ". Only string, number, and boolean values are allowed for ChromaDB compatibility.")
       else ret tt) ;;
      ret sanitized
  end.

Definition binaryExtensions : list string :=
  [ ".png"; ".jpg"; ".jpeg"; ".gif"; ".bmp"; ".ico"; ".svg"; ".webp"; ".tiff";
    ".mp4"; ".avi"; ".mov"; ".wmv"; ".flv"; ".mkv";
    ".mp3"; ".wav"; ".ogg"; ".flac"; ".aac";
    ".zip"; ".tar"; ".gz"; ".rar"; ".7z"; ".bz2";
    ".exe"; ".dll"; ".so"; ".dylib"; ".bin"; ".class"; ".pyc"; ".o"; ".a";
    ".pdf"; ".doc"; ".docx"; ".xls"; ".xlsx"; ".ppt"; ".pptx";
    ".ttf"; ".otf"; ".woff"; ".woff2"; ".eot";
    ".db"; ".sqlite"; ".sqlite3";
    ".wasm"; ".lock" ].

(** [isBinaryFile]; [substring(-1)] is the whole string.  Faithful for
    ASCII paths, see [toLowerCase]. *)
Definition isBinaryFile (filePath : string) : bool :=
  let ext := string_drop (default 0%nat (lastIndexOf_dot filePath))
                         (toLowerCase filePath) in
  bool_decide (ext ∈ binaryExtensions).

(** [repoStateRepo.save(state)]: insert or replace by primary key. *)
Fixpoint save_state (row : RepoStateEntity) (table : list RepoStateEntity)
  : list RepoStateEntity :=
  match table with
  | [] => [row]
  | r :: t => if String.eqb (state_id r) (state_id row) then row :: t
              else r :: save_state row t
  end.

Definition repoStateRepo_save (state : RepoStateEntity) : M unit :=
  log_call (RepoStateSave (state_id state) (state_lastProcessedCommit state)) ;;
  w <- get_world ;;
  set_states (save_state state (repo_states w)).

(** [getRepoState]; the two branches for an existing state only log. *)
Definition getRepoState (repoUrl : string) : M RepoStateEntity :=
  w <- get_world ;;
  match List.find (fun s => String.eqb (state_repoUrl s) repoUrl) (repo_states w) with
  | None =>
      let repoId := ulid env repoUrl in
      let localPath := storage_path env repoId in
      log_call (GitClone repoUrl localPath) ;;
      lift (git_cloneRepo env repoUrl localPath) ;;
      let state := mkState repoId repoUrl localPath None in
      repoStateRepo_save state ;;
      ret state
  | Some state => ret state
  end.

(** [x || fallback] on an optional string. *)
Definition or_else (x : option string) (fallback : string) : string :=
  match x with
  | Some s => if String.eqb s "" then fallback else s
  | None => fallback
  end.

(** [baseMetadata] built for chunk [idx] of [file]. *)
Definition baseMetadata (state : RepoStateEntity) (userId : option string)
    (file : string) (idx : nat) (chunk : CodeChunk) : Metadata :=
  let idParts := split_on ":"%char (chunk_id chunk) in
  let functionName := or_else (idParts !! 1%nat) "anonymous" in
  list_to_map
    [ ("id", MStr (chunk_id chunk));
      ("category", MStr "repository");
      ("workspaceId", MStr "workspace");
      ("userId", MStr (or_else userId "system"));
      ("timestamp", MStr (now_toISOString env file idx));
      ("filePath", MStr file);
      ("fileType", MStr (path_extname env file));
      ("chunkIndex", MNum (Z2Qc (Z.of_nat idx)));
      ("chunkType", MStr (chunk_type chunk));
      ("parentId", MStr file);
      ("repositoryId", MStr (state_id state));
      ("functionName", MStr functionName);
      ("startLine", MNum (Z2Qc (chunk_startLine chunk)));
      ("endLine", MNum (Z2Qc (chunk_endLine chunk))) ].

(** [{ ...baseMetadata, ...sanitizedMeta, id, category, repositoryId, repoId }]:
    later entries of an object literal overwrite earlier ones. *)
Definition chunk_metadata (state : RepoStateEntity) (repoId : string)
    (userId : option string) (sanitizedMeta : Metadata)
    (file : string) (idx : nat) (chunk : CodeChunk) : Metadata :=
  let base := baseMetadata state userId file idx chunk in
  <["repoId" := MStr repoId]>
    (<["repositoryId" := MStr (state_id state)]>
       (<["category" := MStr "repository"]>
          (<["id" := MStr (chunk_id chunk)]> (sanitizedMeta ∪ base)))).

(** [semanticChunks.map((chunk, idx) => ...)].  When the embedding service
    returned fewer vectors than there are chunks, [vectors[idx]] is
    [undefined] and the record carries no embedding; it is written [[]]
    here, and what Chroma makes of such a record is [chroma_validate]'s
    answer. *)
Definition chunks_to_records (state : RepoStateEntity) (repoId : string)
    (userId : option string) (sanitizedMeta : Metadata) (file : string)
    (vectors : list EmbeddingVector) (semanticChunks : list CodeChunk)
  : list VectorRecord :=
  imap (fun idx chunk =>
          mkVectorRecord (chunk_id chunk) None (Some (chunk_content chunk))
                         (default [] (vectors !! idx))
                         (chunk_metadata state repoId userId sanitizedMeta file idx chunk))
       semanticChunks.

(** Body of the loop over [filesToProcess]. *)
Definition process_file (state : RepoStateEntity) (repoId : string)
    (userId : option string) (sanitizedMeta : Metadata) (file : string) : M unit :=
  if isBinaryFile file then ret tt
  else
    match fs_readFileSync env (state_localPath state +:+ "/" +:+ file) with
    | Throw error =>
        logger Warn ("Failed to read file " +:+ file +:+ " as UTF-8, skipping: "
                     +:+ err_message error)
    | Ok content =>
        saveParent file content (Some repoId) (Some sanitizedMeta) ;;
        allChunks <- split file content ;;
        let semanticChunks :=
          List.filter (fun chunk => (0 <? length (trim (chunk_content chunk)))%nat)
                      allChunks in
        if (length semanticChunks =? 0)%nat then
          logger Warn ("No valid chunks after filtering empty content for "
                       +:+ file +:+ ", skipping")
        else
          vectors <- embedDocuments (Some (map (fun chunk => Some (chunk_content chunk))
                                               semanticChunks)) ;;
          let records := chunks_to_records state repoId userId sanitizedMeta
                                           file vectors semanticChunks in
          let allIds := map vr_id records in
          let uniqueIds := Set_from allIds in
          (if negb (length allIds =? length uniqueIds)%nat then
             logger Warn ("[DUPLICATE-DETECTION] Found "
                          +:+ pretty (length allIds - length uniqueIds)%nat
                          +:+ " duplicate IDs in batch for " +:+ file +:+ ": "
                          +:+ join ", " (Set_from (duplicates_of allIds)))
           else ret tt) ;;
          upsert records
    end.

(** [process]: the value returned is ['No changes detected'] or [undefined]. *)
Definition process (job : RepoIngestionJobData) : M (option string) :=
  let repoUrl := job_repoUrl job in
  let repoId := job_repoId job in
  sanitizedMeta <- sanitizeMeta (job_meta job) ;;
  state <- getRepoState repoUrl ;;
  currentCommit <- lift (git_getCurrentCommit env (state_localPath state)) ;;
  changes <- lift (git_getChangedFiles env (state_localPath state)
                     (match state_lastProcessedCommit state with
                      | Some c => if String.eqb c "" then None else Some c
                      | None => None
                      end)) ;;
  if (length (added changes) =? 0)%nat && (length (modified changes) =? 0)%nat then
    ret (Some "No changes detected")
  else
    (if (0 <? length (deleted changes))%nat
     then deleteDocuments (deleted changes)
     else ret tt) ;;
    let filesToProcess := added changes ++ modified changes in
    for_each filesToProcess (process_file state repoId (job_userId job) sanitizedMeta) ;;
    repoStateRepo_save (mkState (state_id state) (state_repoUrl state)
                                (state_localPath state) (Some currentCommit)) ;;
    ret None.

End Services.

(** ** Reference definitions, written from the specification's sentences *)

Module Spec.



(** "leading/trailing whitespace stripped, internal newlines replaced with
    spaces"; the comment in [embedDocuments] names the same function,
    [text.replace(/\n/g, ' ').trim()]. *)
Definition sanitize_text (text : jsstring) : jsstring :=
  trim (map (fun c => if c =? LF then SPACE else c) text).

(** The boundary on which the regular expression of [embedDocuments]
    departs from [sanitize_text]: the leading, or the trailing, run of
    whitespace of the text is exactly one line feed. *)
Definition lone_newline_head (text : jsstring) : bool :=
  match takeWhile is_whitespace text with
  | [c] => c =? LF
  | _ => false
  end.

Fixpoint lone_newline_tail (text : jsstring) : bool :=
  match text with
  | [] => false
  | c :: r =>
      if is_whitespace c && forallb is_whitespace r
      then (c =? LF) && (length r =? 0)%nat
      else lone_newline_tail r
  end.

Definition lone_newline_edge (text : jsstring) : bool :=
  lone_newline_head text || lone_newline_tail (dropWhile is_whitespace text).

(** "truncated by a character heuristic (about 4 chars per token) to a
    per-model maximum (8000 tokens, 32000 characters)". *)
Definition truncate (text : jsstring) : jsstring :=
  if (MAX_TOKENS_PER_INPUT <? estimateTokens text)%nat
  then substring 0 (MAX_TOKENS_PER_INPUT * 4) text
  else text.

(** "empties are dropped": the inputs that reach the backend. *)
Definition embed_inputs (texts : list (option jsstring)) : list jsstring :=
  omap (fun text =>
          match text with
          | None => None
          | Some t => match sanitize_text t with
                      | [] => None
                      | s => Some s
                      end
          end) texts.

(** The parent ids of the search hits, in hit order: [String(pid)] of every
    truthy [metadata.parentId]. *)
Definition parent_ids (String_of : MetaValue -> string)
    (childResults : list VectorRecord) : list string :=
  omap (fun res => match vr_metadata res !! "parentId" with
                   | Some pid => if truthy pid then Some (String_of pid) else None
                   | None => None
                   end) childResults.

(** "collect the set of unique parentId values ... stop collecting once
    |parents| >= k". *)
Definition first_k_parents (String_of : MetaValue -> string) (k : Z)
    (childResults : list VectorRecord) : list string :=
  firstn (Z.to_nat k) (Set_from (parent_ids String_of childResults)).

(** "orphan results (no parentId, but non-empty content)". *)
Definition orphans (childResults : list VectorRecord) : list RetrievedChunk :=
  omap (fun res =>
          match vr_metadata res !! "parentId" with
          | Some pid => if truthy pid then None
                        else match vr_content res with
                             | Some (c :: d) => Some (orphan_of res (c :: d))
                             | _ => None
                             end
          | None => match vr_content res with
                    | Some (c :: d) => Some (orphan_of res (c :: d))
                    | _ => None
                    end
          end) childResults.

(** "return those as the result, in insertion order of the parent ids":
    one blob per collected id, in the order the ids were collected. *)
Definition parents_in_insertion_order (parentIds : list string)
    (table : list ContentBlobEntity) : list RetrievedChunk :=
  omap (fun pid => parent_to_chunk <$>
                     List.find (fun b => String.eqb (blob_id b) pid) table)
       parentIds.

(** An id occurs at least twice in a batch. *)
Definition occurs_twice (id : string) (ids : list string) : Prop :=
  exists i j : nat, (i < j)%nat /\ ids !! i = Some id /\ ids !! j = Some id.

End Spec.

(** ** A small concrete installation, for running the model *)

Module Sample.

Definition square_distance (a b : EmbeddingVector) : Qc :=
  let d := (default (Z2Qc 0) (head a) - default (Z2Qc 0) (head b))%Qc in (d * d)%Qc.

Fixpoint insert_by (qv : EmbeddingVector) (it : ChromaItem) (sorted : list ChromaItem)
  : list ChromaItem :=
  match sorted with
  | [] => [it]
  | x :: r =>
      if bool_decide (square_distance qv (it_embedding it)
                      <= square_distance qv (it_embedding x))%Qc
      then it :: sorted else x :: insert_by qv it r
  end.

(** Exact nearest neighbours on the first coordinate. *)
Definition rank (qv : EmbeddingVector) (items : list ChromaItem) : list QueryHit :=
  map (fun it => mkHit (it_id it) (Some (square_distance qv (it_embedding it)))
                       (Some (it_metadata it)) (Some (it_document it)))
      (fold_right (insert_by qv) [] items).

(** One [function_declaration] block named [c] covering the whole file. *)
Definition captures_of (content : jsstring) : list QueryCapture :=
  [ mkCapture "block"
      (mkNode 1 "function_declaration" "function c() {}" None
              0 (length content) 0 0 []);
    mkCapture "name"
      (mkNode 2 "identifier" "c" (Some 1%Z) 9 10 0 0 []) ].

(** A batch is taken when every record has an embedding and at least one
    metadata entry. *)
Definition validate (batch : list ChromaItem) : Result unit :=
  if forallb (fun it => (0 <? length (it_embedding it))%nat
                        && (0 <? size (it_metadata it))%nat) batch
  then Ok tt
  else Throw (mkError PlainError "Invalid record in the batch").

Definition extname (file : string) : string :=
  match lastIndexOf_dot file with
  | Some i => string_drop i file
  | None => ""
  end.

Definition env_with (changes : GitChangedFiles)
    (captures : jsstring -> list QueryCapture) : Env :=
  {| collectionName := "rephole-collection";
     batchSize := 1000;
     openai_embeddings_create :=
       fun texts => Ok (map (fun t => [Z2Qc (Z.of_nat (length t))]) texts);
     chroma_rank := rank;
     chroma_validate := validate;
     chroma_where_error :=
       fun _ => mkError PlainError "Expected where to have exactly one operator";
     findBy_place := fun _ _ => 0%nat;
     git_getCurrentCommit := fun _ => Ok "c2";
     git_getChangedFiles := fun _ _ => Ok changes;
     git_cloneRepo := fun _ _ => Ok tt;
     fs_readFileSync := fun _ => Ok (of_string "function c() {}");
     path_extname := extname;
     storage_path := fun id => "/data/repos/" +:+ id;
     ulid := fun _ => "01JSAMPLE";
     now_toISOString := fun _ _ => "2025-11-25T14:55:00.000Z";
     Number_toString := fun q => pretty (Qnum (this q));
     query_captures := fun _ content => inr (captures content) |}.

Definition env (changes : GitChangedFiles) : Env := env_with changes captures_of.

(** The same block captured by two patterns of the grammar query. *)
Definition captures_twice (content : jsstring) : list QueryCapture :=
  captures_of content ++ [
    mkCapture "block"
      (mkNode 1 "function_declaration" "function c() {}" None
              0 (length content) 0 0 []) ].

Definition no_changes : GitChangedFiles := mkChanges [] [] [] [].

(** Repository [demo], ingested at commit [c1], with one chunk of
    [src/b.ts] and one of [src/a.ts] in the collection. *)
Definition chunk_meta (file id : string) : Metadata :=
  list_to_map [ ("id", MStr id); ("parentId", MStr file);
                ("filePath", MStr file); ("repoId", MStr "demo") ].

Definition item_b : ChromaItem :=
  mkItem "src/b.ts:b:function_declaration:L1" [Z2Qc 3]
         (chunk_meta "src/b.ts" "src/b.ts:b:function_declaration:L1")
         (of_string "function b() {}").

Definition item_a : ChromaItem :=
  mkItem "src/a.ts:a:function_declaration:L1" [Z2Qc 7]
         (chunk_meta "src/a.ts" "src/a.ts:a:function_declaration:L1")
         (of_string "function a() {}").

Definition blob_a : ContentBlobEntity :=
  mkBlob "src/a.ts" (Some "demo") (of_string "function a() {}") ∅.
Definition blob_b : ContentBlobEntity :=
  mkBlob "src/b.ts" (Some "demo") (of_string "function b() {}") ∅.

Definition state_demo : RepoStateEntity :=
  mkState "01JDEMO" "https://github.com/acme/demo.git" "/data/repos/01JDEMO" (Some "c1").

Definition world : World :=
  {| chroma := Some [item_a; item_b];
     collection_cached := false;
     content_blobs := [blob_a; blob_b];
     repo_states := [state_demo];
     calls := [];
     logs := [] |}.

Definition job : RepoIngestionJobData :=
  mkJob "https://github.com/acme/demo.git" "demo" None None.

End Sample.

(** ** Observations on a run *)

(** The two worlds differ at most in the logger's output. *)
Definition only_logged (w w' : World) : Prop :=
  chroma w' = chroma w /\ collection_cached w' = collection_cached w /\
  content_blobs w' = content_blobs w /\ repo_states w' = repo_states w /\
  calls w' = calls w.

(** A call that [ensureCollection] may make. *)
Definition collection_setup (c : Call) : Prop :=
  c = ChromaGetCollection \/ c = ChromaCreateCollection.

(** Chroma answers a query with items of the collection it was asked about:
    every hit carries the id, the metadata and the document of one of the
    items that passed the filter. *)
Definition rank_returns_items (env : Env) : Prop :=
  forall qv items hit,
    hit ∈ chroma_rank env qv items ->
    exists item, item ∈ items /\ qh_id hit = it_id item /\
                 qh_metadata hit = Some (it_metadata item) /\
                 qh_document hit = Some (it_document item).

(** ** Operations beside the ingestion and query paths *)

(** The item that [upsert] hands to Chroma for a record: [ids[j]],
    [embeddings[j]], [metadatas[j]] and [documents[j]] of a batch. *)
Definition record_item (record : VectorRecord) : ChromaItem :=
  mkItem (vr_id record) (vr_vector record) (vr_metadata record)
         (default [] (vr_content record)).

(** The collection after [collection.upsert] of the items of [batch]. *)
Definition upsert_items (batch items : list ChromaItem) : list ChromaItem :=
  fold_left (fun items it => chroma_upsert_item it items) batch items.

(** Chroma accepts a batch; it accepts every batch [upsert] makes of
    [records]. *)
Definition accepts (env : Env) (batch : list ChromaItem) : bool :=
  match chroma_validate env batch with Ok _ => true | Throw _ => false end.

Definition batches_accepted (env : Env) (records : list VectorRecord) : bool :=
  forallb (fun batch => accepts env (map record_item batch))
          (slices (batchSize env) records).


Section Reads.

Variable env : Env.


(** [VectorStoreService.getChunksByFilePath]: [collection.get] with
    [where: { filePath }]; the parameter [repoId] is not part of the query. *)
Definition getChunksByFilePath (repoId filePath : string) : M (list VectorRecord) :=
  ensureCollection env ;;
  w <- get_world ;;
  ret (map (fun it => mkVectorRecord (it_id it) None (Some (it_document it))
                                     (it_embedding it) (it_metadata it))
           (List.filter
              (where_matches (Some (WhereFields {[ "filePath" := MStr filePath ]})))
              (collection_items w))).

End Reads.


(** ** IngestionService (apps/api): the repository id deduced from the URL *)

(** [url.replace(/\/+$/, '')]: the URL without its trailing slashes. *)
Fixpoint strip_trailing_slashes (url : string) : string :=
  match url with
  | EmptyString => EmptyString
  | String c r =>
      match strip_trailing_slashes r with
      | EmptyString => if Ascii.eqb c "/" then EmptyString else String c EmptyString
      | r' => String c r'
      end
  end.

(** Where [/\/([^/]+?)(?:\.git)?$/] can match: at the last slash, the text
    after it being the candidate for the rest of the pattern. *)
Fixpoint last_segment (s : string) : option string :=
  match s with
  | EmptyString => None
  | String c r =>
      match last_segment r with
      | Some seg => Some seg
      | None => if Ascii.eqb c "/" then Some r else None
      end
  end.

(** Group 1 of the match on a segment: the lazy [[^/]+?] grows one
    character at a time and stops as soon as what is left is [.git] or
    nothing. *)
Fixpoint lazy_name (seg : string) : string :=
  match seg with
  | EmptyString => EmptyString
  | String c r =>
      if String.eqb r ".git" then String c EmptyString else String c (lazy_name r)
  end.

(** Character class [[a-zA-Z0-9._-]]. *)
Definition safe_char (c : Ascii.ascii) : bool :=
  let n := Ascii.nat_of_ascii c in
  ((97 <=? n)%nat && (n <=? 122)%nat) || ((65 <=? n)%nat && (n <=? 90)%nat)
  || ((48 <=? n)%nat && (n <=? 57)%nat)
  || Ascii.eqb c "." || Ascii.eqb c "_" || Ascii.eqb c "-".

Fixpoint all_chars (p : Ascii.ascii -> bool) (s : string) : bool :=
  match s with
  | EmptyString => true
  | String c r => p c && all_chars p r
  end.

(** [extractRepoId]; both [Error]s raised inside the [try] end in the
    [catch], which logs and throws [BadRequestException].  The three
    patterns only tell apart the slash, the text [.git] and the safe ASCII
    characters, so the URL is a [string]. *)
Definition extractRepoId (url : string) : M string :=
  let failure (message : string) : M string :=
    logger Error ("Failed to extract repoId from URL " +:+ dquote +:+ url
                  +:+ dquote +:+ ": " +:+ message) ;;
    throw (mkError BadRequestException
             ("Unable to extract repository name from URL: " +:+ url +:+ ". "
              +:+ "Please provide a valid Git repository URL or specify repoId manually.")) in
  let cleanUrl := strip_trailing_slashes url in
  match last_segment cleanUrl with
  | Some (String c r) =>
      let repoName := lazy_name (String c r) in
      if negb (all_chars safe_char repoName) then
        failure "Repository name contains invalid characters"
      else ret repoName
  | _ => failure "Could not parse repository name from URL path"
  end.

(** ** GitService: reading the output of git *)

Definition TAB : N := 9.

(** [s.split(sep)] on code units, for a one-unit separator. *)
Fixpoint split_units (sep : N) (s : jsstring) : list jsstring :=
  match s with
  | [] => [[]]
  | c :: r =>
      if c =? sep then [] :: split_units sep r
      else match split_units sep r with
           | [] => [[c]]
           | h :: t => (c :: h) :: t
           end
  end.

(** [status.startsWith(letter)]. *)
Definition startsWith (letter : N) (status : jsstring) : bool :=
  match status with
  | c :: _ => c =? letter
  | [] => false
  end.

(** The lists of [getChangedFiles], paths as they stand in git's output. *)
Record ChangedPaths := mkPaths {
  paths_added : list jsstring;
  paths_modified : list jsstring;
  paths_deleted : list jsstring;
  paths_renamed : list jsstring
}.

(** [files.split('\n').filter(Boolean)] on the output of [git ls-files]:
    every tracked file is reported as added on the first run. *)
Definition tracked_files (files : jsstring) : ChangedPaths :=
  mkPaths (List.filter (fun f => (0 <? length f)%nat) (split_units LF files)) [] [] [].

(** Body of the loop [for (const line of lines)] over the output of
    [git diff --name-status]. *)
Definition parse_diff_line (result : ChangedPaths) (line : jsstring) : ChangedPaths :=
  match split_units TAB line with
  | status :: file :: rest =>
      if startsWith 65 status then
        mkPaths (paths_added result ++ [file]) (paths_modified result)
                (paths_deleted result) (paths_renamed result)
      else if startsWith 77 status then
        mkPaths (paths_added result) (paths_modified result ++ [file])
                (paths_deleted result) (paths_renamed result)
      else if startsWith 68 status then
        mkPaths (paths_added result) (paths_modified result)
                (paths_deleted result ++ [file]) (paths_renamed result)
      else if startsWith 82 status then
        mkPaths (paths_added result) (paths_modified result) (paths_deleted result)
                (paths_renamed result
                 ++ [match rest with
                     | (c :: d) :: _ => c :: d
                     | _ => file
                     end])
      else result
  | _ => result
  end.

(** The parsing part of [getChangedFiles] when a last commit is given. *)
Definition parse_name_status (diffOutput : jsstring) : ChangedPaths :=
  if (length (trim diffOutput) =? 0)%nat then mkPaths [] [] [] []
  else fold_left parse_diff_line (split_units LF (trim diffOutput)) (mkPaths [] [] [] []).

(** The text has no colon. *)
Definition no_colon (s : string) : bool :=
  all_chars (fun c => negb (Ascii.eqb c ":")) s.

(** The text is ASCII; on such text [toLowerCase] is the JavaScript
    function (elsewhere lower-casing can change the length of a text). *)
Definition is_ascii (s : string) : bool :=
  all_chars (fun c => (Ascii.nat_of_ascii c <? 128)%nat) s.

(** ** The output of git, as [getChangedFiles] expects it *)

Module GitOutput.

(** One entry of [git diff --name-status]: the status (a letter, with a
    similarity score for renames and copies), the path, and for renames and
    copies the new path. *)
Record Entry := mkEntry {
  status : jsstring;
  path : jsstring;
  target : option jsstring
}.

(** The line of an entry: the fields separated by tabs. *)
Definition line (e : Entry) : jsstring :=
  status e ++ TAB :: path e ++ match target e with
                               | Some t => TAB :: t
                               | None => []
                               end.

(** Lines separated by line feeds. *)
Fixpoint lines (ls : list jsstring) : jsstring :=
  match ls with
  | [] => []
  | [l] => l
  | l :: rest => l ++ LF :: lines rest
  end.

Definition has (c : N) (s : jsstring) : bool := existsb (N.eqb c) s.

(** No field holds a tab or a line feed (git quotes such paths), and every
    status begins with its letter. *)
Definition well_formed (e : Entry) : bool :=
  negb (has TAB (status e)) && negb (has LF (status e))
  && negb (has TAB (path e)) && negb (has LF (path e))
  && match target e with
     | Some t => negb (has TAB t) && negb (has LF t)
     | None => true
     end
  && match status e with
     | c :: _ => negb (is_whitespace c)
     | [] => false
     end.

(** The last code unit of the last line is no whitespace. *)
Definition ends_tight (s : jsstring) : bool :=
  match rev s with
  | c :: _ => negb (is_whitespace c)
  | [] => false
  end.

(** The paths of the entries whose status begins with [letter]. *)
Definition with_status (letter : N) (entries : list Entry) : list jsstring :=
  omap (fun e => if startsWith letter (status e) then Some (path e) else None) entries.

(** The new names of the renamed entries (the path itself when no new name
    is given). *)
Definition renamed_to (entries : list Entry) : list jsstring :=
  omap (fun e => if startsWith 82 (status e)
                 then Some match target e with
                           | Some (c :: d) => c :: d
                           | _ => path e
                           end
                 else None) entries.

End GitOutput.

(** The environment whose git reports [rename renamed] in place of the
    list [renamed] of renamed files, and is otherwise [env]. *)
Definition with_renamed (rename : list string -> list string) (env : Env) : Env :=
  {| collectionName := collectionName env;
     batchSize := batchSize env;
     openai_embeddings_create := openai_embeddings_create env;
     chroma_rank := chroma_rank env;
     chroma_validate := chroma_validate env;
     chroma_where_error := chroma_where_error env;
     findBy_place := findBy_place env;
     git_getCurrentCommit := git_getCurrentCommit env;
     git_getChangedFiles :=
       fun repoPath lastCommit =>
         match git_getChangedFiles env repoPath lastCommit with
         | Ok changes => Ok (mkChanges (added changes) (modified changes)
                                       (deleted changes) (rename (renamed changes)))
         | Throw e => Throw e
         end;
     git_cloneRepo := git_cloneRepo env;
     fs_readFileSync := fs_readFileSync env;
     path_extname := path_extname env;
     storage_path := storage_path env;
     ulid := ulid env;
     now_toISOString := now_toISOString env;
     Number_toString := Number_toString env;
     query_captures := query_captures env |}.

(** The installation with another order of the database's answers. *)
Definition with_place (place : list string -> string -> nat) (env : Env) : Env :=
  {| collectionName := collectionName env;
     batchSize := batchSize env;
     openai_embeddings_create := openai_embeddings_create env;
     chroma_rank := chroma_rank env;
     chroma_validate := chroma_validate env;
     chroma_where_error := chroma_where_error env;
     findBy_place := place;
     git_getCurrentCommit := git_getCurrentCommit env;
     git_getChangedFiles := git_getChangedFiles env;
     git_cloneRepo := git_cloneRepo env;
     fs_readFileSync := fs_readFileSync env;
     path_extname := path_extname env;
     storage_path := storage_path env;
     ulid := ulid env;
     now_toISOString := now_toISOString env;
     Number_toString := Number_toString env;
     query_captures := query_captures env |}.

(** A database that answers in the order of the ids of the query. *)
Definition place_in_query (ids : list string) (id : string) : nat :=
  Z.to_nat (indexOf ids id).

(** ** A second installation: a vector database that reports no distance *)

Module Faulty.

Definition env : Env :=
  let e := Sample.env Sample.no_changes in
  {| collectionName := collectionName e;
     batchSize := batchSize e;
     openai_embeddings_create := openai_embeddings_create e;
     chroma_rank :=
       fun _ items =>
         map (fun it => mkHit (it_id it) None (Some (it_metadata it))
                              (Some (it_document it)))
             items;
     chroma_validate := chroma_validate e;
     chroma_where_error := chroma_where_error e;
     findBy_place := findBy_place e;
     git_getCurrentCommit := git_getCurrentCommit e;
     git_getChangedFiles := git_getChangedFiles e;
     git_cloneRepo := git_cloneRepo e;
     fs_readFileSync := fs_readFileSync e;
     path_extname := path_extname e;
     storage_path := storage_path e;
     ulid := ulid e;
     now_toISOString := now_toISOString e;
     Number_toString := Number_toString e;
     query_captures := query_captures e |}.

End Faulty.

(** * Properties *)

(** ** Running the monad *)

Ltac unfold_monad :=
  unfold bind, ret, throw, lift, get_world, logger, log_call,
    set_chroma, set_blobs, set_states, modify in *.

Lemma bind_ok {A B} (m : M A) (f : A -> M B) w a w1 :
  m w = (Ok a, w1) -> bind m f w = f a w1.
Proof. unfold bind. intros ->. reflexivity. Qed.

Lemma bind_throw {A B} (m : M A) (f : A -> M B) w e w1 :
  m w = (Throw e, w1) -> bind m f w = (Throw e, w1).
Proof. unfold bind. intros ->. reflexivity. Qed.

(** ** Content sanitization (ContentStoreService) *)

Section ContentSanitization.

Lemma filter_filter_andb {A} (p q : A -> bool) (l : list A) :
  List.filter p (List.filter q l) = List.filter (fun x => q x && p x) l.
Proof.
  induction l as [|x l IH]; simpl; [reflexivity|].
  destruct (q x); simpl; [destruct (p x)|]; rewrite IH; reflexivity.
Qed.

Lemma filter_ext_bool {A} (p q : A -> bool) (l : list A) :
  (forall x, p x = q x) -> List.filter p l = List.filter q l.
Proof.
  intros E. induction l as [|x l IH]; simpl; [reflexivity|].
  rewrite E, IH. reflexivity.
Qed.

Lemma filter_all_true {A} (p : A -> bool) (l : list A) :
  forallb p l = true -> List.filter p l = l.
Proof.
  induction l as [|x l IH]; simpl; [reflexivity|].
  intros [-> H]%andb_true_iff. rewrite IH by exact H. reflexivity.
Qed.

Lemma no_nul_filter (content : jsstring) :
  existsb (N.eqb 0) content = false ->
  List.filter (fun c => negb (c =? 0)) content = content.
Proof.
  intros H. apply filter_all_true.
  induction content as [|c r IH]; [reflexivity|].
  cbn [existsb forallb] in *.
  apply orb_false_iff in H as [H1 H2].
  rewrite (N.eqb_sym c 0), H1. exact (IH H2).
Qed.

Lemma control_class_zero (c : N) : (c =? 0) = true -> control_class c = true.
Proof. intros ->%N.eqb_eq. reflexivity. Qed.

(** The two [replace] calls of [sanitizeContent] amount to one filter by the
    second character class. *)
Lemma sanitizeContent_text_filter (content : jsstring) :
  sanitizeContent_text content =
  List.filter (fun c => negb (control_class c)) content.
Proof.
  unfold sanitizeContent_text.
  destruct (existsb (N.eqb 0) content) eqn:E; [|reflexivity].
  rewrite filter_filter_andb. apply filter_ext_bool. intros c.
  destruct (c =? 0) eqn:Ec; simpl; [|reflexivity].
  rewrite (control_class_zero c Ec). reflexivity.
Qed.


Lemma sanitizeContent_returns (content : jsstring) (fileId : string) (w : World) :
  fst (sanitizeContent content fileId w) = Ok (sanitizeContent_text content).
Proof.
  unfold sanitizeContent. unfold_monad.
  destruct (existsb (N.eqb 0) content); reflexivity.
Qed.

End ContentSanitization.



(** C9.  The content sanitization is idempotent: sanitizing the text that
    [sanitizeContent] returned gives that text back, whatever the file name
    and the state of the stores. *)
Theorem sanitizeContent_idempotent (s : jsstring) (f1 f2 : string) (w1 w2 : World) :
  exists s',
    fst (sanitizeContent s f1 w1) = Ok s' /\
    fst (sanitizeContent s' f2 w2) = Ok s' /\
    sanitizeContent_text (sanitizeContent_text s) = sanitizeContent_text s.
Proof.
  assert (I : sanitizeContent_text (sanitizeContent_text s) = sanitizeContent_text s).
  { rewrite !sanitizeContent_text_filter, filter_filter_andb.
    apply filter_ext_bool. intros c. destruct (control_class c); reflexivity. }
  exists (sanitizeContent_text s).
  rewrite !sanitizeContent_returns, I. repeat split.
Qed.

(** ** Embedding inputs (EmbeddingsService) *)

(** The expectations of embeddings.service.spec.ts on the text sent to the
    backend hold in the model of the regular expression. *)
Example replace_newlines_test :
  replace_trim_newlines (of_string "text" ++ [LF] ++ of_string "with" ++ [LF]
                         ++ of_string "newlines")
  = of_string "text with newlines".
Proof. reflexivity. Qed.

Example replace_trim_test :
  replace_trim_newlines (of_string "  text with spaces  ")
  = of_string "text with spaces".
Proof. reflexivity. Qed.

Example replace_mixed_test :
  replace_trim_newlines (of_string "  " ++ [LF] ++ of_string "text" ++ [LF]
                         ++ of_string " with" ++ [LF] ++ of_string " newlines"
                         ++ [LF] ++ of_string "  ")
  = of_string "text  with  newlines".
Proof. reflexivity. Qed.

Example replace_blank_test :
  map replace_trim_newlines [of_string "   "; [LF; LF]] = [[]; []].
Proof. reflexivity. Qed.

(** A string that starts (or ends) with exactly one line feed keeps a space
    there: the callback receives the match of [^\s+] (or [\s+$]), which is
    the string ["\n"], and answers [' ']. *)
Example replace_leading_newline :
  replace_trim_newlines ([LF] ++ of_string "abc") = of_string " abc" /\
  replace_trim_newlines (of_string "abc" ++ [LF]) = of_string "abc " /\
  Spec.sanitize_text ([LF] ++ of_string "abc") = of_string "abc" /\
  Spec.sanitize_text (of_string "abc" ++ [LF]) = of_string "abc".
Proof. repeat split. Qed.

Section EmbeddingInputs.

Let nl2sp (c : N) : N := if c =? LF then SPACE else c.

Lemma nl2sp_whitespace (c : N) : is_whitespace (nl2sp c) = is_whitespace c.
Proof.
  unfold nl2sp. destruct (N.eqb_spec c LF) as [->|]; reflexivity.
Qed.

Lemma forallb_map_nl2sp (s : jsstring) :
  forallb is_whitespace (map nl2sp s) = forallb is_whitespace s.
Proof.
  induction s as [|c r IH]; [reflexivity|].
  cbn [map forallb]. rewrite nl2sp_whitespace, IH. reflexivity.
Qed.

Lemma dropWhile_map_nl2sp (s : jsstring) :
  dropWhile is_whitespace (map nl2sp s) = map nl2sp (dropWhile is_whitespace s).
Proof.
  induction s as [|c r IH]; [reflexivity|].
  cbn [map dropWhile]. rewrite nl2sp_whitespace.
  destruct (is_whitespace c); [exact IH|reflexivity].
Qed.

Lemma dropWhile_all (p : N -> bool) (s : jsstring) :
  forallb p s = true -> dropWhile p s = [].
Proof.
  induction s as [|c r IH]; [reflexivity|].
  cbn [forallb dropWhile]. intros [-> H]%andb_true_iff. exact (IH H).
Qed.

Lemma dropWhile_snoc (p : N -> bool) (s : jsstring) (x : N) :
  dropWhile p (s ++ [x])
  = if forallb p s then (if p x then [] else [x]) else dropWhile p s ++ [x].
Proof.
  induction s as [|c r IH]; [reflexivity|].
  cbn [app forallb dropWhile]. destruct (p c); [exact IH|reflexivity].
Qed.

Lemma forallb_rev (p : N -> bool) (s : jsstring) : forallb p (rev s) = forallb p s.
Proof.
  induction s as [|c r IH]; [reflexivity|].
  cbn [rev forallb]. rewrite forallb_app, IH. cbn [forallb].
  rewrite andb_true_r. apply andb_comm.
Qed.

(** Stripping trailing whitespace, one code unit at a time. *)
Lemma trim_right_cons (x : N) (s : jsstring) :
  rev (dropWhile is_whitespace (rev (x :: s)))
  = if is_whitespace x && forallb is_whitespace s then []
    else x :: rev (dropWhile is_whitespace (rev s)).
Proof.
  cbn [rev]. rewrite dropWhile_snoc, forallb_rev.
  destruct (forallb is_whitespace s) eqn:Hall.
  - rewrite andb_true_r. destruct (is_whitespace x); [reflexivity|].
    rewrite dropWhile_all by (rewrite forallb_rev; exact Hall). reflexivity.
  - rewrite andb_false_r, rev_app_distr. reflexivity.
Qed.

(** Away from the start of the string the regular expression strips the
    trailing whitespace and turns line feeds into spaces, unless that
    trailing whitespace is one line feed. *)
Lemma replace_from_spec (s : jsstring) :
  Spec.lone_newline_tail s = false ->
  replace_from s = rev (dropWhile is_whitespace (rev (map nl2sp s))).
Proof.
  induction s as [|c r IH]; [reflexivity|].
  cbn [Spec.lone_newline_tail replace_from map].
  rewrite trim_right_cons, nl2sp_whitespace, forallb_map_nl2sp.
  destruct (is_whitespace c && forallb is_whitespace r).
  - intros Hedge. unfold replacement.
    destruct r as [|d r]; [|reflexivity].
    cbn in Hedge. rewrite andb_true_r in Hedge. rewrite Hedge. reflexivity.
  - intros Hedge. rewrite <- (IH Hedge). unfold nl2sp, replacement.
    destruct (c =? LF); reflexivity.
Qed.

Lemma takeWhile_nil_dropWhile (p : N -> bool) (s : jsstring) :
  takeWhile p s = [] -> dropWhile p s = s.
Proof.
  destruct s as [|c r]; [reflexivity|]. cbn. destruct (p c); [discriminate|reflexivity].
Qed.

(** Off the boundary, the regular expression of [embedDocuments] is
    [text.replace(/\n/g, ' ').trim()]. *)
Lemma replace_trim_newlines_spec (text : jsstring) :
  Spec.lone_newline_edge text = false ->
  replace_trim_newlines text = Spec.sanitize_text text.
Proof.
  unfold Spec.lone_newline_edge, Spec.lone_newline_head.
  intros [Hhead Htail]%orb_false_iff.
  unfold Spec.sanitize_text, trim. fold nl2sp.
  rewrite dropWhile_map_nl2sp, <- (replace_from_spec _ Htail).
  unfold replace_trim_newlines.
  destruct (takeWhile is_whitespace text) as [|c [|d lead]] eqn:Elead.
  - rewrite (takeWhile_nil_dropWhile _ _ Elead). reflexivity.
  - unfold replacement. rewrite Hhead. reflexivity.
  - reflexivity.
Qed.

End EmbeddingInputs.

(** C5 at the input [["\n"]].  The claim (and the comment in the source:
    "This single regex replaces: text.replace(/\n/g, ' ').trim()") has the
    input empty after sanitization, hence dropped, and the backend not
    called.  The code sanitizes it to [" "], calls the backend with that one
    text and returns the backend's answer. *)
Theorem embedDocuments_lone_newline env (w : World) :
  Spec.embed_inputs [Some [LF]] = [] /\
  calls (snd (embedDocuments env (Some [Some [LF]]) w))
    = calls w ++ [OpenAIEmbeddingsCreate [[SPACE]]] /\
  fst (embedDocuments env (Some [Some [LF]]) w)
    = openai_embeddings_create env [[SPACE]].
Proof.
  split; [reflexivity|].
  unfold embedDocuments. cbn. unfold_monad. cbn.
  change (openai_embeddings_create env [[SPACE]])
    with (openai_embeddings_create env [[32]]).
  destruct (openai_embeddings_create env [[32]]) as [vs|e]; cbn;
    split; reflexivity.
Qed.

(** ** deleteByFilter and the empty filter (VectorStoreService) *)

(** C10.  [deleteByFilter] called with a filter of zero keys returns
    normally, issues no call on the collection besides those of
    [ensureCollection] (so no delete), and leaves the items of the
    collection, the blobs and the repository states as they were. *)
Theorem deleteByFilter_empty_filter env (filter : Metadata) (w : World) :
  size filter = 0%nat ->
  let w' := snd (deleteByFilter env filter w) in
  fst (deleteByFilter env filter w) = Ok tt /\
  collection_items w' = collection_items w /\
  content_blobs w' = content_blobs w /\
  repo_states w' = repo_states w /\
  exists new, calls w' = calls w ++ new /\
              Forall (fun c => c = ChromaGetCollection \/ c = ChromaCreateCollection) new.
Proof.
  intros Hsize. unfold deleteByFilter, ensureCollection. rewrite Hsize.
  unfold_monad. destruct w as [ch cached blobs states cs ls]. cbn.
  destruct cached; cbn.
  - repeat split. exists []. split; [symmetry; apply app_nil_r | constructor].
  - destruct ch as [items|]; cbn.
    + repeat split. exists [ChromaGetCollection]. split; [reflexivity|].
      repeat constructor.
    + repeat split.
      exists [ChromaGetCollection; ChromaCreateCollection].
      split; [rewrite <- app_assoc; reflexivity|].
      constructor; [left; reflexivity|].
      constructor; [right; reflexivity | constructor].
Qed.

Lemma deleteByFilter_empty_filter_witness :
  let w' := snd (deleteByFilter (Sample.env Sample.no_changes) (∅ : Metadata) Sample.world) in
  fst (deleteByFilter (Sample.env Sample.no_changes) (∅ : Metadata) Sample.world) = Ok tt /\
  collection_items w' = collection_items Sample.world /\
  content_blobs w' = content_blobs Sample.world /\
  repo_states w' = repo_states Sample.world /\
  exists new, calls w' = calls Sample.world ++ new /\
              Forall (fun c => c = ChromaGetCollection \/ c = ChromaCreateCollection) new.
Proof. apply (deleteByFilter_empty_filter (Sample.env Sample.no_changes) ∅ Sample.world). reflexivity. Defined.

(** ** JavaScript sets and duplicate detection *)

Section JsSet.

Implicit Types (s l ids : list string) (x y id : string).

Lemma Set_add_elem s x y : x ∈ Set_add s y <-> x ∈ s \/ x = y.
Proof.
  unfold Set_add. case_bool_decide as Hy.
  - split; [auto|]. intros [H| ->]; assumption.
  - rewrite elem_of_app, list_elem_of_singleton. reflexivity.
Qed.

Lemma Set_add_length s y :
  length (Set_add s y) = if bool_decide (y ∈ s) then length s else S (length s).
Proof.
  unfold Set_add. case_bool_decide; [reflexivity|].
  rewrite length_app. simpl. lia.
Qed.

Lemma Set_add_prefix s y : exists t, Set_add s y = s ++ t.
Proof.
  unfold Set_add. case_bool_decide.
  - exists []. symmetry. apply app_nil_r.
  - exists [y]. reflexivity.
Qed.

Lemma Set_add_NoDup s y : NoDup s -> NoDup (Set_add s y).
Proof.
  intros H. unfold Set_add. case_bool_decide as Hy; [exact H|].
  apply NoDup_app. split; [exact H|]. split.
  - intros z Hz ->%list_elem_of_singleton. contradiction.
  - apply NoDup_singleton.
Qed.

Lemma fold_Set_add_elem l s x :
  x ∈ fold_left Set_add l s <-> x ∈ s \/ x ∈ l.
Proof.
  revert s. induction l as [|y l IH]; intros s; simpl.
  - rewrite elem_of_nil. tauto.
  - rewrite IH, Set_add_elem, elem_of_cons. tauto.
Qed.

Lemma fold_Set_add_prefix l s : exists t, fold_left Set_add l s = s ++ t.
Proof.
  revert s. induction l as [|y l IH]; intros s; simpl.
  - exists []. symmetry. apply app_nil_r.
  - destruct (IH (Set_add s y)) as [t Ht].
    destruct (Set_add_prefix s y) as [u Hu].
    exists (u ++ t). rewrite Ht, Hu, app_assoc. reflexivity.
Qed.

Lemma fold_Set_add_NoDup l s : NoDup s -> NoDup (fold_left Set_add l s).
Proof.
  revert s. induction l as [|y l IH]; intros s H; simpl; [exact H|].
  apply IH, Set_add_NoDup, H.
Qed.

Lemma fold_Set_add_length_le l s :
  (length (fold_left Set_add l s) <= length s + length l)%nat.
Proof.
  revert s. induction l as [|y l IH]; intros s; simpl; [lia|].
  specialize (IH (Set_add s y)). rewrite Set_add_length in IH.
  case_bool_decide; lia.
Qed.

(** The set has as many elements as the list exactly when the list has no
    repetition (and shares nothing with the elements already present). *)
Lemma fold_Set_add_length_eq l s :
  length (fold_left Set_add l s) = (length s + length l)%nat <->
  NoDup l /\ (forall x, x ∈ l -> x ∉ s).
Proof.
  revert s. induction l as [|y l IH]; intros s; simpl.
  - split; [intros _|lia]. split; [constructor|]. intros x H%elem_of_nil. contradiction.
  - pose proof (fold_Set_add_length_le l (Set_add s y)) as Hle.
    rewrite Set_add_length in Hle. split.
    + intros H. case_bool_decide as Hy; [lia|].
      assert (H' : length (fold_left Set_add l (Set_add s y))
                   = (length (Set_add s y) + length l)%nat).
      { rewrite Set_add_length. rewrite bool_decide_eq_false_2 by exact Hy. lia. }
      apply IH in H' as [Hnd Hdis]. split.
      * constructor; [|exact Hnd]. intros Hin.
        apply (Hdis y Hin). apply Set_add_elem. right. reflexivity.
      * intros x [->|Hx]%elem_of_cons; [exact Hy|].
        intros Hs. apply (Hdis x Hx). apply Set_add_elem. left. exact Hs.
    + intros [Hnd Hdis]. inversion Hnd as [|? ? Hy Hnd']; subst.
      assert (Hys : y ∉ s) by (apply Hdis; left).
      assert (H' : NoDup l /\ (forall x, x ∈ l -> x ∉ Set_add s y)).
      { split; [exact Hnd'|]. intros x Hx [Hs| ->]%Set_add_elem.
        - apply (Hdis x); [right; exact Hx|exact Hs].
        - contradiction. }
      apply IH in H'. rewrite H', Set_add_length.
      rewrite bool_decide_eq_false_2 by exact Hys. lia.
Qed.

Lemma Set_from_length_NoDup l : length (Set_from l) = length l <-> NoDup l.
Proof.
  unfold Set_from. rewrite (fold_Set_add_length_eq l []). simpl.
  split; [tauto|]. intros H. split; [exact H|].
  intros x _ Hx%elem_of_nil. exact Hx.
Qed.

Lemma Set_from_elem l x : x ∈ Set_from l <-> x ∈ l.
Proof.
  unfold Set_from. rewrite fold_Set_add_elem, elem_of_nil. tauto.
Qed.

Lemma Set_from_NoDup l : NoDup (Set_from l).
Proof. apply fold_Set_add_NoDup. constructor. Qed.

(** [indexOf] finds the first occurrence. *)
Lemma indexOf_first ids x (j : nat) :
  ids !! j = Some x ->
  exists i : nat, indexOf ids x = Z.of_nat i /\ (i <= j)%nat /\ ids !! i = Some x.
Proof.
  revert j. induction ids as [|y ids IH]; intros j H; [discriminate|].
  simpl. destruct (String.eqb_spec y x) as [->|Hne].
  - exists 0%nat. repeat split. lia.
  - destruct j as [|j]; simpl in H; [congruence|].
    destruct (IH j H) as (i & Hi & Hle & Hl).
    exists (S i). rewrite Hi.
    destruct (Z.ltb_spec (Z.of_nat i) 0); [lia|].
    repeat split; [lia|lia|exact Hl].
Qed.

Lemma elem_of_zip_seq {A} (l : list A) (start i : nat) (x : A) :
  (i, x) ∈ zip (seq start (length l)) l <->
  (start <= i)%nat /\ l !! (i - start)%nat = Some x.
Proof.
  revert start. induction l as [|y l IH]; intros start; simpl.
  - rewrite elem_of_nil. split; [tauto|]. intros [_ H]. discriminate.
  - rewrite elem_of_cons, IH. split.
    + intros [[= -> ->]|[Hle Hl]].
      * split; [lia|]. replace (start - start)%nat with 0%nat by lia. reflexivity.
      * split; [lia|]. replace (i - start)%nat with (S (i - S start)) by lia.
        exact Hl.
    + intros [Hle Hl]. destruct (decide (i = start)) as [->|Hne].
      * left. replace (start - start)%nat with 0%nat in Hl by lia.
        simpl in Hl. congruence.
      * right. split; [lia|].
        replace (i - start)%nat with (S (i - S start)) in Hl by lia. exact Hl.
Qed.

(** The ids that [validateUniqueIds] and the chunker report are exactly the
    ids that occur at least twice. *)
Lemma duplicates_of_elem ids x :
  x ∈ duplicates_of ids <-> Spec.occurs_twice x ids.
Proof.
  unfold duplicates_of, Spec.occurs_twice. rewrite list_elem_of_omap. split.
  - intros ([j y] & Hin & Hf). apply elem_of_zip_seq in Hin as [_ Hl].
    rewrite Nat.sub_0_r in Hl.
    destruct (Z.eqb_spec (indexOf ids y) (Z.of_nat j)) as [|Hne]; [discriminate|].
    injection Hf as ->.
    destruct (indexOf_first ids x j Hl) as (i & Hi & Hle & Hli).
    exists i, j. split; [|split; assumption].
    assert (i <> j) by (intros ->; congruence). lia.
  - intros (i & j & Hlt & Hi & Hj). exists (j, x). split.
    + apply elem_of_zip_seq. split; [lia|]. rewrite Nat.sub_0_r. exact Hj.
    + destruct (indexOf_first ids x i Hi) as (i0 & Hi0 & Hle & _).
      rewrite Hi0. destruct (Z.eqb_spec (Z.of_nat i0) (Z.of_nat j)); [lia|reflexivity].
Qed.

Lemma reported_duplicates ids x :
  x ∈ Set_from (duplicates_of ids) <-> Spec.occurs_twice x ids.
Proof. rewrite Set_from_elem. apply duplicates_of_elem. Qed.

Lemma occurs_twice_sizes ids x :
  Spec.occurs_twice x ids -> (length ids =? length (Set_from ids))%nat = false.
Proof.
  intros (i & j & Hlt & Hi & Hj). apply Nat.eqb_neq. intros E.
  symmetry in E. apply Set_from_length_NoDup in E.
  assert (i = j) by (eapply NoDup_lookup; eassumption). lia.
Qed.

End JsSet.

(** ** Duplicate chunk ids: logged by the chunker, rejected by [upsert] *)

Lemma chunks_to_records_ids env state repoId userId meta file vectors
    (chunks : list CodeChunk) :
  map vr_id (chunks_to_records env state repoId userId meta file vectors chunks)
  = map chunk_id chunks.
Proof.
  unfold chunks_to_records. apply list_eq. intros i.
  rewrite !list_lookup_fmap, list_lookup_imap.
  destruct (chunks !! i); reflexivity.
Qed.

Lemma ensureCollection_frame env (w : World) :
  fst (ensureCollection env w) = Ok tt /\
  collection_items (snd (ensureCollection env w)) = collection_items w /\
  content_blobs (snd (ensureCollection env w)) = content_blobs w /\
  repo_states (snd (ensureCollection env w)) = repo_states w /\
  exists new, calls (snd (ensureCollection env w)) = calls w ++ new /\
              Forall (fun c => c = ChromaGetCollection \/ c = ChromaCreateCollection) new.
Proof.
  unfold ensureCollection. unfold_monad.
  destruct w as [ch cached blobs states cs ls]. cbn.
  destruct cached; cbn.
  - repeat split. exists []. split; [symmetry; apply app_nil_r | constructor].
  - destruct ch as [items|]; cbn.
    + repeat split. exists [ChromaGetCollection]. split; [reflexivity|].
      repeat constructor.
    + repeat split. exists [ChromaGetCollection; ChromaCreateCollection].
      split; [rewrite <- app_assoc; reflexivity|].
      constructor; [left; reflexivity|].
      constructor; [right; reflexivity | constructor].
Qed.

(** [upsert] on a batch with a repeated id: the error of [validateUniqueIds],
    raised before any [collection.upsert]. *)
Lemma upsert_rejects_duplicates env (records : list VectorRecord) (dup : string)
    (w : World) :
  Spec.occurs_twice dup (map vr_id records) ->
  let ids := map vr_id records in
  let w' := snd (upsert env records w) in
  fst (upsert env records w)
    = Throw (mkError PlainError (duplicate_error_message ids)) /\
  collection_items w' = collection_items w /\
  (exists new, calls w' = calls w ++ new /\
     Forall (fun c => c = ChromaGetCollection \/ c = ChromaCreateCollection) new) /\
  (Error, duplicate_error_message ids) ∈ logs w'.
Proof.
  intros Hdup. cbv zeta.
  destruct (ensureCollection_frame env w) as (Hr & Hitems & _ & _ & new & Hcalls & Hnew).
  destruct (ensureCollection env w) as [r w1] eqn:E. cbn in Hr, Hitems, Hcalls.
  subst r. unfold upsert. rewrite (bind_ok _ _ _ _ _ E).
  unfold validateUniqueIds.
  rewrite (occurs_twice_sizes _ _ Hdup). cbn [negb]. unfold_monad. cbn.
  repeat split.
  - exact Hitems.
  - exists new. split; [exact Hcalls | exact Hnew].
  - apply elem_of_app. right. apply list_elem_of_here.
Qed.

(** C8.  When the chunks produced for one file contain a repeated id, the
    chunker returns all of them and logs one warning that lists the repeated
    ids; [upsert], handed the records of chunks with a repeated id, throws an
    error whose message has the line "Duplicate IDs: ..." with the repeated
    ids, logs it, and makes no [collection.upsert] call: the items of the
    collection are unchanged.  The ids listed are exactly those that occur
    at least twice. *)
Theorem duplicate_ids_logged_then_rejected env fileName content captures
    state repoId userId meta vectors (semanticChunks : list CodeChunk)
    (dup1 dup2 : string) (w1 w2 : World) :
  query_captures env fileName content = inr captures ->
  let chunks := omap (chunk_of_capture fileName content captures) captures in
  let records :=
    chunks_to_records env state repoId userId meta fileName vectors semanticChunks in
  let ids := map vr_id records in
  Spec.occurs_twice dup1 (map chunk_id chunks) ->
  Spec.occurs_twice dup2 (map chunk_id semanticChunks) ->
  (fst (split env fileName content w1) = Ok chunks /\
   logs (snd (split env fileName content w1)) =
     logs w1 ++
     [(Warn, "[AST-SPLITTER-WARNING] Found "
             +:+ pretty (length chunks - length (Set_from (map chunk_id chunks)))%nat
             +:+ " duplicate chunk IDs in " +:+ fileName +:+ ": "
             +:+ join ", " (Set_from (duplicates_of (map chunk_id chunks))))] /\
   (forall id, id ∈ Set_from (duplicates_of (map chunk_id chunks))
               <-> Spec.occurs_twice id (map chunk_id chunks))) /\
  (fst (upsert env records w2)
     = Throw (mkError PlainError (duplicate_error_message ids)) /\
   duplicate_error_message ids =
     join newline
       [ "Duplicate IDs detected in batch before ChromaDB upsert.";
         "Found " +:+ pretty (length ids - length (Set_from ids))%nat
           +:+ " duplicate(s) out of " +:+ pretty (length ids) +:+ " total records.";
         "Duplicate IDs: " +:+ join ", " (Set_from (duplicates_of ids));
         "This indicates a bug in ID generation logic. All chunk IDs must be unique." ] /\
   (forall id, id ∈ Set_from (duplicates_of ids)
               <-> Spec.occurs_twice id (map chunk_id semanticChunks)) /\
   collection_items (snd (upsert env records w2)) = collection_items w2 /\
   (exists new, calls (snd (upsert env records w2)) = calls w2 ++ new /\
      Forall (fun c => c = ChromaGetCollection \/ c = ChromaCreateCollection) new) /\
   (Error, duplicate_error_message ids) ∈ logs (snd (upsert env records w2))).
Proof.
  intros Hq chunks records ids H1 H2. split.
  - unfold split. rewrite Hq. fold chunks.
    rewrite (occurs_twice_sizes _ _ H1). cbn [negb]. unfold_monad. cbn.
    rewrite length_map. repeat split.
    + intros H. apply reported_duplicates, H.
    + intros H. apply reported_duplicates, H.
  - assert (Hids : ids = map chunk_id semanticChunks)
      by apply chunks_to_records_ids.
    assert (H2' : Spec.occurs_twice dup2 (map vr_id records))
      by (fold ids; rewrite Hids; exact H2).
    destruct (upsert_rejects_duplicates env records dup2 w2 H2')
      as (Hr & Hitems & Hcalls & Hlog).
    split; [exact Hr|]. split; [reflexivity|]. split.
    { intros id. rewrite Hids. apply reported_duplicates. }
    split; [exact Hitems|]. split; [exact Hcalls|exact Hlog].
Qed.

Lemma duplicate_ids_logged_then_rejected_witness :
  let env := Sample.env_with Sample.no_changes Sample.captures_twice in
  let content := of_string "function c() {}" in
  let chunks :=
    omap (chunk_of_capture "src/c.ts" content (Sample.captures_twice content))
         (Sample.captures_twice content) in
  let records :=
    chunks_to_records env Sample.state_demo "demo" None ∅ "src/c.ts" [] chunks in
  map chunk_id chunks = [ "src/c.ts:c:function_declaration:L1";
                          "src/c.ts:c:function_declaration:L1" ] /\
  fst (split env "src/c.ts" content Sample.world) = Ok chunks /\
  fst (upsert env records Sample.world)
    = Throw (mkError PlainError (duplicate_error_message (map vr_id records))) /\
  collection_items (snd (upsert env records Sample.world))
    = collection_items Sample.world.
Proof.
  cbv zeta.
  pose proof (duplicate_ids_logged_then_rejected
                (Sample.env_with Sample.no_changes Sample.captures_twice)
                "src/c.ts" (of_string "function c() {}")
                (Sample.captures_twice (of_string "function c() {}"))
                Sample.state_demo "demo" None ∅ []
                (omap (chunk_of_capture "src/c.ts" (of_string "function c() {}")
                         (Sample.captures_twice (of_string "function c() {}")))
                      (Sample.captures_twice (of_string "function c() {}")))
                "src/c.ts:c:function_declaration:L1"
                "src/c.ts:c:function_declaration:L1"
                Sample.world Sample.world eq_refl) as H.
  cbv zeta in H.
  assert (T : Spec.occurs_twice "src/c.ts:c:function_declaration:L1"
                [ "src/c.ts:c:function_declaration:L1";
                  "src/c.ts:c:function_declaration:L1" ]).
  { exists 0%nat, 1%nat. repeat split. lia. }
  destruct (H T T) as ((Hs & _) & (Hu & _ & _ & Hitems & _)).
  split; [reflexivity|]. split; [exact Hs|]. split; [exact Hu|exact Hitems].
Defined.

(** ** Reserved metadata fields (RepoUpdateProcessor) *)

Section ReservedFields.

Variable env : Env.

Lemma sanitize_entries_reserved entries (sanitized : Metadata) skipped (w : World) :
  (forall key, key ∈ reservedFields -> sanitized !! key = None) ->
  exists result skipped' w',
    sanitize_entries entries sanitized skipped w = (Ok (result, skipped'), w') /\
    (forall key, key ∈ reservedFields -> result !! key = None).
Proof.
  revert sanitized skipped w.
  induction entries as [|[key value] rest IH]; intros sanitized skipped w Hs.
  - exists sanitized, skipped, w. split; [reflexivity|exact Hs].
  - cbn [sanitize_entries]. case_bool_decide as Hkey.
    + unfold logger, modify, bind. apply IH, Hs.
    + destruct (primitive value) as [v|].
      * apply IH. intros k Hk.
        destruct (String.eqb key "__proto__"); [apply Hs, Hk|].
        rewrite lookup_insert_ne; [apply Hs, Hk|].
        intros ->. contradiction.
      * apply IH, Hs.
Qed.

(** [sanitizeMeta] always returns, and no reserved name is a key of the
    mapping it returns. *)
Lemma sanitizeMeta_reserved meta (w : World) :
  exists sanitized w',
    sanitizeMeta meta w = (Ok sanitized, w') /\
    (forall key, key ∈ reservedFields -> sanitized !! key = None).
Proof.
  unfold sanitizeMeta. destruct meta as [entries|].
  - destruct (sanitize_entries_reserved entries ∅ [] w) as (r & sk & w1 & E & Hr).
    { intros key _. apply lookup_empty. }
    rewrite (bind_ok _ _ _ _ _ E). cbv beta iota.
    destruct (0 <? length sk)%nat; unfold_monad; eexists _, _; split;
      try reflexivity; exact Hr.
  - exists ∅, w. split; [reflexivity|]. intros key _. apply lookup_empty.
Qed.

(** The object literal of the record's metadata, read at a key that the
    sanitized meta does not have. *)
Lemma chunk_metadata_lookup state repoId userId (sanitizedMeta : Metadata)
    file idx chunk key :
  sanitizedMeta !! key = None ->
  chunk_metadata env state repoId userId sanitizedMeta file idx chunk !! key
  = (<["repoId" := MStr repoId]> (baseMetadata env state userId file idx chunk)) !! key.
Proof.
  intros Hnone. unfold chunk_metadata.
  set (base := baseMetadata env state userId file idx chunk).
  assert (Hid : base !! "id" = Some (MStr (chunk_id chunk))) by reflexivity.
  assert (Hcat : base !! "category" = Some (MStr "repository")) by reflexivity.
  assert (Hrepo : base !! "repositoryId" = Some (MStr (state_id state))) by reflexivity.
  rewrite !lookup_insert. repeat case_decide; subst; try congruence.
  apply lookup_union_r, Hnone.
Qed.

End ReservedFields.

(** C4.  For every job and every record that the job builds for [upsert]
    (chunk [idx] of a file), each reserved metadata key holds the value the
    system assigns: the value of [baseMetadata], and the job's [repoId] for
    the key [repoId]; whatever the user-supplied [meta] contains. *)
Theorem reserved_fields_system_assigned env (job : RepoIngestionJobData)
    (state : RepoStateEntity) (file : string) (vectors : list EmbeddingVector)
    (semanticChunks : list CodeChunk) (w : World)
    (idx : nat) (chunk : CodeChunk) (key : string) :
  semanticChunks !! idx = Some chunk ->
  key ∈ reservedFields ->
  exists sanitizedMeta w' record,
    sanitizeMeta (job_meta job) w = (Ok sanitizedMeta, w') /\
    chunks_to_records env state (job_repoId job) (job_userId job) sanitizedMeta
                      file vectors semanticChunks !! idx = Some record /\
    vr_metadata record !! key
      = (<["repoId" := MStr (job_repoId job)]>
           (baseMetadata env state (job_userId job) file idx chunk)) !! key /\
    is_Some (vr_metadata record !! key).
Proof.
  intros Hchunk Hkey.
  destruct (sanitizeMeta_reserved (job_meta job) w) as (sm & w' & E & Hres).
  exists sm, w'. eexists. split; [exact E|]. split.
  { unfold chunks_to_records. rewrite list_lookup_imap, Hchunk. reflexivity. }
  cbn [vr_metadata].
  rewrite (chunk_metadata_lookup env _ _ _ _ _ _ _ _ (Hres key Hkey)).
  split; [reflexivity|].
  unfold reservedFields in Hkey.
  repeat (apply elem_of_cons in Hkey as [->|Hkey]; [eexists; reflexivity|]).
  apply elem_of_nil in Hkey. contradiction.
Qed.

Lemma reserved_fields_system_assigned_witness :
  let job := mkJob "https://github.com/acme/demo.git" "demo" (Some "u1")
               (Some [ ("category", JString "hacked"); ("id", JString "hacked-id");
                       ("repoId", JString "other"); ("team", JString "backend");
                       ("nested", JObject []) ]) in
  let chunk := mkChunk "src/c.ts:c:function_declaration:L1" "function_declaration"
                       (of_string "function c() {}") 1 1 in
  exists sanitizedMeta w' record,
    sanitizeMeta (job_meta job) Sample.world = (Ok sanitizedMeta, w') /\
    chunks_to_records (Sample.env Sample.no_changes) Sample.state_demo
                      (job_repoId job) (job_userId job) sanitizedMeta
                      "src/c.ts" [] [chunk] !! 0%nat = Some record /\
    vr_metadata record !! "category"
      = (<["repoId" := MStr (job_repoId job)]>
           (baseMetadata (Sample.env Sample.no_changes) Sample.state_demo
                         (job_userId job) "src/c.ts" 0 chunk)) !! "category" /\
    is_Some (vr_metadata record !! "category").
Proof.
  cbv zeta.
  apply (reserved_fields_system_assigned (Sample.env Sample.no_changes)
           (mkJob "https://github.com/acme/demo.git" "demo" (Some "u1")
              (Some [ ("category", JString "hacked"); ("id", JString "hacked-id");
                      ("repoId", JString "other"); ("team", JString "backend");
                      ("nested", JObject []) ]))
           Sample.state_demo "src/c.ts" []
           [mkChunk "src/c.ts:c:function_declaration:L1" "function_declaration"
                    (of_string "function c() {}") 1 1]
           Sample.world 0%nat _ "category").
  - reflexivity.
  - unfold reservedFields. apply list_elem_of_further, list_elem_of_here.
Defined.

(** The record of the repository's test "should not allow meta to override
    reserved fields", evaluated. *)
Example reserved_fields_test :
  let meta := [ ("category", JString "hacked"); ("id", JString "hacked-id");
                ("repositoryId", JString "hacked-repo");
                ("customField", JString "allowed") ] in
  let chunk := mkChunk "src/test.ts:testFunc:function:L1" "function"
                       (of_string "function testFunc() {}") 1 3 in
  match sanitizeMeta (Some meta) Sample.world with
  | (Ok sanitizedMeta, _) =>
      let metadata := chunk_metadata (Sample.env Sample.no_changes) Sample.state_demo
                        "repo_reserved_test" None sanitizedMeta "src/test.ts" 0 chunk in
      metadata !! "category" = Some (MStr "repository") /\
      metadata !! "id" = Some (MStr "src/test.ts:testFunc:function:L1") /\
      metadata !! "repositoryId" = Some (MStr "01JDEMO") /\
      metadata !! "customField" = Some (MStr "allowed") /\
      metadata !! "functionName" = Some (MStr "testFunc")
  | _ => False
  end.
Proof. vm_compute. repeat split. Qed.

(** ** Parent-child retrieval *)

Section Retrieval.

Variable env : Env.

Lemma only_logged_refl (w : World) : only_logged w w.
Proof. repeat split. Qed.

Lemma only_logged_logger lvl msg (w : World) : only_logged w (snd (logger lvl msg w)).
Proof. repeat split. Qed.

Lemma only_logged_trans (w1 w2 w3 : World) :
  only_logged w1 w2 -> only_logged w2 w3 -> only_logged w1 w3.
Proof.
  unfold only_logged. intros (?&?&?&?&?) (?&?&?&?&?). repeat split; congruence.
Qed.

(** [hits_to_records] touches nothing and maps hit by hit. *)
Lemma hits_to_records_pure (hits : list QueryHit) (index : nat) (w : World) :
  snd (hits_to_records env index hits w) = w /\
  (forall records, fst (hits_to_records env index hits w) = Ok records ->
                   length records = length hits).
Proof.
  revert index. induction hits as [|hit rest IH]; intros index.
  - split; [reflexivity|]. intros records [= <-]. reflexivity.
  - cbn [hits_to_records]. destruct (qh_distance hit) as [distance|].
    + destruct (IH (S index)) as [Hw Hlen]. unfold bind, ret.
      destruct (hits_to_records env (S index) rest w) as [[others|e] w'];
        cbn in Hw |- *; subst w'.
      * split; [reflexivity|]. intros records [= <-]. cbn.
        rewrite (Hlen others eq_refl). reflexivity.
      * split; [reflexivity|]. intros records [=].
    + split; [reflexivity|]. intros records [=].
Qed.

(** What a call of [similaritySearch] does to the world, and the bound
    [nResults] on its answer. *)
Lemma similaritySearch_frame qv (topK : Z) filter (w : World) :
  let run := similaritySearch env qv topK filter w in
  collection_items (snd run) = collection_items w /\
  content_blobs (snd run) = content_blobs w /\
  repo_states (snd run) = repo_states w /\
  (exists setup, calls (snd run)
                 = calls w ++ setup ++ [ChromaQuery topK (where_of_filter filter)] /\
                 Forall collection_setup setup) /\
  (forall records, fst run = Ok records -> (length records <= Z.to_nat topK)%nat).
Proof.
  cbv zeta.
  destruct (ensureCollection_frame env w) as (Hr & Hitems & Hblobs & Hstates & setup & Hcalls & Hsetup).
  destruct (ensureCollection env w) as [r w1] eqn:E. cbn in Hr, Hitems, Hblobs, Hstates, Hcalls.
  subst r. unfold similaritySearch. rewrite (bind_ok _ _ _ _ _ E).
  unfold collection_query. unfold_monad. cbn.
  match goal with
  | |- context [hits_to_records env 0 ?hits ?w2] =>
      destruct (hits_to_records_pure hits 0 w2) as [Hw Hlen];
      destruct (hits_to_records env 0 hits w2) as [res w3] eqn:Eh;
      assert (Hhits : (length hits <= Z.to_nat topK)%nat)
        by (rewrite length_firstn; lia)
  end.
  cbn in Hw, Hlen |- *. subst w3. cbn.
  repeat split; try assumption.
  - exists setup. split; [|exact Hsetup]. rewrite Hcalls, <- app_assoc. reflexivity.
  - intros records ->. rewrite (Hlen records eq_refl). exact Hhits.
Qed.

(** The loop of [retrieve] computes the first [k] distinct parent ids of the
    hits, in hit order; when no hit has a parent it has collected every
    orphan.  It only writes warnings. *)
Lemma collect_parents_spec (k : Z) (childResults : list VectorRecord)
    (parentIds : list string) (orphanChunks : list RetrievedChunk) (w : World) :
  (Z.of_nat (length parentIds) < k)%Z ->
  exists orphans' w',
    collect_parents env k childResults parentIds orphanChunks w
    = (Ok (firstn (Z.to_nat k)
             (fold_left Set_add (Spec.parent_ids (String_of env) childResults) parentIds),
           orphans'), w') /\
    (Spec.parent_ids (String_of env) childResults = [] ->
     orphans' = orphanChunks ++ Spec.orphans childResults) /\
    only_logged w w'.
Proof.
  revert parentIds orphanChunks w.
  induction childResults as [|res rest IH]; intros P O w HP.
  - exists O, w. cbn. rewrite firstn_all2 by lia.
    split; [reflexivity|]. split; [intros _; symmetry; apply app_nil_r|].
    apply only_logged_refl.
  - assert (Horphan : forall (c : N) (d : list N),
      Spec.parent_ids (String_of env) (res :: rest)
        = Spec.parent_ids (String_of env) rest ->
      Spec.orphans (res :: rest) = orphan_of res (c :: d) :: Spec.orphans rest ->
      exists orphans' w',
        (if (k <=? Z.of_nat (length P))%Z
         then ret (P, O ++ [orphan_of res (c :: d)])
         else collect_parents env k rest P (O ++ [orphan_of res (c :: d)])) w
        = (Ok (firstn (Z.to_nat k)
                 (fold_left Set_add (Spec.parent_ids (String_of env) (res :: rest)) P),
               orphans'), w') /\
        (Spec.parent_ids (String_of env) (res :: rest) = [] ->
         orphans' = O ++ Spec.orphans (res :: rest)) /\
        only_logged w w').
    { intros c d Hp Ho. rewrite Hp, Ho.
      destruct (Z.leb_spec k (Z.of_nat (length P))); [lia|].
      destruct (IH P (O ++ [orphan_of res (c :: d)]) w HP) as (o' & w' & E & Ho' & Hl).
      exists o', w'. split; [exact E|]. split; [|exact Hl].
      intros Hnil. rewrite (Ho' Hnil), <- app_assoc. reflexivity. }
    assert (Hskip : forall msg,
      Spec.parent_ids (String_of env) (res :: rest)
        = Spec.parent_ids (String_of env) rest ->
      Spec.orphans (res :: rest) = Spec.orphans rest ->
      exists orphans' w',
        (logger Warn msg ;; collect_parents env k rest P O) w
        = (Ok (firstn (Z.to_nat k)
                 (fold_left Set_add (Spec.parent_ids (String_of env) (res :: rest)) P),
               orphans'), w') /\
        (Spec.parent_ids (String_of env) (res :: rest) = [] ->
         orphans' = O ++ Spec.orphans (res :: rest)) /\
        only_logged w w').
    { intros msg Hp Ho. rewrite Hp, Ho. unfold bind at 1.
      destruct (IH P O (snd (logger Warn msg w)) HP) as (o' & w' & E & Ho' & Hl).
      exists o', w'. split; [exact E|]. split; [exact Ho'|].
      eapply only_logged_trans; [apply only_logged_logger|exact Hl]. }
    cbn [collect_parents].
    unfold Spec.parent_ids, Spec.orphans in *. cbn [omap list_omap] in *.
    destruct (vr_metadata res !! "parentId") as [pid|] eqn:Epid.
    + destruct (truthy pid) eqn:Etruthy.
      * cbn [fold_left].
        set (P' := Set_add P (String_of env pid)).
        set (ids := omap _ rest).
        destruct (fold_Set_add_prefix ids P') as [t Ht].
        assert (HP' : (length P' <= S (length P))%nat).
        { unfold P'. rewrite Set_add_length. case_bool_decide; lia. }
        destruct (Z.leb_spec k (Z.of_nat (length P'))) as [Hge|Hlt].
        -- exists O, w. split; [|split; [intros [=]|apply only_logged_refl]].
           unfold ret. rewrite Ht.
           replace (Z.to_nat k) with (length P') by lia.
           rewrite firstn_app, firstn_all, Nat.sub_diag. cbn.
           rewrite app_nil_r. reflexivity.
        -- destruct (IH P' O w Hlt) as (o' & w' & E & _ & Hl).
           exists o', w'. split; [exact E|]. split; [intros [=]|exact Hl].
      * destruct (vr_content res) as [[|c d]|]; cbn.
        -- apply Hskip; reflexivity.
        -- apply Horphan; reflexivity.
        -- apply Hskip; reflexivity.
    + destruct (vr_content res) as [[|c d]|]; cbn.
      * apply Hskip; reflexivity.
      * apply Horphan; reflexivity.
      * apply Hskip; reflexivity.
Qed.

End Retrieval.

Lemma firstn_Set_from_nil (k : Z) (ids : list string) :
  (1 <= k)%Z -> length (firstn (Z.to_nat k) (Set_from ids)) = 0%nat -> ids = [].
Proof.
  intros Hk Hlen. destruct ids as [|p ps]; [reflexivity|exfalso].
  assert (Hin : p ∈ Set_from (p :: ps)) by (apply Set_from_elem; left).
  destruct (Set_from (p :: ps)) as [|x xs].
  - apply elem_of_nil in Hin. exact Hin.
  - destruct (Z.to_nat k) eqn:Ek; [lia|]. cbn in Hlen. lia.
Qed.

(** C3, as stated, fails on the order of the result.  In the sample
    installation the database answers a query without ORDER BY with the rows
    as they lie in the table.  The hits name [src/b.ts] before [src/a.ts],
    the parent ids are collected in that order, [getParents] answers with
    the row of [src/a.ts] first, and that answer is the result. *)
Lemma retrieve_not_in_insertion_order :
  let env := Sample.env Sample.no_changes in
  let filter : option Metadata := Some {[ "repoId" := MStr "demo" ]} in
  match similaritySearch env [Z2Qc 3] 6 filter Sample.world,
        retrieve env [Z2Qc 3] 2 filter Sample.world with
  | (Ok childResults, w1), (Ok result, _) =>
      let parentIds := Spec.first_k_parents (String_of env) 2 childResults in
      parentIds = ["src/b.ts"; "src/a.ts"] /\
      match fst (getParents env parentIds w1) with
      | Ok rows => map blob_id rows = ["src/a.ts"; "src/b.ts"]
      | Throw _ => False
      end /\
      map rc_id result = ["src/a.ts"; "src/b.ts"] /\
      map rc_id (Spec.parents_in_insertion_order parentIds (content_blobs Sample.world))
        = ["src/b.ts"; "src/a.ts"]
  | _, _ => False
  end.
Proof. vm_compute. repeat split. Qed.

(** The same request against a database that answers in the order of the
    ids of the query: there the result is in the order of the parent ids. *)
Example retrieve_follows_the_database :
  let env := with_place place_in_query (Sample.env Sample.no_changes) in
  let filter : option Metadata := Some {[ "repoId" := MStr "demo" ]} in
  match retrieve env [Z2Qc 3] 2 filter Sample.world with
  | (Ok result, _) => map rc_id result = ["src/b.ts"; "src/a.ts"]
  | _ => False
  end.
Proof. vm_compute. reflexivity. Qed.

(** The answer of the database is a rearrangement of the rows asked for. *)
Lemma insert_row_perm place (row : ContentBlobEntity) (sorted : list ContentBlobEntity) :
  insert_row place row sorted ≡ₚ row :: sorted.
Proof.
  induction sorted as [|r t IH]; cbn [insert_row]; [reflexivity|].
  destruct (place (blob_id row) <=? place (blob_id r))%nat; [reflexivity|].
  rewrite IH. apply Permutation_swap.
Qed.

Lemma rows_by_place_perm place (rows : list ContentBlobEntity) :
  rows_by_place place rows ≡ₚ rows.
Proof.
  unfold rows_by_place. induction rows as [|r t IH]; cbn [fold_right]; [reflexivity|].
  rewrite insert_row_perm, IH. reflexivity.
Qed.

(** A chunk made of a blob row determines the row. *)
Lemma parent_to_chunk_map_inj (rows found : list ContentBlobEntity) :
  map parent_to_chunk rows = map parent_to_chunk found -> rows = found.
Proof.
  revert found. induction rows as [|r rows IH]; intros [|f found]; cbn [map];
    try discriminate; [reflexivity|].
  intros [= Hid Hcontent Hrepo Hmeta Hrest]. rewrite (IH found Hrest). f_equal.
  destruct r as [i1 r1 c1 m1], f as [i2 r2 c2 m2]. cbn in *.
  destruct r1, r2; cbn in Hrepo; congruence.
Qed.

Lemma omap_find_chunks (parentIds : list string) (table : list ContentBlobEntity) :
  omap (fun pid => parent_to_chunk <$>
                     List.find (fun b => String.eqb (blob_id b) pid) table) parentIds
  = map parent_to_chunk
      (omap (fun pid => List.find (fun b => String.eqb (blob_id b) pid) table)
            parentIds).
Proof.
  induction parentIds as [|pid rest IH]; [reflexivity|].
  cbn [omap list_omap]. rewrite IH.
  destruct (List.find _ table); reflexivity.
Qed.

(** The run of [retrieve] in terms of the run of its [similaritySearch]. *)
Lemma retrieve_run env qv (k : Z) filter (w : World) :
  (1 <= k)%Z ->
  match similaritySearch env qv (k * 3) filter w with
  | (Throw e, w1) => retrieve env qv k filter w = (Throw e, w1)
  | (Ok childResults, w1) =>
      let parentIds := Spec.first_k_parents (String_of env) k childResults in
      let w' := snd (retrieve env qv k filter w) in
      fst (retrieve env qv k filter w)
        = Ok (if (0 <? length parentIds)%nat
              then map parent_to_chunk
                     (rows_by_place (findBy_place env parentIds)
                        (List.filter (fun b => bool_decide (blob_id b ∈ parentIds))
                                     (content_blobs w)))
              else Spec.orphans childResults) /\
      calls w' = calls w1 ++ (if (0 <? length parentIds)%nat
                              then [BlobFindByIdIn parentIds] else [])
  end.
Proof.
  intros Hk.
  pose proof (similaritySearch_frame env qv (k * 3) filter w) as F. cbv zeta in F.
  destruct F as (_ & Hblobs & _ & _ & _).
  destruct (similaritySearch env qv (k * 3) filter w) as [[childResults|e] w1] eqn:E.
  - cbn in Hblobs. cbv zeta. unfold retrieve. rewrite (bind_ok _ _ _ _ _ E).
    destruct (collect_parents_spec env k childResults [] [] w1) as (o' & w2 & Ec & Ho & Hl).
    { cbn. lia. }
    rewrite (bind_ok _ _ _ _ _ Ec). cbv beta iota.
    unfold Spec.first_k_parents, Set_from.
    set (parentIds := firstn (Z.to_nat k) _) in *.
    destruct Hl as (_ & _ & Hb2 & _ & Hc2).
    destruct (0 <? length parentIds)%nat eqn:Elen.
    + unfold getParents. unfold_monad. cbn. rewrite Hb2, Hblobs, Hc2.
      split; reflexivity.
    + unfold ret. cbn. rewrite Hc2, app_nil_r. split; [|reflexivity].
      assert (Hnil : Spec.parent_ids (String_of env) childResults = []).
      { apply Nat.ltb_ge in Elen. apply (firstn_Set_from_nil k); [exact Hk|].
        subst parentIds. unfold Set_from. lia. }
      rewrite (Ho Hnil). reflexivity.
  - unfold retrieve. apply bind_throw. exact E.
Qed.


(** C3 (amended).  For [k >= 1], parent-mode [retrieve] searches children
    with [similaritySearch(queryVector, k * 3, filter)]: one Chroma query
    with [nResults = 3k] and the clause of [filter] (and it fails when the
    search fails).  It collects, in hit order, the distinct truthy
    [parentId]s and stops at [k] of them.  When at least one was collected it
    calls [getParents] once, with the ids in the order collected, and returns
    the rows that call returns, as they come: the rows of the blob table
    whose id was requested, in the order the database answers, which the
    code neither chooses nor changes.  The result is in the insertion order
    of the parent ids exactly when the database answers in that order.
    Otherwise (no parent) it returns the orphan hits (no truthy [parentId],
    non-empty content), in hit order. *)
Theorem retrieve_parent_mode env qv (k : Z) filter (w : World) :
  (1 <= k)%Z ->
  (exists setup,
     calls (snd (similaritySearch env qv (k * 3) filter w))
     = calls w ++ setup ++ [ChromaQuery (k * 3) (where_of_filter filter)] /\
     Forall collection_setup setup) /\
  match similaritySearch env qv (k * 3) filter w with
  | (Throw e, w1) => retrieve env qv k filter w = (Throw e, w1)
  | (Ok childResults, w1) =>
      let parentIds := Spec.first_k_parents (String_of env) k childResults in
      let w' := snd (retrieve env qv k filter w) in
      let requested := List.filter (fun b => bool_decide (blob_id b ∈ parentIds))
                                   (content_blobs w) in
      NoDup parentIds /\
      (length parentIds <= Z.to_nat k)%nat /\
      (forall id, id ∈ parentIds -> id ∈ Spec.parent_ids (String_of env) childResults) /\
      calls w' = calls w1 ++ (if (0 <? length parentIds)%nat
                              then [BlobFindByIdIn parentIds] else []) /\
      if (0 <? length parentIds)%nat then
        exists rows,
          fst (getParents env parentIds w1) = Ok rows /\
          rows ≡ₚ requested /\
          fst (retrieve env qv k filter w) = Ok (map parent_to_chunk rows) /\
          (map parent_to_chunk rows
           = Spec.parents_in_insertion_order parentIds (content_blobs w)
           <-> rows = omap (fun pid => List.find (fun b => String.eqb (blob_id b) pid)
                                                 (content_blobs w)) parentIds)
      else fst (retrieve env qv k filter w) = Ok (Spec.orphans childResults)
  end.
Proof.
  intros Hk. split.
  { pose proof (similaritySearch_frame env qv (k * 3) filter w) as F.
    cbv zeta in F. destruct F as (_ & _ & _ & Hcalls & _). exact Hcalls. }
  pose proof (retrieve_run env qv k filter w Hk) as R.
  pose proof (similaritySearch_frame env qv (k * 3) filter w) as F. cbv zeta in F.
  destruct F as (_ & Hblobs & _ & _ & _).
  destruct (similaritySearch env qv (k * 3) filter w) as [[childResults|e] w1];
    [|exact R].
  cbv zeta in R |- *. cbn [snd] in Hblobs. destruct R as [Rres Rcalls].
  split; [|split; [|split; [|split; [exact Rcalls|]]]].
  - unfold Spec.first_k_parents.
    eapply sublist_NoDup; [apply Set_from_NoDup|apply sublist_take].
  - unfold Spec.first_k_parents. rewrite length_firstn. lia.
  - intros id Hid. unfold Spec.first_k_parents in Hid.
    pose proof (subseteq_take _ _ _ Hid) as Hid'.
    apply Set_from_elem, Hid'.
  - set (parentIds := Spec.first_k_parents (String_of env) k childResults) in *.
    destruct (0 <? length parentIds)%nat; [|exact Rres].
    eexists. split; [|split; [|split; [exact Rres|]]].
    + unfold getParents. unfold_monad. cbn [fst]. rewrite Hblobs. reflexivity.
    + apply rows_by_place_perm.
    + unfold Spec.parents_in_insertion_order.
      generalize (rows_by_place (findBy_place env parentIds)
                    (List.filter (fun b => bool_decide (blob_id b ∈ parentIds))
                                 (content_blobs w))).
      intros rows.
      rewrite (omap_find_chunks parentIds (content_blobs w)).
      split; [|intros ->; reflexivity].
      apply parent_to_chunk_map_inj.
Qed.

Lemma retrieve_parent_mode_witness :
  let env := Sample.env Sample.no_changes in
  let filter : option Metadata := Some {[ "repoId" := MStr "demo" ]} in
  match similaritySearch env [Z2Qc 3] (2 * 3) filter Sample.world with
  | (Throw e, w1) => retrieve env [Z2Qc 3] 2 filter Sample.world = (Throw e, w1)
  | (Ok childResults, w1) =>
      let parentIds := Spec.first_k_parents (String_of env) 2 childResults in
      parentIds = ["src/b.ts"; "src/a.ts"] /\
      exists rows,
        fst (getParents env parentIds w1) = Ok rows /\
        rows ≡ₚ List.filter (fun b => bool_decide (blob_id b ∈ parentIds))
                            (content_blobs Sample.world) /\
        fst (retrieve env [Z2Qc 3] 2 filter Sample.world) = Ok (map parent_to_chunk rows)
  end.
Proof.
  cbv zeta.
  pose proof (retrieve_parent_mode (Sample.env Sample.no_changes) [Z2Qc 3] 2
                (Some {[ "repoId" := MStr "demo" ]}) Sample.world ltac:(lia)) as [_ H].
  destruct (similaritySearch (Sample.env Sample.no_changes) [Z2Qc 3] (2 * 3)
              (Some {[ "repoId" := MStr "demo" ]}) Sample.world)
    as [[childResults|e] w1] eqn:E; [|exact H].
  cbv zeta in H. destruct H as (_ & _ & _ & _ & Hres).
  assert (Hp : Spec.first_k_parents
                 (String_of (Sample.env Sample.no_changes)) 2 childResults
               = ["src/b.ts"; "src/a.ts"]).
  { vm_compute in E. injection E as <- _. vm_compute. reflexivity. }
  split; [exact Hp|]. rewrite Hp in Hres. cbn [length Nat.ltb Nat.leb] in Hres.
  destruct Hres as (rows & Hget & Hperm & Hret & _).
  exists rows. rewrite Hp. split; [exact Hget|]. split; [exact Hperm|exact Hret].
Defined.

(** ** The [k] parameter (QueryService) *)

Section NormalizeK.

Lemma Z2Qc_this (z : Z) : this (Z2Qc z) = inject_Z z.
Proof.
  unfold Z2Qc, Q2Qc, inject_Z. cbn [this]. unfold Qred.
  pose proof (Z.ggcd_gcd z 1) as Hg.
  pose proof (Z.ggcd_correct_divisors z 1) as Hd.
  destruct (Z.ggcd z 1) as [g [aa bb]]. cbn in Hg, Hd |- *.
  rewrite Z.gcd_1_r in Hg. subst g. destruct Hd as [Ha Hb].
  rewrite Z.mul_1_l in Ha, Hb. subst aa bb. reflexivity.
Qed.

Lemma isInteger_Z2Qc (z : Z) : Number_isInteger (Finite (Z2Qc z)) = true.
Proof. unfold Number_isInteger. rewrite Z2Qc_this. reflexivity. Qed.

Lemma lt_one_Z2Qc (z : Z) : lt_one (Finite (Z2Qc z)) = bool_decide (z < 1)%Z.
Proof.
  unfold lt_one. apply bool_decide_ext. unfold Qclt.
  rewrite !Z2Qc_this. unfold Qlt, inject_Z. cbn. lia.
Qed.

Lemma normalizeK_integer (z : Z) :
  normalizeK (Some (Finite (Z2Qc z)))
  = if bool_decide (z < 1)%Z then DEFAULT_K else Z.min z MAX_K.
Proof.
  unfold normalizeK. rewrite isInteger_Z2Qc, lt_one_Z2Qc. cbn [negb orb].
  case_bool_decide; [reflexivity|]. rewrite Z2Qc_this. reflexivity.
Qed.

Lemma normalizeK_range (k : option JsNumber) :
  (1 <= normalizeK k <= MAX_K)%Z.
Proof.
  unfold normalizeK, DEFAULT_K, MAX_K. destruct k as [x|]; [|lia].
  destruct (negb (Number_isInteger x) || lt_one x) eqn:E; [lia|].
  apply orb_false_iff in E as [_ Hlt].
  destruct x as [q| |neg]; try lia.
  unfold lt_one in Hlt. apply bool_decide_eq_false in Hlt.
  assert (Hq : (Z2Qc 1 <= q)%Qc) by (apply Qcnot_lt_le, Hlt).
  unfold Qcle in Hq. rewrite Z2Qc_this in Hq. unfold Qle, inject_Z in Hq.
  cbn in Hq. assert (0 < Qnum q)%Z; [|lia].
  pose proof (Pos2Z.is_pos (Qden q)). nia.
Qed.

End NormalizeK.

(** ** Searches made by the query service *)

Section QueryService.

Variable env : Env.

Lemma truncateToTokenLimit_run text maxTokens (w : World) :
  exists w',
    truncateToTokenLimit text maxTokens w
    = (Ok (if (estimateTokens text <=? maxTokens)%nat then text
           else substring 0 (maxTokens * 4) text), w') /\
    only_logged w w'.
Proof.
  unfold truncateToTokenLimit.
  destruct (estimateTokens text <=? maxTokens)%nat.
  - exists w. split; [reflexivity|apply only_logged_refl].
  - unfold_monad. eexists. split; [reflexivity|]. repeat split.
Qed.

(** The pass of [embedDocuments] over its input: it returns the kept
    texts, truncated, in order, and only writes warnings. *)
Lemma process_texts_run texts (i : nat) (w : World) :
  exists w',
    process_texts i texts w = (Ok (map Spec.truncate (kept_texts texts)), w') /\
    only_logged w w'.
Proof.
  revert i w. induction texts as [|text rest IH]; intros i w.
  - exists w. split; [reflexivity|apply only_logged_refl].
  - cbn [process_texts kept_texts omap list_omap]. fold (kept_texts rest).
    destruct text as [[|c d]|]; try apply IH.
    destruct (replace_trim_newlines (c :: d)) as [|p ps] eqn:Ep; [apply IH|].
    cbn [length Nat.eqb map]. unfold Spec.truncate at 1.
    destruct (MAX_TOKENS_PER_INPUT <? estimateTokens (p :: ps))%nat eqn:Elim.
    + destruct (truncateToTokenLimit_run (p :: ps) MAX_TOKENS_PER_INPUT
                  (snd (logger Warn
                          ("Text " +:+ pretty i +:+ " exceeds token limit: "
                           +:+ pretty (estimateTokens (p :: ps))
                           +:+ " tokens (max: " +:+ pretty MAX_TOKENS_PER_INPUT +:+ ")") w)))
        as (w1 & Et & Hl1).
      apply Nat.ltb_lt in Elim.
      destruct (Nat.leb_spec (estimateTokens (p :: ps)) MAX_TOKENS_PER_INPUT) as [Hle|_];
        [lia|].
      destruct (IH (S i) w1) as (w2 & Er & Hl2).
      exists w2. split.
      * unfold bind at 1. unfold bind at 1. cbn [logger modify].
        unfold logger, modify in Et. cbn [snd] in Et. rewrite Et.
        unfold bind. rewrite Er. reflexivity.
      * eapply only_logged_trans; [|exact Hl2].
        eapply only_logged_trans; [apply only_logged_logger|exact Hl1].
    + destruct (IH (S i) w) as (w2 & Er & Hl2).
      exists w2. split; [|exact Hl2].
      unfold bind, ret. rewrite Er. reflexivity.
Qed.

(** [embedDocuments] leaves the stores alone and calls nothing but the
    embeddings endpoint. *)
Lemma embedDocuments_frame texts (w : World) :
  let run := embedDocuments env texts w in
  chroma (snd run) = chroma w /\
  collection_cached (snd run) = collection_cached w /\
  content_blobs (snd run) = content_blobs w /\
  repo_states (snd run) = repo_states w /\
  exists new, calls (snd run) = calls w ++ new /\
              Forall (fun c => exists input, c = OpenAIEmbeddingsCreate input) new.
Proof.
  cbv zeta. unfold embedDocuments.
  assert (Hnone : forall msg : string,
            let run := (logger Warn msg ;; ret (A := list EmbeddingVector) []) w in
            chroma (snd run) = chroma w /\
            collection_cached (snd run) = collection_cached w /\
            content_blobs (snd run) = content_blobs w /\
            repo_states (snd run) = repo_states w /\
            exists new, calls (snd run) = calls w ++ new /\
              Forall (fun c => exists input, c = OpenAIEmbeddingsCreate input) new).
  { intros msg. cbn. repeat split. exists []. split; [symmetry; apply app_nil_r|constructor]. }
  destruct texts as [[|t ts]|]; try apply Hnone.
  destruct (process_texts_run (t :: ts) 0 w) as (w1 & E & Hc & Hca & Hb & Hs & Hcalls).
  rewrite (bind_ok _ _ _ _ _ E).
  set (r := map Spec.truncate (kept_texts (t :: ts))). clearbody r.
  destruct (length r =? 0)%nat.
  - cbn. rewrite Hc, Hca, Hb, Hs, Hcalls. repeat split.
    exists []. split; [symmetry; apply app_nil_r|constructor].
  - unfold_monad. cbn.
    destruct (openai_embeddings_create env r); cbn;
      rewrite Hc, Hca, Hb, Hs, Hcalls; repeat split;
      (eexists; split; [reflexivity|]); repeat constructor; eexists; reflexivity.
Qed.

Lemma kept_texts_off_boundary (texts : list (option jsstring)) :
  Forall (fun text => forall t, text = Some t -> Spec.lone_newline_edge t = false) texts ->
  kept_texts texts = Spec.embed_inputs texts.
Proof.
  induction 1 as [|text rest Hhead _ IH]; [reflexivity|].
  unfold kept_texts, Spec.embed_inputs in *. cbn [omap list_omap].
  rewrite IH. destruct text as [t|]; [|reflexivity].
  rewrite (replace_trim_newlines_spec t (Hhead t eq_refl)). reflexivity.
Qed.

(** Off the boundary of C5 the claim holds: the backend receives exactly
    the non-empty sanitized inputs (truncated to the model's limit), in
    order, and its answer is returned; it is not called when none is left. *)
Lemma embedDocuments_off_boundary (texts : list (option jsstring)) (w : World) :
  Forall (fun text => forall t, text = Some t -> Spec.lone_newline_edge t = false) texts ->
  let inputs := map Spec.truncate (Spec.embed_inputs texts) in
  fst (embedDocuments env (Some texts) w)
    = (if (length inputs =? 0)%nat then Ok [] else openai_embeddings_create env inputs) /\
  calls (snd (embedDocuments env (Some texts) w))
    = calls w ++ (if (length inputs =? 0)%nat then []
                  else [OpenAIEmbeddingsCreate inputs]).
Proof.
  intros Hoff. cbv zeta. rewrite <- (kept_texts_off_boundary texts Hoff).
  unfold embedDocuments. destruct texts as [|t ts].
  - cbn. rewrite app_nil_r. split; reflexivity.
  - destruct (process_texts_run (t :: ts) 0 w) as (w1 & E & _ & _ & _ & _ & Hcalls).
    rewrite (bind_ok _ _ _ _ _ E).
    set (r := map Spec.truncate (kept_texts (t :: ts))). clearbody r.
    destruct (length r =? 0)%nat.
    + cbn. rewrite Hcalls, app_nil_r. split; reflexivity.
    + unfold_monad. cbn.
      destruct (openai_embeddings_create env r); cbn; rewrite Hcalls; split; reflexivity.
Qed.

Lemma length_omap_le {A B} (f : A -> option B) (l : list A) :
  (length (omap f l) <= length l)%nat.
Proof.
  induction l as [|x l IH]; cbn; [lia|]. destruct (f x); cbn; lia.
Qed.

(** Chunk mode: one search with [nResults = k], at most [k] chunks. *)
Lemma retrieveChunks_run qv (k : Z) filter (w : World) :
  let run := retrieveChunks env qv k filter w in
  (forall results, fst run = Ok results -> (length results <= Z.to_nat k)%nat) /\
  exists setup, calls (snd run)
                = calls w ++ setup ++ [ChromaQuery k (where_of_filter filter)] /\
                Forall collection_setup setup.
Proof.
  cbv zeta.
  pose proof (similaritySearch_frame env qv k filter w) as F. cbv zeta in F.
  destruct F as (_ & _ & _ & Hcalls & Hlen).
  unfold retrieveChunks, bind, ret.
  destruct (similaritySearch env qv k filter w) as [[records|e] w1]; cbn in *.
  - split; [|exact Hcalls]. intros results [= <-].
    etransitivity; [apply length_omap_le|]. apply Hlen. reflexivity.
  - split; [intros results [=]|exact Hcalls].
Qed.

(** The rows [getParents] finds are at most as many as the ids asked for,
    because [id] is the primary key of the table. *)
Lemma getParents_rows_le (table : list ContentBlobEntity) (ids : list string) :
  NoDup (map blob_id table) ->
  (length (List.filter (fun b => bool_decide (blob_id b ∈ ids)) table) <= length ids)%nat.
Proof.
  intros Hnd.
  set (rows := List.filter _ table).
  rewrite <- (length_map blob_id rows).
  apply submseteq_length, NoDup_submseteq.
  - clear -Hnd. subst rows. induction table as [|b t IH]; cbn; [constructor|].
    inversion Hnd as [|? ? Hb Ht]; subst.
    destruct (bool_decide (blob_id b ∈ ids)); cbn; [|apply IH, Ht].
    constructor; [|apply IH, Ht].
    intros Hin. apply Hb. apply list_elem_of_fmap in Hin as (b' & -> & Hin').
    apply list_elem_of_fmap. exists b'. split; [reflexivity|].
    apply list_elem_of_In, filter_In in Hin'. apply list_elem_of_In, Hin'.
  - intros x (b & -> & Hin)%list_elem_of_fmap.
    apply list_elem_of_In, filter_In in Hin as [_ Hb].
    apply bool_decide_eq_true in Hb. exact Hb.
Qed.

End QueryService.


(** The copy [search] makes of each chunk is the chunk. *)
Lemma chunk_copy (chunks : list RetrievedChunk) :
  map (fun chunk => mkRetrieved (rc_id chunk) (rc_content chunk)
                                (rc_repoId chunk) (rc_metadata chunk)) chunks
  = chunks.
Proof. induction chunks as [|[] t IH]; cbn; [|rewrite IH]; reflexivity. Qed.

(** A search request is its embedding call followed by one call of the
    retriever, on the first vector, with [normalizeK] of the requested [k]
    and the merged filter; what the retriever answers is the answer. *)
Lemma search_with_run env (mode : SearchMode) (repoId : string)
    (params : QuerySearchRequest) (w : World) :
  let K := normalizeK (req_k params) in
  let F := default ∅ (req_meta params) ∪ {[ "repoId" := MStr repoId ]} in
  let run := search_with env mode repoId params w in
  match embedDocuments env (Some [Some (req_prompt params)]) w with
  | (Ok (queryVector :: _), w1) =>
      run = match mode with
            | ParentMode => retrieve env queryVector K (Some F) w1
            | ChunkMode => retrieveChunks env queryVector K (Some F) w1
            end /\
      exists setup fetched,
        calls (snd run)
        = calls w1 ++ setup
          ++ [ChromaQuery (match mode with ParentMode => K * 3 | ChunkMode => K end)%Z
                          (where_of_filter (Some F))]
          ++ fetched /\
        Forall collection_setup setup /\
        Forall (fun c => exists ids, c = BlobFindByIdIn ids) fetched
  | (Ok [], w1) =>
      fst run = Throw (mkError BadRequestException
                         "Failed to generate embeddings for the query. Please try again.") /\
      calls (snd run) = calls w1
  | (Throw e, w1) => run = (Throw e, w1)
  end.
Proof.
  cbv zeta. pose proof (normalizeK_range (req_k params)) as HK.
  set (K := normalizeK (req_k params)) in *.
  set (F := default ∅ (req_meta params) ∪ {[ "repoId" := MStr repoId ]}).
  unfold search_with. fold K. fold F.
  destruct (embedDocuments env (Some [Some (req_prompt params)]) w)
    as [[[|queryVector others]|e] w1] eqn:Ee.
  - rewrite (bind_ok _ _ _ _ _ Ee). unfold_monad. cbn [fst snd calls].
    split; reflexivity.
  - rewrite (bind_ok _ _ _ _ _ Ee).
    assert (Hcopy : forall m : M (list RetrievedChunk),
              (retrievedChunks <- m ;;
               ret (map (fun chunk => mkRetrieved (rc_id chunk) (rc_content chunk)
                                                  (rc_repoId chunk) (rc_metadata chunk))
                        retrievedChunks)) w1 = m w1).
    { intros m. unfold bind, ret. destruct (m w1) as [[r|e] w2];
        [rewrite chunk_copy|]; reflexivity. }
    rewrite Hcopy. split; [destruct mode; reflexivity|].
    destruct mode.
    + pose proof (retrieve_run env queryVector K (Some F) w1 ltac:(lia)) as R.
      pose proof (similaritySearch_frame env queryVector (K * 3) (Some F) w1) as Fs.
      cbv zeta in Fs. destruct Fs as (_ & _ & _ & (setup & Hcalls & Hsetup) & _).
      destruct (similaritySearch env queryVector (K * 3) (Some F) w1)
        as [[childResults|e] w2]; cbn [fst snd] in Hcalls.
      * cbv zeta in R. destruct R as [_ Rcalls].
        exists setup. eexists. rewrite Rcalls, Hcalls, <- !app_assoc.
        split; [reflexivity|]. split; [exact Hsetup|].
        destruct (0 <? length _)%nat; repeat constructor. eexists. reflexivity.
      * rewrite R. cbn [snd]. exists setup, []. rewrite Hcalls, app_nil_r.
        split; [reflexivity|]. split; [exact Hsetup|constructor].
    + pose proof (retrieveChunks_run env queryVector K (Some F) w1) as R.
      cbv zeta in R. destruct R as (_ & setup & Hcalls & Hsetup).
      exists setup, []. rewrite Hcalls, app_nil_r.
      split; [reflexivity|]. split; [exact Hsetup|constructor].
  - rewrite (bind_throw _ _ _ _ _ Ee). reflexivity.
Qed.

(** C7.  For every search request, in either mode: [normalizeK] of the
    requested [k] is 5 for [undefined]/[null], for a non-integer and for an
    integer below 1, the integer itself from 1 to 100 (so 1 and 100 are
    honored) and 100 above 100.  The request embeds the prompt and then
    invokes the retriever once, on the first vector, with that value and the
    merged filter, and answers what the retriever answers: the run of the
    request is the run of [retrieve] (parent mode) or [retrieveChunks] (chunk
    mode) at [normalizeK k], and the vector search it sends to Chroma asks
    for [normalizeK k] results (chunk mode) or three times as many (parent
    mode).  When the embedding call fails or yields nothing, the request
    fails and no retriever runs.  Chunk mode returns at most [normalizeK k]
    chunks; parent mode returns at most that many parents (the blob table
    has [id] as primary key), or, when no hit names a parent, fetches no
    parent at all and returns the orphan hits. *)
Theorem search_k_normalized env (mode : SearchMode) (repoId : string)
    (params : QuerySearchRequest) (w : World) :
  let K := normalizeK (req_k params) in
  let F := default ∅ (req_meta params) ∪ {[ "repoId" := MStr repoId ]} in
  let run := search_with env mode repoId params w in
  (1 <= K <= 100)%Z /\
  normalizeK None = 5%Z /\
  (forall x, Number_isInteger x = false -> normalizeK (Some x) = 5%Z) /\
  (forall z, normalizeK (Some (Finite (Z2Qc z)))
             = if bool_decide (z < 1)%Z then 5%Z else Z.min z 100) /\
  normalizeK (Some (Finite (Z2Qc 1))) = 1%Z /\
  normalizeK (Some (Finite (Z2Qc 100))) = 100%Z /\
  match embedDocuments env (Some [Some (req_prompt params)]) w with
  | (Ok (queryVector :: _), w1) =>
      run = match mode with
            | ParentMode => retrieve env queryVector K (Some F) w1
            | ChunkMode => retrieveChunks env queryVector K (Some F) w1
            end /\
      exists setup fetched,
        calls (snd run)
        = calls w1 ++ setup
          ++ [ChromaQuery (match mode with ParentMode => K * 3 | ChunkMode => K end)%Z
                          (where_of_filter (Some F))]
          ++ fetched /\
        Forall collection_setup setup /\
        Forall (fun c => exists ids, c = BlobFindByIdIn ids) fetched
  | (Ok [], w1) =>
      fst run = Throw (mkError BadRequestException
                         "Failed to generate embeddings for the query. Please try again.") /\
      calls (snd run) = calls w1
  | (Throw e, w1) => run = (Throw e, w1)
  end /\
  exists new,
    calls (snd run) = calls w ++ new /\
    Forall (fun c => forall n clause, c = ChromaQuery n clause ->
              n = match mode with ParentMode => (K * 3)%Z | ChunkMode => K end) new /\
    forall results, fst run = Ok results ->
      match mode with
      | ChunkMode => (length results <= Z.to_nat K)%nat
      | ParentMode =>
          NoDup (map blob_id (content_blobs w)) ->
          (length results <= Z.to_nat K)%nat \/
          Forall (fun c => forall ids, c <> BlobFindByIdIn ids) new
      end.
Proof.
  cbv zeta. pose proof (normalizeK_range (req_k params)) as HK.
  set (K := normalizeK (req_k params)) in *.
  split; [exact HK|]. split; [reflexivity|]. split.
  { intros x Hx. unfold normalizeK. rewrite Hx. reflexivity. }
  split; [exact normalizeK_integer|]. split; [reflexivity|]. split; [reflexivity|].
  split; [exact (search_with_run env mode repoId params w)|].
  unfold search_with. fold K.
  set (metaFilters := default ∅ (req_meta params) ∪ {["repoId" := MStr repoId]}).
  pose proof (embedDocuments_frame env (Some [Some (req_prompt params)]) w) as Fe.
  cbv zeta in Fe. destruct Fe as (_ & _ & Hblobs & _ & emb & Hemb & Hopenai).
  assert (Hq : forall n0, Forall (fun c => forall n clause,
                                    c = ChromaQuery n clause -> n = n0) emb).
  { intros n0. eapply Forall_impl; [exact Hopenai|].
    intros c [input ->] n clause [=]. }
  assert (Hf : Forall (fun c => forall ids, c <> BlobFindByIdIn ids) emb).
  { eapply Forall_impl; [exact Hopenai|]. intros c [input ->] ids [=]. }
  assert (Hsq : forall setup n0, Forall collection_setup setup ->
            Forall (fun c => forall n clause, c = ChromaQuery n clause -> n = n0) setup).
  { intros setup n0 H. eapply Forall_impl; [exact H|].
    intros c [->| ->] n clause [=]. }
  assert (Hsf : forall setup, Forall collection_setup setup ->
            Forall (fun c => forall ids, c <> BlobFindByIdIn ids) setup).
  { intros setup H. eapply Forall_impl; [exact H|]. intros c [->| ->] ids [=]. }
  destruct (embedDocuments env (Some [Some (req_prompt params)]) w)
    as [[[|queryVector others]|e] w1] eqn:Ee; cbn [fst snd] in Hblobs, Hemb.
  - (* no embedding: BadRequestException *)
    rewrite (bind_ok _ _ _ _ _ Ee). unfold_monad. cbn [fst snd calls].
    exists emb. split; [exact Hemb|]. split; [apply Hq|]. intros results [=].
  - rewrite (bind_ok _ _ _ _ _ Ee). destruct mode.
    + (* parent mode *)
      pose proof (retrieve_run env queryVector K (Some metaFilters) w1) as R.
      pose proof (similaritySearch_frame env queryVector (K * 3) (Some metaFilters) w1) as Fs.
      cbv zeta in Fs. destruct Fs as (_ & _ & _ & (setup & Hcalls & Hsetup) & _).
      specialize (R ltac:(lia)).
      destruct (similaritySearch env queryVector (K * 3) (Some metaFilters) w1)
        as [[childResults|e] w2]; cbn [fst snd] in Hcalls.
      * cbv zeta in R. destruct R as [Rres Rcalls].
        set (parentIds := Spec.first_k_parents (String_of env) K childResults) in *.
        destruct (retrieve env queryVector K (Some metaFilters) w1) as [r w3] eqn:Er.
        cbn [fst snd] in Rres, Rcalls. subst r. rewrite (bind_ok _ _ _ _ _ Er). unfold ret. cbn [fst snd].
        exists (emb ++ setup ++ [ChromaQuery (K * 3) (where_of_filter (Some metaFilters))]
                ++ (if (0 <? length parentIds)%nat then [BlobFindByIdIn parentIds] else [])).
        split; [rewrite Rcalls, Hcalls, Hemb, <- !app_assoc; reflexivity|]. split.
        { apply Forall_app. split; [apply Hq|]. apply Forall_app. split; [apply Hsq, Hsetup|].
          constructor; [intros n clause [= <- _]; reflexivity|].
          destruct (0 <? length parentIds)%nat; repeat constructor. intros n clause [=]. }
        intros results [= <-] Hnd. rewrite length_map.
        destruct (0 <? length parentIds)%nat eqn:Elen.
        -- left. rewrite length_map, (Permutation_length (rows_by_place_perm _ _)), Hblobs.
           etransitivity; [apply getParents_rows_le, Hnd|].
           subst parentIds. unfold Spec.first_k_parents. rewrite length_firstn. lia.
        -- right. apply Forall_app. split; [exact Hf|].
           apply Forall_app. split; [apply Hsf, Hsetup|].
           repeat constructor. intros ids [=].
      * rewrite (bind_throw _ _ _ _ _ R).
        exists (emb ++ setup ++ [ChromaQuery (K * 3) (where_of_filter (Some metaFilters))]).
        cbn [fst snd]. split; [rewrite Hcalls, Hemb, <- !app_assoc; reflexivity|]. split.
        { apply Forall_app. split; [apply Hq|]. apply Forall_app. split; [apply Hsq, Hsetup|].
          repeat constructor. intros n clause [= <- _]. reflexivity. }
        intros results [=].
    + (* chunk mode *)
      pose proof (retrieveChunks_run env queryVector K (Some metaFilters) w1) as R.
      cbv zeta in R. destruct R as (Hlen & setup & Hcalls & Hsetup).
      destruct (retrieveChunks env queryVector K (Some metaFilters) w1) as [[chunks|e] w2]
        eqn:Er; cbn [fst snd] in Hlen, Hcalls;
        [rewrite (bind_ok _ _ _ _ _ Er)|rewrite (bind_throw _ _ _ _ _ Er)];
        unfold ret; cbn [fst snd];
        exists (emb ++ setup ++ [ChromaQuery K (where_of_filter (Some metaFilters))]);
        (split; [rewrite Hcalls, Hemb, <- !app_assoc; reflexivity|]);
        (split; [apply Forall_app; split; [apply Hq|]; apply Forall_app; split;
                   [apply Hsq, Hsetup|]; repeat constructor;
                   intros n clause [= <- _]; reflexivity|]).
      * intros results [= <-]. rewrite length_map. apply Hlen. reflexivity.
      * intros results [=].
  - (* the embedding call failed *)
    rewrite (bind_throw _ _ _ _ _ Ee). cbn [fst snd].
    exists emb. split; [exact Hemb|]. split; [apply Hq|]. intros results [=].
Qed.

(** [k = 1] on the sample installation: one parent, one chunk; a
    fractional and an oversized [k] search with 5 and 100. *)
Example search_k_examples :
  let env := Sample.env Sample.no_changes in
  let request k := mkRequest (of_string "function") k None in
  let ids run := match fst run with Ok results => Some (map rc_id results) | _ => None end in
  ids (search env "demo" (request (Some (Finite (Z2Qc 1)))) Sample.world)
    = Some ["src/a.ts"] /\
  ids (searchChunks env "demo" (request (Some (Finite (Z2Qc 1)))) Sample.world)
    = Some ["src/a.ts:a:function_declaration:L1"] /\
  normalizeK (Some (Finite (Q2Qc (5 # 2)))) = 5%Z /\
  normalizeK (Some NaN) = 5%Z /\
  normalizeK (Some (Finite (Z2Qc (-3)))) = 5%Z /\
  normalizeK (Some (Finite (Z2Qc 250))) = 100%Z.
Proof. vm_compute. repeat split. Qed.

(** ** Deleted files and the short-circuit (RepoUpdateProcessor) *)

Section Deletions.

Lemma string_length_app (a b : string) :
  String.length (a +:+ b) = (String.length a + String.length b)%nat.
Proof.
  induction a as [|c a IH]; [reflexivity|].
  change (S (String.length (a +:+ b)) = S (String.length a + String.length b)).
  f_equal. exact IH.
Qed.

(** A chunk id is never the path of its file: it is the path followed by
    [":name:type:Lline"]. *)
Lemma generateChunkId_not_path (file name nodeType : string) (line : Z) :
  generateChunkId file name nodeType line <> file.
Proof.
  unfold generateChunkId. intros E. apply (f_equal String.length) in E.
  rewrite !string_length_app in E. cbn in E. lia.
Qed.

(** [deleteDocuments([file])] deletes by vector id, and so keeps every
    chunk of [file]. *)
Lemma deleteDocuments_keeps_chunks env (file name nodeType : string) (line : Z)
    (item : ChromaItem) (w : World) :
  it_id item = generateChunkId file name nodeType line ->
  item ∈ collection_items w ->
  item ∈ collection_items (snd (deleteDocuments env [file] w)).
Proof.
  intros Hid Hin.
  destruct (ensureCollection_frame env w) as (Hr & Hitems & _).
  unfold deleteDocuments.
  destruct (ensureCollection env w) as [r w1] eqn:E. cbn [fst snd] in Hr, Hitems. subst r.
  rewrite (bind_ok _ _ _ _ _ E). unfold_monad.
  unfold collection_items in *. cbn.
  rewrite Hitems. apply list_elem_of_In, filter_In. split; [apply list_elem_of_In, Hin|].
  apply negb_true_iff, bool_decide_eq_false.
  intros H%list_elem_of_singleton. rewrite H in Hid. symmetry in Hid.
  exact (generateChunkId_not_path _ _ _ _ Hid).
Qed.

Lemma sanitize_entries_only_logged entries (sanitized : Metadata) skipped (w : World) :
  only_logged w (snd (sanitize_entries entries sanitized skipped w)).
Proof.
  revert sanitized skipped w.
  induction entries as [|[key value] rest IH]; intros sanitized skipped w.
  - apply only_logged_refl.
  - cbn [sanitize_entries]. case_bool_decide.
    + unfold bind at 1. cbn [logger modify].
      eapply only_logged_trans; [|apply IH]. repeat split.
    + destruct (primitive value); apply IH.
Qed.

Lemma sanitizeMeta_only_logged meta (w : World) :
  only_logged w (snd (sanitizeMeta meta w)).
Proof.
  destruct (sanitizeMeta_reserved meta w) as (sm & w' & E & _).
  unfold sanitizeMeta in *. destruct meta as [entries|]; [|apply only_logged_refl].
  pose proof (sanitize_entries_only_logged entries ∅ [] w) as Hl.
  unfold bind in *.
  destruct (sanitize_entries entries ∅ [] w) as [[[s sk]|e] w1]; cbn [snd] in Hl |- *;
    [|exact Hl].
  destruct (0 <? length sk)%nat; cbn; [|exact Hl].
  eapply only_logged_trans; [exact Hl|]. repeat split.
Qed.

(** A job for a known repository whose diff has no added and no modified
    file returns "No changes detected" at once: no call is made on any
    store, in particular none for the deleted paths, and the repository
    state keeps its old [lastProcessedCommit]. *)
Lemma process_short_circuit env (job : RepoIngestionJobData) (w : World)
    (state : RepoStateEntity) (head : string) (changes : GitChangedFiles) :
  List.find (fun s => String.eqb (state_repoUrl s) (job_repoUrl job)) (repo_states w)
    = Some state ->
  git_getCurrentCommit env (state_localPath state) = Ok head ->
  git_getChangedFiles env (state_localPath state)
    (match state_lastProcessedCommit state with
     | Some c => if String.eqb c "" then None else Some c
     | None => None
     end) = Ok changes ->
  added changes = [] -> modified changes = [] ->
  exists w', process env job w = (Ok (Some "No changes detected"), w') /\
             only_logged w w'.
Proof.
  intros Hstate Hhead Hchanges Hadded Hmodified.
  pose proof (sanitizeMeta_only_logged (job_meta job) w) as Hl.
  destruct (sanitizeMeta_reserved (job_meta job) w) as (sm & w1 & E & _).
  rewrite E in Hl. cbn [snd] in Hl.
  unfold process. rewrite (bind_ok _ _ _ _ _ E).
  assert (Es : getRepoState env (job_repoUrl job) w1 = (Ok state, w1)).
  { unfold getRepoState, bind, get_world.
    destruct Hl as (_ & _ & _ & -> & _). rewrite Hstate. reflexivity. }
  rewrite (bind_ok _ _ _ _ _ Es).
  unfold bind at 1. unfold lift at 1. rewrite Hhead.
  unfold bind at 1. unfold lift at 1. rewrite Hchanges.
  rewrite Hadded, Hmodified. cbn. exists w1. split; [reflexivity|exact Hl].
Qed.

End Deletions.

(** C1 at the failing job: repository [demo] was ingested at commit [c1]
    with a chunk of [src/b.ts] in the collection; at HEAD [c2] the diff
    deletes [src/b.ts] and adds [src/c.ts].  The job completes and commits
    [c2]; its only delete call is [collection.delete({ ids: ['src/b.ts'] })],
    and the vector with [parentId = 'src/b.ts'] and [repoId = 'demo'] is
    still in the collection afterwards. *)
Theorem deleted_file_vectors_remain :
  let env := Sample.env (mkChanges ["src/c.ts"] [] ["src/b.ts"] []) in
  let run := process env Sample.job Sample.world in
  fst run = Ok None /\
  calls (snd run)
    = [ ChromaGetCollection; ChromaDeleteIds ["src/b.ts"]; BlobSave "src/c.ts";
        OpenAIEmbeddingsCreate [of_string "function c() {}"];
        ChromaUpsert ["src/c.ts:c:function_declaration:L1"];
        RepoStateSave "01JDEMO" (Some "c2") ] /\
  List.filter (fun it => bool_decide
                 (it_metadata it !! "parentId" = Some (MStr "src/b.ts") /\
                  it_metadata it !! "repoId" = Some (MStr "demo")))
              (collection_items (snd run))
    = [Sample.item_b].
Proof. vm_compute. repeat split. Qed.

(** C2 at the failing job: the diff of [c1..c2] only deletes [src/b.ts].
    The job answers "No changes detected" after making no call at all: the
    vectors of [src/b.ts] stay in the collection and [lastProcessedCommit]
    stays [c1]. *)
Theorem no_changes_return_skips_deletions :
  let env := Sample.env (mkChanges [] [] ["src/b.ts"] []) in
  let run := process env Sample.job Sample.world in
  fst run = Ok (Some "No changes detected") /\
  calls (snd run) = [] /\
  collection_items (snd run) = [Sample.item_a; Sample.item_b] /\
  map state_lastProcessedCommit (repo_states (snd run)) = [Some "c1"] /\
  git_getCurrentCommit env "/data/repos/01JDEMO" = Ok "c2".
Proof.
  cbv zeta.
  destruct (process_short_circuit
              (Sample.env (mkChanges [] [] ["src/b.ts"] [])) Sample.job Sample.world
              Sample.state_demo "c2" (mkChanges [] [] ["src/b.ts"] [])
              eq_refl eq_refl eq_refl eq_refl eq_refl)
    as (w' & Hr & Hch & _ & _ & Hs & Hc).
  rewrite Hr. cbn [fst snd]. unfold collection_items. rewrite Hch, Hs, Hc.
  repeat split.
Qed.

Lemma search_k_normalized_witness :
  let env := Sample.env Sample.no_changes in
  let request k := mkRequest (of_string "function") (Some (Finite (Z2Qc k))) None in
  let F : option Metadata := Some {[ "repoId" := MStr "demo" ]} in
  (exists qv w1,
     embedDocuments env (Some [Some (of_string "function")]) Sample.world
     = (Ok [qv], w1) /\
     search_with env ParentMode "demo" (request 1%Z) Sample.world
     = retrieve env qv 1%Z F w1 /\
     search_with env ChunkMode "demo" (request 100%Z) Sample.world
     = retrieveChunks env qv 100%Z F w1 /\
     search_with env ChunkMode "demo" (request 250%Z) Sample.world
     = retrieveChunks env qv 100%Z F w1) /\
  (exists results,
     fst (search_with env ParentMode "demo" (request 1%Z) Sample.world) = Ok results /\
     (length results <= 1)%nat) /\
  (exists results,
     fst (search_with env ChunkMode "demo" (request 1%Z) Sample.world) = Ok results /\
     (length results <= 1)%nat).
Proof.
  cbv zeta. split; [|split].
  - pose proof (search_k_normalized (Sample.env Sample.no_changes) ParentMode "demo"
                  (mkRequest (of_string "function") (Some (Finite (Z2Qc 1))) None)
                  Sample.world) as H1.
    pose proof (search_k_normalized (Sample.env Sample.no_changes) ChunkMode "demo"
                  (mkRequest (of_string "function") (Some (Finite (Z2Qc 100))) None)
                  Sample.world) as H2.
    pose proof (search_k_normalized (Sample.env Sample.no_changes) ChunkMode "demo"
                  (mkRequest (of_string "function") (Some (Finite (Z2Qc 250))) None)
                  Sample.world) as H3.
    cbv zeta in H1, H2, H3.
    destruct H1 as (_ & _ & _ & _ & _ & _ & H1 & _).
    destruct H2 as (_ & _ & _ & _ & _ & _ & H2 & _).
    destruct H3 as (_ & _ & _ & _ & _ & _ & H3 & _).
    cbn [req_prompt] in H1, H2, H3.
    destruct (embedDocuments (Sample.env Sample.no_changes)
                (Some [Some (of_string "function")]) Sample.world)
      as [[[|qv others]|e] w1] eqn:E;
      [vm_compute in E; discriminate E| |vm_compute in E; discriminate E].
    assert (Ho : others = [])
      by (vm_compute in E; injection E as _ Ho _; symmetry; exact Ho).
    subst others. exists qv, w1. split; [reflexivity|].
    split; [exact (proj1 H1)|]. split; [exact (proj1 H2)|exact (proj1 H3)].
  - destruct (search_k_normalized (Sample.env Sample.no_changes) ParentMode "demo"
                (mkRequest (of_string "function") (Some (Finite (Z2Qc 1))) None)
                Sample.world)
      as (_ & _ & _ & _ & _ & _ & _ & new & Hcalls & _ & Hres).
    destruct (fst (search_with (Sample.env Sample.no_changes) ParentMode "demo"
                     (mkRequest (of_string "function") (Some (Finite (Z2Qc 1))) None)
                     Sample.world)) as [results|e] eqn:E; [|vm_compute in E; discriminate].
    exists results. split; [reflexivity|].
    destruct (Hres results eq_refl) as [Hlen|Hnone].
    + (change (NoDup ["src/a.ts"; "src/b.ts"]);
      apply NoDup_cons; split; [|apply NoDup_singleton];
      intros H%list_elem_of_singleton; discriminate H).
    + exact Hlen.
    + exfalso. cbn [app Sample.world calls] in Hcalls. rewrite <- Hcalls in Hnone.
      assert (Hin : In (BlobFindByIdIn ["src/a.ts"])
                       (calls (snd (search_with (Sample.env Sample.no_changes) ParentMode
                          "demo" (mkRequest (of_string "function")
                                            (Some (Finite (Z2Qc 1))) None)
                          Sample.world))))
        by (vm_compute; do 3 right; left; reflexivity).
      apply list_elem_of_In in Hin.
      exact (proj1 (Forall_forall _ _) Hnone _ Hin _ eq_refl).
  - destruct (search_k_normalized (Sample.env Sample.no_changes) ChunkMode "demo"
                (mkRequest (of_string "function") (Some (Finite (Z2Qc 1))) None)
                Sample.world)
      as (_ & _ & _ & _ & _ & _ & _ & new & _ & _ & Hres).
    destruct (fst (search_with (Sample.env Sample.no_changes) ChunkMode "demo"
                     (mkRequest (of_string "function") (Some (Finite (Z2Qc 1))) None)
                     Sample.world)) as [results|e] eqn:E; [|vm_compute in E; discriminate].
    exists results. split; [reflexivity|]. exact (Hres results eq_refl).
Defined.

(** * Further properties of the services *)

(** ** Batches of [upsert] (VectorStoreService) *)

Section Slices.

Context {A B : Type}.

Lemma slices_fuel_concat (fuel n : nat) (l : list A) :
  (0 < n)%nat -> (length l <= fuel)%nat -> concat (slices_fuel fuel n l) = l.
Proof.
  revert l. induction fuel as [|fuel IH]; intros l Hn Hl.
  - destruct l; [reflexivity | cbn in Hl; lia].
  - destruct l as [|x l]; [reflexivity|].
    cbn [slices_fuel concat]. rewrite IH; [apply firstn_skipn | exact Hn |].
    rewrite length_skipn. cbn [length] in *. lia.
Qed.

Lemma slices_fuel_bound (fuel n : nat) (l : list A) :
  (0 < n)%nat ->
  Forall (fun batch => (0 < length batch <= n)%nat) (slices_fuel fuel n l).
Proof.
  revert l. induction fuel as [|fuel IH]; intros l Hn; [constructor|].
  destruct l as [|x l]; [constructor|].
  cbn [slices_fuel]. constructor; [|apply IH, Hn].
  rewrite length_firstn. cbn [length]. lia.
Qed.

Lemma slices_fuel_map (f : A -> B) (fuel n : nat) (l : list A) :
  slices_fuel fuel n (map f l) = map (map f) (slices_fuel fuel n l).
Proof.
  revert l. induction fuel as [|fuel IH]; intros l; [reflexivity|].
  destruct l as [|x l]; [reflexivity|].
  cbn [slices_fuel map]. rewrite <- IH.
  change (f x :: map f l) with (map f (x :: l)).
  rewrite firstn_map, skipn_map. reflexivity.
Qed.

Lemma slices_concat (n : positive) (l : list A) : concat (slices n l) = l.
Proof. apply slices_fuel_concat; lia. Qed.

Lemma slices_map (f : A -> B) (n : positive) (l : list A) :
  slices n (map f l) = map (map f) (slices n l).
Proof. unfold slices. rewrite length_map. apply slices_fuel_map. Qed.

End Slices.

Section UpsertItems.


Lemma chroma_upsert_item_in (it : ChromaItem) (items : list ChromaItem) :
  it ∈ chroma_upsert_item it items.
Proof.
  induction items as [|y r IH]; cbn; [apply list_elem_of_here|].
  destruct (String.eqb (it_id y) (it_id it));
    [apply list_elem_of_here|apply list_elem_of_further, IH].
Qed.

Lemma chroma_upsert_item_keeps (x it : ChromaItem) (items : list ChromaItem) :
  x ∈ items -> it_id x <> it_id it -> x ∈ chroma_upsert_item it items.
Proof.
  intros Hx Hne. induction items as [|y r IH]; cbn; [inversion Hx|].
  apply elem_of_cons in Hx as [->|Hx].
  - destruct (String.eqb_spec (it_id y) (it_id it)); [contradiction|].
    apply list_elem_of_here.
  - destruct (String.eqb (it_id y) (it_id it)); apply list_elem_of_further;
      [exact Hx|apply IH, Hx].
Qed.

Lemma chroma_upsert_item_ids (it : ChromaItem) (items : list ChromaItem) :
  map it_id (chroma_upsert_item it items) = Set_add (map it_id items) (it_id it).
Proof.
  unfold Set_add. induction items as [|y r IH]; cbn; [reflexivity|].
  destruct (String.eqb_spec (it_id y) (it_id it)) as [E|E]; cbn.
  - rewrite bool_decide_eq_true_2; [rewrite E; reflexivity|].
    rewrite E. apply list_elem_of_here.
  - rewrite IH. case_bool_decide as H1; case_bool_decide as H2;
      try reflexivity; exfalso.
    + apply H2, list_elem_of_further, H1.
    + apply elem_of_cons in H2 as [H2|H2]; [congruence|contradiction].
Qed.

Lemma chroma_upsert_item_same (it : ChromaItem) (items : list ChromaItem) :
  NoDup (map it_id items) -> it ∈ items -> chroma_upsert_item it items = items.
Proof.
  induction items as [|y r IH]; intros Hnd Hin; [inversion Hin|].
  cbn in Hnd |- *. apply NoDup_cons in Hnd as [Hy Hr].
  destruct (String.eqb_spec (it_id y) (it_id it)) as [E|E].
  - apply elem_of_cons in Hin as [->|Hin]; [reflexivity|].
    exfalso. apply Hy. rewrite E. apply list_elem_of_fmap.
    exists it. split; [reflexivity|exact Hin].
  - apply elem_of_cons in Hin as [->|Hin]; [congruence|].
    rewrite (IH Hr Hin). reflexivity.
Qed.

Lemma upsert_items_ids (batch items : list ChromaItem) :
  map it_id (upsert_items batch items)
  = fold_left Set_add (map it_id batch) (map it_id items).
Proof.
  unfold upsert_items. revert items.
  induction batch as [|it batch IH]; intros items; [reflexivity|].
  cbn [fold_left map]. rewrite IH, chroma_upsert_item_ids. reflexivity.
Qed.

Lemma upsert_items_NoDup (batch items : list ChromaItem) :
  NoDup (map it_id items) -> NoDup (map it_id (upsert_items batch items)).
Proof. intros H. rewrite upsert_items_ids. apply fold_Set_add_NoDup, H. Qed.


Lemma upsert_items_keeps (x : ChromaItem) (batch items : list ChromaItem) :
  x ∈ items -> it_id x ∉ map it_id batch -> x ∈ upsert_items batch items.
Proof.
  unfold upsert_items. revert items.
  induction batch as [|it batch IH]; intros items Hx Hid; cbn [fold_left]; [exact Hx|].
  cbn [map] in Hid. apply not_elem_of_cons in Hid as [Hne Hid].
  apply IH; [|exact Hid]. apply chroma_upsert_item_keeps; assumption.
Qed.

Lemma upsert_items_stores (x : ChromaItem) (batch items : list ChromaItem) :
  NoDup (map it_id batch) -> x ∈ batch -> x ∈ upsert_items batch items.
Proof.
  unfold upsert_items. revert items.
  induction batch as [|it batch IH]; intros items Hnd Hx; [inversion Hx|].
  cbn [fold_left]. cbn [map] in Hnd. apply NoDup_cons in Hnd as [Hit Hnd].
  apply elem_of_cons in Hx as [->|Hx].
  - apply (upsert_items_keeps it batch); [apply chroma_upsert_item_in|exact Hit].
  - apply IH; assumption.
Qed.

Lemma upsert_items_same (batch items : list ChromaItem) :
  NoDup (map it_id items) -> Forall (fun it => it ∈ items) batch ->
  upsert_items batch items = items.
Proof.
  unfold upsert_items. intros Hnd.
  induction 1 as [|it batch Hit _ IH]; [reflexivity|].
  cbn [fold_left]. rewrite (chroma_upsert_item_same it items Hnd Hit). exact IH.
Qed.

End UpsertItems.

Section UpsertRun.

Variable env : Env.

(** [collection.upsert] and the loop of [upsert] leave the relational
    tables alone, whether Chroma accepts the batches or not. *)
Lemma collection_upsert_tables (batch : list ChromaItem) (w : World) :
  content_blobs (snd (collection_upsert env batch w)) = content_blobs w /\
  repo_states (snd (collection_upsert env batch w)) = repo_states w.
Proof.
  unfold collection_upsert. unfold_monad. cbn [fst snd].
  destruct (chroma_validate env batch) as [[]|e]; split; reflexivity.
Qed.

Lemma for_each_collection_upsert_tables (batches : list (list VectorRecord)) (w : World) :
  let w' := snd (for_each batches
                   (fun batch => collection_upsert env (map record_item batch)) w) in
  content_blobs w' = content_blobs w /\ repo_states w' = repo_states w.
Proof.
  cbv zeta. revert w. induction batches as [|batch rest IH]; intros w.
  - split; reflexivity.
  - cbn [for_each]. unfold bind.
    destruct (collection_upsert_tables (map record_item batch) w) as [Hb Hs].
    destruct (collection_upsert env (map record_item batch) w) as [[[]|e] w1];
      cbn [fst snd] in Hb, Hs |- *.
    + destruct (IH w1) as [Hb' Hs']. split; congruence.
    + split; assumption.
Qed.

(** The loop of [upsert] over the batches, when Chroma accepts them: one
    [collection.upsert] per batch, in order. *)
Lemma for_each_collection_upsert (batches : list (list VectorRecord)) (w : World) :
  forallb (fun batch => accepts env (map record_item batch)) batches = true ->
  exists w',
    for_each batches (fun batch => collection_upsert env (map record_item batch)) w
    = (Ok tt, w') /\
    collection_items w'
    = upsert_items (map record_item (concat batches)) (collection_items w) /\
    collection_cached w' = collection_cached w /\
    content_blobs w' = content_blobs w /\
    repo_states w' = repo_states w /\
    calls w' = calls w ++ map (fun batch => ChromaUpsert (map vr_id batch)) batches /\
    logs w' = logs w.
Proof.
  revert w. induction batches as [|batch rest IH]; intros w Hacc.
  - exists w. cbn. rewrite app_nil_r. repeat split.
  - cbn [forallb] in Hacc. apply andb_true_iff in Hacc as [Hbatch Hrest].
    unfold accepts in Hbatch.
    destruct (chroma_validate env (map record_item batch)) as [[]|e] eqn:Ev;
      [|discriminate].
    cbn [for_each]. unfold collection_upsert at 1. unfold_monad. rewrite Ev.
    cbn [fst snd].
    match goal with
    | |- context [for_each rest ?body ?w1] =>
        destruct (IH w1 Hrest) as (w' & E & Hi & Hc & Hb & Hs & Hcalls & Hl)
    end.
    exists w'. split; [exact E|].
    cbn in Hi, Hc, Hb, Hs, Hcalls, Hl.
    rewrite Hi, Hc, Hb, Hs, Hcalls, Hl. cbn [concat map].
    rewrite map_app. unfold upsert_items. rewrite fold_left_app.
    rewrite <- app_assoc. rewrite !map_map. repeat split.
Qed.

(** A run of [upsert] on records with pairwise distinct ids that Chroma
    accepts. *)
Lemma upsert_run (records : list VectorRecord) (w : World) :
  NoDup (map vr_id records) ->
  batches_accepted env records = true ->
  exists w' setup,
    upsert env records w = (Ok tt, w') /\
    collection_items w' = upsert_items (map record_item records) (collection_items w) /\
    content_blobs w' = content_blobs w /\
    repo_states w' = repo_states w /\
    calls w' = calls w ++ setup
               ++ map ChromaUpsert (slices (batchSize env) (map vr_id records)) /\
    Forall collection_setup setup /\
    logs w' = logs (snd (ensureCollection env w)).
Proof.
  intros Hnd Hacc.
  destruct (ensureCollection_frame env w)
    as (Hr & Hitems & Hblobs & Hstates & setup & Hcalls & Hsetup).
  destruct (ensureCollection env w) as [r w1] eqn:E.
  cbn [fst snd] in Hr, Hitems, Hblobs, Hstates, Hcalls. subst r.
  unfold upsert. rewrite (bind_ok _ _ _ _ _ E).
  unfold validateUniqueIds.
  apply Set_from_length_NoDup in Hnd. rewrite <- Hnd, Nat.eqb_refl. cbn [negb].
  unfold bind at 1, ret at 1.
  destruct (for_each_collection_upsert (slices (batchSize env) records) w1 Hacc)
    as (w' & E' & Hi & _ & Hb & Hs & Hc & Hl).
  exists w', setup. unfold record_item in E'. split; [exact E'|].
  rewrite Hi, Hb, Hs, Hc, Hl, slices_concat, Hitems, Hblobs, Hstates, Hcalls.
  rewrite slices_map, map_map, <- app_assoc. repeat split. exact Hsetup.
Qed.

End UpsertRun.



(** X2.  The batches of [upsert]: for records with distinct ids, when
    Chroma accepts each batch, the calls made are, after the collection
    set-up, exactly one [collection.upsert] per slice of [batchSize]
    records, in order; the slices are not empty, hold at most [batchSize]
    ids each, and together are the ids of the records in their order. *)
Theorem upsert_batches env (records : list VectorRecord) (w : World) :
  NoDup (map vr_id records) ->
  batches_accepted env records = true ->
  let batches := slices (batchSize env) (map vr_id records) in
  (exists setup,
     calls (snd (upsert env records w)) = calls w ++ setup ++ map ChromaUpsert batches /\
     Forall collection_setup setup) /\
  concat batches = map vr_id records /\
  Forall (fun batch => (0 < length batch <= Pos.to_nat (batchSize env))%nat) batches.
Proof.
  intros Hnd Hacc. cbv zeta.
  destruct (upsert_run env records w Hnd Hacc)
    as (w' & setup & E & _ & _ & _ & Hc & Hs & _).
  rewrite E. cbn [snd]. split; [|split].
  - exists setup. split; [exact Hc|exact Hs].
  - apply slices_concat.
  - apply slices_fuel_bound. lia.
Qed.

Lemma upsert_batches_witness :
  let env := Sample.env Sample.no_changes in
  let records :=
    [ mkVectorRecord "src/a.ts:a:function_declaration:L1" None None [Z2Qc 8]
                     (Sample.chunk_meta "src/a.ts" "src/a.ts:a:function_declaration:L1");
      mkVectorRecord "src/c.ts:c:function_declaration:L1" None None [Z2Qc 5]
                     (Sample.chunk_meta "src/c.ts" "src/c.ts:c:function_declaration:L1") ] in
  let batches := slices (batchSize env) (map vr_id records) in
  (exists setup,
     calls (snd (upsert env records Sample.world))
     = calls Sample.world ++ setup ++ map ChromaUpsert batches /\
     Forall collection_setup setup) /\
  concat batches = map vr_id records /\
  Forall (fun batch => (0 < length batch <= Pos.to_nat (batchSize env))%nat) batches.
Proof.
  cbv zeta.
  apply (upsert_batches (Sample.env Sample.no_changes)
           [ mkVectorRecord "src/a.ts:a:function_declaration:L1" None None [Z2Qc 8]
                            (Sample.chunk_meta "src/a.ts" "src/a.ts:a:function_declaration:L1");
             mkVectorRecord "src/c.ts:c:function_declaration:L1" None None [Z2Qc 5]
                            (Sample.chunk_meta "src/c.ts" "src/c.ts:c:function_declaration:L1") ]
           Sample.world).
  - apply (bool_decide_unpack _). vm_compute. exact I.
  - reflexivity.
Defined.

(** X3.  [upsert] is idempotent: when Chroma accepts the batches, sending
    the same records (distinct ids) a second time succeeds and leaves the
    collection exactly as the first call left it, item by item and in the
    same order. *)
Theorem upsert_idempotent env (records : list VectorRecord) (w : World) :
  NoDup (map vr_id records) ->
  batches_accepted env records = true ->
  NoDup (map it_id (collection_items w)) ->
  let w1 := snd (upsert env records w) in
  fst (upsert env records w1) = Ok tt /\
  collection_items (snd (upsert env records w1)) = collection_items w1.
Proof.
  intros Hnd Hacc Hcoll. cbv zeta.
  destruct (upsert_run env records w Hnd Hacc) as (w1 & s1 & E1 & Hi1 & _).
  rewrite E1. cbn [snd].
  destruct (upsert_run env records w1 Hnd Hacc) as (w2 & s2 & E2 & Hi2 & _).
  rewrite E2. cbn [fst snd]. split; [reflexivity|].
  rewrite Hi2. apply upsert_items_same.
  - rewrite Hi1. apply upsert_items_NoDup, Hcoll.
  - apply Forall_forall. intros it Hit. rewrite Hi1.
    apply upsert_items_stores.
    + rewrite map_map. exact Hnd.
    + exact Hit.
Qed.

Lemma upsert_idempotent_witness :
  let env := Sample.env Sample.no_changes in
  let records :=
    [ mkVectorRecord "src/a.ts:a:function_declaration:L1" None None [Z2Qc 8]
                     (Sample.chunk_meta "src/a.ts" "src/a.ts:a:function_declaration:L1");
      mkVectorRecord "src/c.ts:c:function_declaration:L1" None None [Z2Qc 5]
                     (Sample.chunk_meta "src/c.ts" "src/c.ts:c:function_declaration:L1") ] in
  let w1 := snd (upsert env records Sample.world) in
  fst (upsert env records w1) = Ok tt /\
  collection_items (snd (upsert env records w1)) = collection_items w1.
Proof.
  cbv zeta.
  apply (upsert_idempotent (Sample.env Sample.no_changes)
           [ mkVectorRecord "src/a.ts:a:function_declaration:L1" None None [Z2Qc 8]
                            (Sample.chunk_meta "src/a.ts" "src/a.ts:a:function_declaration:L1");
             mkVectorRecord "src/c.ts:c:function_declaration:L1" None None [Z2Qc 5]
                            (Sample.chunk_meta "src/c.ts" "src/c.ts:c:function_declaration:L1") ]
           Sample.world).
  - apply (bool_decide_unpack _). vm_compute. exact I.
  - reflexivity.
  - apply (bool_decide_unpack _). vm_compute. exact I.
Defined.

(** ** Deletions and reads of the vector store *)

Section VectorStoreReads.

Variable env : Env.

Lemma fields_match_map (filter : Metadata) (it : ChromaItem) :
  fields_match (map_to_list filter) it = true <->
  forall key value, filter !! key = Some value -> it_metadata it !! key = Some value.
Proof.
  unfold fields_match. rewrite forallb_forall. split.
  - intros H key value Hkv. apply elem_of_map_to_list, list_elem_of_In in Hkv.
    apply H in Hkv. apply bool_decide_eq_true in Hkv. exact Hkv.
  - intros H [key value] Hin. apply bool_decide_eq_true, H.
    apply elem_of_map_to_list, list_elem_of_In, Hin.
Qed.

Lemma fields_mismatch_map (filter : Metadata) (it : ChromaItem) :
  fields_match (map_to_list filter) it = false <->
  exists key value, filter !! key = Some value /\ it_metadata it !! key <> Some value.
Proof.
  split.
  - intros H. unfold fields_match in H.
    destruct (existsb (fun '(k, v) => negb (bool_decide (it_metadata it !! k = Some v)))
                      (map_to_list filter)) eqn:Ex.
    + apply existsb_exists in Ex as ([key value] & Hin & Hne).
      exists key, value. split.
      * apply elem_of_map_to_list, list_elem_of_In, Hin.
      * apply negb_true_iff, bool_decide_eq_false in Hne. exact Hne.
    + exfalso. revert H Ex. generalize (map_to_list filter) as l.
      induction l as [|[k v] l IH]; cbn; [discriminate|].
      destruct (bool_decide (it_metadata it !! k = Some v)); cbn; [exact IH|discriminate].
  - intros (key & value & Hkv & Hne).
    destruct (fields_match (map_to_list filter) it) eqn:E; [|reflexivity].
    exfalso. apply Hne. exact (proj1 (fields_match_map filter it) E key value Hkv).
Qed.



(** A run of [deleteDocuments]. *)
Lemma deleteDocuments_run (ids : list string) (w : World) :
  exists w' setup,
    deleteDocuments env ids w = (Ok tt, w') /\
    collection_items w'
    = List.filter (fun it => negb (bool_decide (it_id it ∈ ids))) (collection_items w) /\
    content_blobs w' = content_blobs w /\
    repo_states w' = repo_states w /\
    calls w' = calls w ++ setup ++ match ids with
                                    | [] => []
                                    | _ => [ChromaDeleteIds ids]
                                    end /\
    Forall collection_setup setup.
Proof.
  destruct (ensureCollection_frame env w)
    as (Hr & Hitems & Hblobs & Hstates & setup & Hcalls & Hsetup).
  destruct (ensureCollection env w) as [r w1] eqn:E.
  cbn [fst snd] in Hr, Hitems, Hblobs, Hstates, Hcalls. subst r.
  unfold deleteDocuments. rewrite (bind_ok _ _ _ _ _ E).
  destruct ids as [|id ids].
  - exists w1, setup. cbn. rewrite app_nil_r.
    repeat split; try assumption.
    rewrite Hitems. symmetry. apply filter_all_true, forallb_forall.
    intros it _. apply negb_true_iff, bool_decide_eq_false. apply not_elem_of_nil.
  - cbn [length Nat.eqb]. unfold_monad. eexists _, setup.
    split; [reflexivity|]. cbn. unfold collection_items in *. cbn.
    rewrite Hitems, Hblobs, Hstates, Hcalls, <- app_assoc. repeat split. exact Hsetup.
Qed.

End VectorStoreReads.

(** X4.  [deleteDocuments] returns normally and removes from the collection
    exactly the items whose id is listed: what is left are the earlier items
    with another id.  It asks Chroma for one deletion by ids, or for none
    when the list is empty, and never touches the content blobs. *)
Theorem deleteDocuments_removes_listed_ids env (ids : list string) (w : World) :
  let w' := snd (deleteDocuments env ids w) in
  fst (deleteDocuments env ids w) = Ok tt /\
  (forall item, item ∈ collection_items w' <->
                item ∈ collection_items w /\ it_id item ∉ ids) /\
  content_blobs w' = content_blobs w /\
  exists setup,
    calls w' = calls w ++ setup ++ match ids with
                                    | [] => []
                                    | _ => [ChromaDeleteIds ids]
                                    end /\
    Forall collection_setup setup.
Proof.
  cbv zeta.
  destruct (deleteDocuments_run env ids w) as (w' & setup & E & Hi & Hb & _ & Hc & Hs).
  rewrite E. cbn [fst snd]. split; [reflexivity|]. split; [|split; [exact Hb|]].
  - intros item. rewrite Hi, list_elem_of_In, filter_In, <- list_elem_of_In.
    rewrite negb_true_iff, bool_decide_eq_false. reflexivity.
  - exists setup. split; assumption.
Qed.

(** X5.  [deleteByFilter] hands its filter to Chroma as it is.  With a
    filter of exactly one key it returns normally and removes exactly the
    items that carry that key with the filter's value: an item is in the
    collection afterwards if and only if it was there before and differs
    from the filter at the key.  With two keys or more, Chroma refuses the
    clause (the filter is not wrapped in [$and]): the error is logged and
    thrown again, and no item is removed.  In both cases one
    [delete({ where })] is sent, and content blobs stay. *)
Theorem deleteByFilter_removes_matching env (filter : Metadata) (w : World) :
  let run := deleteByFilter env filter w in
  let w' := snd run in
  (size filter = 1%nat ->
   fst run = Ok tt /\
   forall item, item ∈ collection_items w' <->
                item ∈ collection_items w /\
                exists key value, filter !! key = Some value /\
                                  it_metadata item !! key <> Some value) /\
  ((1 < size filter)%nat ->
   fst run = Throw (chroma_where_error env filter) /\
   collection_items w' = collection_items w /\
   (Error, "Failed to delete documents by filter: "
           +:+ err_message (chroma_where_error env filter)) ∈ logs w') /\
  content_blobs w' = content_blobs w /\
  (filter <> ∅ ->
   exists setup, calls w' = calls w ++ setup ++ [ChromaDeleteWhere filter] /\
                 Forall collection_setup setup).
Proof.
  cbv zeta.
  destruct (ensureCollection_frame env w)
    as (Hr & Hitems & Hblobs & _ & setup & Hcalls & Hsetup).
  destruct (ensureCollection env w) as [r w1] eqn:E.
  cbn [fst snd] in Hr, Hitems, Hblobs, Hcalls. subst r.
  unfold deleteByFilter. rewrite (bind_ok _ _ _ _ _ E).
  destruct (size filter) as [|[|n]] eqn:Es.
  - cbn [Nat.eqb]. split; [discriminate|]. split; [lia|]. split.
    + unfold_monad. cbn. exact Hblobs.
    + intros Hne. exfalso. apply Hne, map_size_empty_iff, Es.
  - cbn [Nat.eqb Nat.ltb Nat.leb]. unfold_monad. cbn.
    unfold collection_items in *. cbn.
    rewrite Hitems, Hblobs, Hcalls, <- app_assoc.
    split; [|split; [lia|split; [reflexivity|]]].
    + intros _. split; [reflexivity|].
      intros item. rewrite list_elem_of_In, filter_In, <- list_elem_of_In.
      rewrite negb_true_iff, fields_mismatch_map. reflexivity.
    + intros _. exists setup. split; [reflexivity|exact Hsetup].
  - cbn [Nat.eqb Nat.ltb Nat.leb]. unfold_monad. cbn.
    unfold collection_items in *. cbn.
    rewrite Hitems, Hblobs, Hcalls, <- app_assoc.
    split; [discriminate|]. split; [|split; [reflexivity|]].
    + intros _. split; [reflexivity|]. split; [reflexivity|].
      apply elem_of_app. right. apply list_elem_of_here.
    + intros _. exists setup. split; [reflexivity|exact Hsetup].
Qed.

Lemma deleteByFilter_removes_matching_witness :
  let env := Sample.env Sample.no_changes in
  let one : Metadata := {[ "parentId" := MStr "src/b.ts" ]} in
  let two : Metadata := {[ "repoId" := MStr "demo"; "parentId" := MStr "src/b.ts" ]} in
  (fst (deleteByFilter env one Sample.world) = Ok tt /\
   forall item, item ∈ collection_items (snd (deleteByFilter env one Sample.world)) <->
                item ∈ collection_items Sample.world /\
                exists key value, one !! key = Some value /\
                                  it_metadata item !! key <> Some value) /\
  (fst (deleteByFilter env two Sample.world) = Throw (chroma_where_error env two) /\
   collection_items (snd (deleteByFilter env two Sample.world))
   = collection_items Sample.world).
Proof.
  cbv zeta. split.
  - apply (deleteByFilter_removes_matching (Sample.env Sample.no_changes)
             {[ "parentId" := MStr "src/b.ts" ]} Sample.world).
    apply map_size_singleton.
  - destruct (deleteByFilter_removes_matching (Sample.env Sample.no_changes)
                {[ "repoId" := MStr "demo"; "parentId" := MStr "src/b.ts" ]}
                Sample.world) as (_ & Hmany & _).
    destruct Hmany as (Hthrow & Hitems & _).
    + apply Nat.ltb_lt. vm_compute. reflexivity.
    + split; [exact Hthrow|exact Hitems].
Defined.

(** X6.  [ensureCollection] is idempotent: after one call the handle is
    cached, and a further call returns without any request to Chroma and
    without changing anything.  The first call keeps the items of an
    existing collection and creates a collection only when none exists. *)
Theorem ensureCollection_idempotent env (w : World) :
  let w1 := snd (ensureCollection env w) in
  ensureCollection env w1 = (Ok tt, w1) /\
  collection_cached w1 = true /\
  collection_items w1 = collection_items w /\
  (collection_cached w = false -> is_Some (chroma w1)) /\
  (ChromaCreateCollection ∈ calls w1 -> ChromaCreateCollection ∈ calls w \/ chroma w = None).
Proof.
  cbv zeta. unfold ensureCollection. unfold_monad.
  destruct w as [ch cached blobs states cs ls]. cbn.
  destruct cached; cbn.
  - repeat split; [discriminate|]. intros H. left. exact H.
  - destruct ch as [items|]; cbn.
    + repeat split; [eexists; reflexivity|]. intros H.
      apply elem_of_app in H as [H|H]; [left; exact H|].
      apply list_elem_of_singleton in H. discriminate.
    + repeat split; [eexists; reflexivity|]. intros _. right. reflexivity.
Qed.



(** X8.  [getChunksByFilePath] does not restrict its answer to the
    repository it is given: it returns one record (id, document, vector,
    metadata, no score) for every item of the collection whose [filePath]
    metadata is the path asked for, whatever the item's [repoId], and
    nothing else. *)
Theorem getChunksByFilePath_any_repository env (repoId filePath : string) (w : World) :
  exists records,
    fst (getChunksByFilePath env repoId filePath w) = Ok records /\
    forall record,
      record ∈ records <->
      exists item, item ∈ collection_items w /\
                   it_metadata item !! "filePath" = Some (MStr filePath) /\
                   record = mkVectorRecord (it_id item) None (Some (it_document item))
                                           (it_embedding item) (it_metadata item).
Proof.
  destruct (ensureCollection_frame env w) as (Hr & Hitems & _).
  unfold getChunksByFilePath.
  destruct (ensureCollection env w) as [r w1] eqn:E.
  cbn [fst snd] in Hr, Hitems. subst r.
  rewrite (bind_ok _ _ _ _ _ E). unfold bind, get_world, ret. cbn [fst].
  eexists. split; [reflexivity|]. intros record. rewrite Hitems.
  rewrite list_elem_of_fmap. split.
  - intros (item & -> & Hin). exists item.
    apply list_elem_of_In, filter_In in Hin as [Hin Hm].
    split; [apply list_elem_of_In, Hin|]. split; [|reflexivity].
    cbn [where_matches] in Hm. rewrite map_to_list_singleton in Hm.
    cbn in Hm. rewrite andb_true_r in Hm. apply bool_decide_eq_true in Hm. exact Hm.
  - intros (item & Hin & Hfp & ->). exists item. split; [reflexivity|].
    apply list_elem_of_In, filter_In. split; [apply list_elem_of_In, Hin|].
    cbn [where_matches]. rewrite map_to_list_singleton. cbn.
    rewrite andb_true_r. apply bool_decide_eq_true. exact Hfp.
Qed.

(** ** Parent blobs: what is saved is what is read (ContentStoreService) *)

Section ContentStore.

Lemma save_blob_in (row : ContentBlobEntity) (table : list ContentBlobEntity) :
  row ∈ save_blob row table.
Proof.
  induction table as [|r t IH]; cbn; [apply list_elem_of_here|].
  destruct (String.eqb (blob_id r) (blob_id row));
    [apply list_elem_of_here|apply list_elem_of_further, IH].
Qed.

Lemma save_blob_keeps (row b : ContentBlobEntity) (table : list ContentBlobEntity) :
  b ∈ table -> blob_id b <> blob_id row -> b ∈ save_blob row table.
Proof.
  intros Hb Hne. induction table as [|r t IH]; cbn; [inversion Hb|].
  apply elem_of_cons in Hb as [->|Hb].
  - destruct (String.eqb_spec (blob_id r) (blob_id row)); [contradiction|].
    apply list_elem_of_here.
  - destruct (String.eqb (blob_id r) (blob_id row)); apply list_elem_of_further;
      [exact Hb|apply IH, Hb].
Qed.

Lemma save_blob_ids (row : ContentBlobEntity) (table : list ContentBlobEntity) (id : string) :
  id ∈ map blob_id table -> id ∈ map blob_id (save_blob row table).
Proof.
  intros (b & -> & Hb)%list_elem_of_fmap.
  destruct (String.eqb_spec (blob_id b) (blob_id row)) as [E|E].
  - rewrite E. apply list_elem_of_fmap. exists row. split; [reflexivity|apply save_blob_in].
  - apply list_elem_of_fmap. exists b. split; [reflexivity|apply save_blob_keeps; assumption].
Qed.




(** A run of [saveParent]. *)
Lemma saveParent_run (id : string) (content : jsstring) (repoId : option string)
    (metadata : option Metadata) (w : World) :
  exists w',
    saveParent id content repoId metadata w = (Ok tt, w') /\
    content_blobs w'
    = save_blob (mkBlob id (Some (default "no-repo" repoId))
                        (sanitizeContent_text content) (default ∅ metadata))
                (content_blobs w) /\
    chroma w' = chroma w /\ collection_cached w' = collection_cached w /\
    repo_states w' = repo_states w /\
    calls w' = calls w ++ [BlobSave id].
Proof.
  unfold saveParent, sanitizeContent.
  destruct (existsb (N.eqb 0) content); unfold_monad; cbn;
    eexists; repeat split.
Qed.

End ContentStore.



(** ** Inputs of the embedding endpoint (EmbeddingsService) *)

Section EmbeddingBounds.

Variable env : Env.

Lemma estimateTokens_le (text : jsstring) (maxTokens : nat) :
  (estimateTokens text <= maxTokens)%nat <-> (length text <= maxTokens * 4)%nat.
Proof.
  unfold estimateTokens.
  pose proof (Nat.div_mod_eq (length text + 3) 4) as D.
  pose proof (Nat.mod_upper_bound (length text + 3) 4) as U. lia.
Qed.

Lemma substring_prefix (n : nat) (text : jsstring) :
  substring 0 n text = firstn n text.
Proof.
  unfold substring. cbn [Nat.min skipn]. rewrite Nat.sub_0_r.
  destruct (Nat.le_ge_cases n (length text)) as [H|H].
  - rewrite Nat.min_l, Nat.max_r by lia. reflexivity.
  - rewrite Nat.min_r, Nat.max_r by lia.
    rewrite (firstn_all2 text) by lia. rewrite firstn_all2 by lia. reflexivity.
Qed.

Lemma replace_from_no_line_feed (s : jsstring) : LF ∉ replace_from s.
Proof.
  assert (Hrep : forall m, LF ∉ replacement m).
  { intros [|c [|d m]]; cbn; try apply not_elem_of_nil.
    destruct (c =? LF); [|apply not_elem_of_nil].
    intros H%list_elem_of_singleton. discriminate. }
  induction s as [|c r IH]; cbn [replace_from]; [apply not_elem_of_nil|].
  destruct (is_whitespace c && forallb is_whitespace r); [apply Hrep|].
  destruct (N.eqb_spec c LF) as [E|E].
  - intros H%elem_of_app. destruct H as [H|H]; [exact (Hrep _ H)|exact (IH H)].
  - intros H%elem_of_cons. destruct H as [H|H]; [congruence|exact (IH H)].
Qed.

Lemma replace_trim_newlines_no_line_feed (text : jsstring) :
  LF ∉ replace_trim_newlines text.
Proof.
  unfold replace_trim_newlines.
  destruct (takeWhile is_whitespace text) as [|c lead]; [apply replace_from_no_line_feed|].
  intros H%elem_of_app. destruct H as [H|H]; [|exact (replace_from_no_line_feed _ H)].
  destruct lead as [|d lead]; cbn in H; [|inversion H].
  destruct (c =? LF); [|inversion H].
  apply list_elem_of_singleton in H. discriminate.
Qed.

Lemma truncate_bounds (text : jsstring) :
  (length (Spec.truncate text) <= MAX_TOKENS_PER_INPUT * 4)%nat /\
  (text <> [] -> Spec.truncate text <> []) /\
  (LF ∉ text -> LF ∉ Spec.truncate text).
Proof.
  unfold Spec.truncate.
  destruct (Nat.ltb_spec MAX_TOKENS_PER_INPUT (estimateTokens text)) as [H|H].
  - rewrite substring_prefix. split; [|split].
    + rewrite length_firstn. lia.
    + intros Hne. destruct text; [contradiction|]. discriminate.
    + intros Hlf Hin. apply Hlf. exact (subseteq_take _ _ _ Hin).
  - apply estimateTokens_le in H. split; [exact H|]. split; intros ?; assumption.
Qed.

Lemma kept_texts_facts (texts : list (option jsstring)) :
  (length (kept_texts texts) <= length texts)%nat /\
  Forall (fun t => t <> [] /\ LF ∉ t) (kept_texts texts).
Proof.
  unfold kept_texts. split; [apply length_omap_le|].
  apply Forall_forall. intros t Ht.
  apply list_elem_of_omap in Ht as ([text|] & _ & Hsome); [|discriminate].
  pose proof (replace_trim_newlines_no_line_feed text) as Hlf.
  destruct (replace_trim_newlines text) as [|c r]; [discriminate|].
  injection Hsome as <-. split; [discriminate|exact Hlf].
Qed.

End EmbeddingBounds.

(** X10.  [truncateToTokenLimit] returns a prefix of its input whose token
    estimate is within the limit; the input itself, without a warning, when
    the input's estimate already is.  It only writes to the logger. *)
Theorem truncateToTokenLimit_prefix (text : jsstring) (maxTokens : nat) (w : World) :
  exists out rest w',
    truncateToTokenLimit text maxTokens w = (Ok out, w') /\
    text = out ++ rest /\
    (estimateTokens out <= maxTokens)%nat /\
    (length out <= maxTokens * 4)%nat /\
    ((estimateTokens text <= maxTokens)%nat -> out = text /\ w' = w) /\
    only_logged w w'.
Proof.
  unfold truncateToTokenLimit.
  destruct (Nat.leb_spec (estimateTokens text) maxTokens) as [H|H].
  - exists text, [], w. rewrite app_nil_r. repeat split; try assumption.
    apply estimateTokens_le, H.
  - unfold_monad. rewrite substring_prefix.
    exists (firstn (maxTokens * 4) text), (skipn (maxTokens * 4) text). eexists.
    split; [reflexivity|]. split; [symmetry; apply firstn_skipn|].
    assert (Hlen : (length (firstn (maxTokens * 4) text) <= maxTokens * 4)%nat)
      by (rewrite length_firstn; lia).
    split; [apply estimateTokens_le, Hlen|]. split; [exact Hlen|].
    split; [lia|]. repeat split.
Qed.

(** X11.  What [embedDocuments] sends to the embedding endpoint: at most one
    request, and none with an empty input list.  The request holds no more
    texts than the call was given; every text in it is non-empty, has at
    most 32000 code units (8000 estimated tokens) and contains no line
    feed. *)
Theorem embedDocuments_request_bounds env (texts : option (list (option jsstring)))
    (w : World) :
  let w' := snd (embedDocuments env texts w) in
  calls w' = calls w \/
  exists input,
    calls w' = calls w ++ [OpenAIEmbeddingsCreate input] /\
    input <> [] /\
    (length input <= length (default [] texts))%nat /\
    Forall (fun t => (0 < length t <= MAX_TOKENS_PER_INPUT * 4)%nat /\ LF ∉ t) input.
Proof.
  cbv zeta. unfold embedDocuments.
  destruct texts as [[|t ts]|]; try (left; reflexivity).
  destruct (process_texts_run (t :: ts) 0 w) as (w1 & E & _ & _ & _ & _ & Hcalls).
  rewrite (bind_ok _ _ _ _ _ E).
  destruct (kept_texts_facts (t :: ts)) as [Hlen Hall].
  set (r := map Spec.truncate (kept_texts (t :: ts))) in *.
  destruct (length r =? 0)%nat eqn:Er.
  - left. cbn. exact Hcalls.
  - right. exists r. split; [|split; [|split]].
    + unfold_monad. destruct (openai_embeddings_create env r); cbn; rewrite Hcalls;
        reflexivity.
    + intros Hr. rewrite Hr in Er. discriminate.
    + subst r. rewrite length_map. exact Hlen.
    + subst r. apply Forall_forall. intros x (t0 & -> & Ht0)%list_elem_of_fmap.
      rewrite Forall_forall in Hall. destruct (Hall t0 Ht0) as [Hne Hlf].
      destruct (truncate_bounds t0) as (Hb & Hn & Hl).
      split; [|apply Hl, Hlf]. split; [|exact Hb].
      specialize (Hn Hne). destruct (Spec.truncate t0); [contradiction|cbn; lia].
Qed.

(** ** Files skipped as binary (RepoUpdateProcessor) *)

Section BinaryFiles.

Lemma lower_ascii_dot (c : Ascii.ascii) :
  Ascii.eqb (lower_ascii c) "." = Ascii.eqb c ".".
Proof. destruct c as [[] [] [] [] [] [] [] []]; reflexivity. Qed.

Lemma lastIndexOf_dot_toLowerCase (s : string) :
  lastIndexOf_dot (toLowerCase s) = lastIndexOf_dot s.
Proof.
  induction s as [|c r IH]; [reflexivity|].
  cbn [toLowerCase lastIndexOf_dot]. rewrite IH, lower_ascii_dot. reflexivity.
Qed.

Lemma append_cons (c : Ascii.ascii) (a b : string) :
  String c a +:+ b = String c (a +:+ b).
Proof. reflexivity. Qed.

Lemma toLowerCase_app (a b : string) :
  toLowerCase (a +:+ b) = toLowerCase a +:+ toLowerCase b.
Proof.
  induction a as [|c a IH]; [reflexivity|].
  rewrite append_cons. cbn [toLowerCase]. rewrite IH, append_cons. reflexivity.
Qed.

Lemma toLowerCase_length (a : string) :
  String.length (toLowerCase a) = String.length a.
Proof. induction a as [|c a IH]; [reflexivity|]. cbn. rewrite IH. reflexivity. Qed.

Lemma lastIndexOf_dot_app (a b : string) (i : nat) :
  lastIndexOf_dot b = Some i ->
  lastIndexOf_dot (a +:+ b) = Some (String.length a + i)%nat.
Proof.
  intros Hb. induction a as [|c a IH]; [exact Hb|].
  rewrite append_cons. cbn [lastIndexOf_dot String.length]. rewrite IH. reflexivity.
Qed.

Lemma string_drop_app (a b : string) : string_drop (String.length a) (a +:+ b) = b.
Proof.
  induction a as [|c a IH]; [destruct b; reflexivity|].
  rewrite append_cons. exact IH.
Qed.

Lemma binaryExtensions_dot :
  Forall (fun ext => lastIndexOf_dot ext = Some 0%nat) binaryExtensions.
Proof. apply (bool_decide_unpack _). vm_compute. exact I. Qed.

End BinaryFiles.

(** X12.  An ASCII path that ends in one of the listed binary extensions,
    in any letter case, is a binary file, and the loop body of the worker
    does nothing at all for it: no read, no parent blob, no chunk, no
    embedding, no vector.  A path without a dot is never taken for a binary
    file. *)
Theorem binary_extension_skipped env (stem ext : string) :
  is_ascii stem = true ->
  toLowerCase ext ∈ binaryExtensions ->
  isBinaryFile (stem +:+ ext) = true /\
  (forall state repoId userId sanitizedMeta (w : World),
     process_file env state repoId userId sanitizedMeta (stem +:+ ext) w = (Ok tt, w)) /\
  (forall path, lastIndexOf_dot path = None -> isBinaryFile path = false).
Proof.
  intros _ Hext.
  assert (Hdot : forall e, e ∈ binaryExtensions -> lastIndexOf_dot e = Some 0%nat).
  { intros e He. pose proof binaryExtensions_dot as H.
    rewrite Forall_forall in H. exact (H e He). }
  assert (Hbin : isBinaryFile (stem +:+ ext) = true).
  { unfold isBinaryFile.
    rewrite (lastIndexOf_dot_app stem ext 0).
    - rewrite Nat.add_0_r, toLowerCase_app. cbn [from_option]. unfold id.
      rewrite <- (toLowerCase_length stem), string_drop_app.
      apply bool_decide_eq_true, Hext.
    - rewrite <- lastIndexOf_dot_toLowerCase. apply Hdot, Hext. }
  split; [exact Hbin|]. split.
  - intros state repoId userId sanitizedMeta w. unfold process_file.
    rewrite Hbin. reflexivity.
  - intros path Hnone. unfold isBinaryFile. rewrite Hnone.
    cbn [from_option string_drop].
    apply bool_decide_eq_false. intros Hin. apply Hdot in Hin.
    rewrite lastIndexOf_dot_toLowerCase, Hnone in Hin. discriminate.
Qed.

Lemma binary_extension_skipped_witness :
  let env := Sample.env Sample.no_changes in
  isBinaryFile ("assets/Logo" +:+ ".PNG") = true /\
  (forall state repoId userId sanitizedMeta (w : World),
     process_file env state repoId userId sanitizedMeta ("assets/Logo" +:+ ".PNG") w
     = (Ok tt, w)) /\
  (forall path, lastIndexOf_dot path = None -> isBinaryFile path = false).
Proof.
  cbv zeta.
  apply (binary_extension_skipped (Sample.env Sample.no_changes) "assets/Logo" ".PNG").
  - reflexivity.
  - apply (bool_decide_unpack _). vm_compute. exact I.
Defined.

(** ** User metadata on the records (RepoUpdateProcessor) *)

Section UserMeta.

Variable env : Env.

Lemma sanitize_entries_lookup entries (sanitized : Metadata) skipped (w : World)
    (key : string) :
  exists result skipped' w',
    sanitize_entries entries sanitized skipped w = (Ok (result, skipped'), w') /\
    (key ∉ map fst entries -> result !! key = sanitized !! key) /\
    (NoDup (map fst entries) -> key ∉ reservedFields ->
     forall value, (key, value) ∈ entries ->
       result !! key = match primitive value with
                       | Some v => if String.eqb key "__proto__" then sanitized !! key
                                   else Some v
                       | None => sanitized !! key
                       end).
Proof.
  revert sanitized skipped w.
  induction entries as [|[k0 v0] rest IH]; intros sanitized skipped w.
  - exists sanitized, skipped, w. split; [reflexivity|]. split; [reflexivity|].
    intros _ _ value Hin. inversion Hin.
  - cbn [sanitize_entries].
    set (acc := if bool_decide (k0 ∈ reservedFields) then sanitized
                else match primitive v0 with
                     | Some v => if String.eqb k0 "__proto__" then sanitized
                                 else <[k0 := v]> sanitized
                     | None => sanitized
                     end).
    assert (Hrun : exists skipped1 w1,
               sanitize_entries ((k0, v0) :: rest) sanitized skipped w
               = sanitize_entries rest acc skipped1 w1).
    { cbn [sanitize_entries]. subst acc. case_bool_decide.
      - unfold logger, modify, bind. eexists _, _. reflexivity.
      - destruct (primitive v0); eexists _, _; reflexivity. }
    destruct Hrun as (skipped1 & w1 & Hrun). cbn [sanitize_entries] in Hrun.
    rewrite Hrun.
    destruct (IH acc skipped1 w1) as (result & skipped' & w' & E & Hout & Hin).
    exists result, skipped', w'. split; [exact E|].
    assert (Hacc : key <> k0 -> acc !! key = sanitized !! key).
    { intros Hne. subst acc. case_bool_decide; [reflexivity|].
      destruct (primitive v0); [|reflexivity].
      destruct (String.eqb k0 "__proto__"); [reflexivity|].
      apply lookup_insert_ne. congruence. }
    split.
    + cbn [map fst]. intros [Hne Hrest]%not_elem_of_cons.
      rewrite (Hout Hrest). apply Hacc, Hne.
    + cbn [map fst]. intros [Hk0 Hnd]%NoDup_cons Hres value Hval.
      apply elem_of_cons in Hval as [Heq|Hval].
      * injection Heq as -> ->. rewrite (Hout Hk0). subst acc.
        rewrite bool_decide_eq_false_2 by exact Hres.
        destruct (primitive v0); [|reflexivity].
        destruct (String.eqb k0 "__proto__"); [reflexivity|apply lookup_insert_eq].
      * rewrite (Hin Hnd Hres value Hval).
        assert (Hne : key <> k0).
        { intros ->. apply Hk0. apply list_elem_of_fmap.
          exists (k0, value). split; [reflexivity|exact Hval]. }
        rewrite (Hacc Hne). reflexivity.
Qed.

Lemma baseMetadata_keys state userId file idx chunk (key : string) :
  key ∉ reservedFields -> baseMetadata env state userId file idx chunk !! key = None.
Proof.
  intros Hkey. unfold baseMetadata. apply not_elem_of_list_to_map_1.
  intros Hin. apply Hkey. cbn in Hin. unfold reservedFields.
  repeat (apply elem_of_cons in Hin as [->|Hin];
          [apply (bool_decide_unpack _); vm_compute; exact I|]).
  inversion Hin.
Qed.

End UserMeta.

(** X13.  User metadata of a job reaches every vector: a [meta] entry whose
    key is neither reserved nor [__proto__] and whose value is a string, a
    number or a boolean is in the metadata of every record built for the
    job, with that value; an entry with any other kind of value ([null],
    array, object) leaves no such key on any record.  An entry under the
    key [__proto__] reaches no record either: assigning a string, number or
    boolean to [sanitized.__proto__] stores nothing. *)
Theorem user_meta_on_every_record env (entries : list (string * JsonValue))
    (state : RepoStateEntity) (repoId : string) (userId : option string)
    (file : string) (vectors : list EmbeddingVector) (chunks : list CodeChunk)
    (w : World) (key : string) (value : JsonValue) :
  NoDup (map fst entries) ->
  (key, value) ∈ entries ->
  key ∉ reservedFields ->
  exists sanitizedMeta w',
    sanitizeMeta (Some entries) w = (Ok sanitizedMeta, w') /\
    forall record,
      record ∈ chunks_to_records env state repoId userId sanitizedMeta file vectors chunks ->
      vr_metadata record !! key
      = if String.eqb key "__proto__" then None else primitive value.
Proof.
  intros Hnd Hin Hres.
  destruct (sanitize_entries_lookup entries ∅ [] w key)
    as (sm & sk & w1 & E & _ & Hlook).
  specialize (Hlook Hnd Hres value Hin). rewrite lookup_empty in Hlook.
  assert (Hsm : sm !! key = if String.eqb key "__proto__" then None else primitive value).
  { rewrite Hlook. destruct (primitive value), (String.eqb key "__proto__"); reflexivity. }
  unfold sanitizeMeta. rewrite (bind_ok _ _ _ _ _ E). cbv beta iota.
  assert (Hrec : forall record,
            record ∈ chunks_to_records env state repoId userId sm file vectors chunks ->
            vr_metadata record !! key
            = if String.eqb key "__proto__" then None else primitive value).
  { intros record Hrec. unfold chunks_to_records in Hrec.
    apply list_elem_of_lookup in Hrec as (i & Hi).
    rewrite list_lookup_imap in Hi.
    destruct (chunks !! i) as [chunk|]; [|discriminate]. injection Hi as <-.
    cbn [vr_metadata]. unfold chunk_metadata.
    assert (Hne : forall k, k ∈ reservedFields -> k <> key) by (intros k Hk ->; contradiction).
    rewrite !lookup_insert_ne
      by (apply Hne, (bool_decide_unpack _); vm_compute; exact I).
    rewrite lookup_union, (baseMetadata_keys env _ _ _ _ _ _ Hres), Hsm.
    destruct (String.eqb key "__proto__"); [reflexivity|].
    destruct (primitive value); reflexivity. }
  destruct (0 <? length sk)%nat; unfold_monad; eexists _, _; (split; [reflexivity|exact Hrec]).
Qed.

Lemma user_meta_on_every_record_witness :
  let entries := [ ("team", JString "backend"); ("tags", JArray [JString "x"]);
                   ("id", JString "hacked"); ("__proto__", JString "polluted") ] in
  let chunks := [ mkChunk "src/c.ts:c:function_declaration:L1" "function_declaration"
                          (of_string "function c() {}") 1 1 ] in
  (exists sanitizedMeta w',
     sanitizeMeta (Some entries) Sample.world = (Ok sanitizedMeta, w') /\
     forall record,
       record ∈ chunks_to_records (Sample.env Sample.no_changes) Sample.state_demo "demo"
                  None sanitizedMeta "src/c.ts" [[Z2Qc 5]] chunks ->
       vr_metadata record !! "team" = Some (MStr "backend")) /\
  (exists sanitizedMeta w',
     sanitizeMeta (Some entries) Sample.world = (Ok sanitizedMeta, w') /\
     forall record,
       record ∈ chunks_to_records (Sample.env Sample.no_changes) Sample.state_demo "demo"
                  None sanitizedMeta "src/c.ts" [[Z2Qc 5]] chunks ->
       vr_metadata record !! "__proto__" = None).
Proof.
  cbv zeta. split.
  - apply (user_meta_on_every_record (Sample.env Sample.no_changes)
             [ ("team", JString "backend"); ("tags", JArray [JString "x"]);
               ("id", JString "hacked"); ("__proto__", JString "polluted") ]
             Sample.state_demo "demo" None "src/c.ts" [[Z2Qc 5]]
             [ mkChunk "src/c.ts:c:function_declaration:L1" "function_declaration"
                       (of_string "function c() {}") 1 1 ]
             Sample.world "team" (JString "backend")).
    + apply (bool_decide_unpack _). vm_compute. exact I.
    + apply list_elem_of_here.
    + apply (bool_decide_unpack _). vm_compute. exact I.
  - apply (user_meta_on_every_record (Sample.env Sample.no_changes)
             [ ("team", JString "backend"); ("tags", JArray [JString "x"]);
               ("id", JString "hacked"); ("__proto__", JString "polluted") ]
             Sample.state_demo "demo" None "src/c.ts" [[Z2Qc 5]]
             [ mkChunk "src/c.ts:c:function_declaration:L1" "function_declaration"
                       (of_string "function c() {}") 1 1 ]
             Sample.world "__proto__" (JString "polluted")).
    + apply (bool_decide_unpack _). vm_compute. exact I.
    + do 3 apply list_elem_of_further. apply list_elem_of_here.
    + apply (bool_decide_unpack _). vm_compute. exact I.
Defined.

(** ** Repository state and the stores across a job (RepoUpdateProcessor) *)

Section RepoState.

Variable env : Env.

Lemma save_state_find (row : RepoStateEntity) (table : list RepoStateEntity) :
  List.find (fun s => String.eqb (state_repoUrl s) (state_repoUrl row)) table = None ->
  List.find (fun s => String.eqb (state_repoUrl s) (state_repoUrl row))
            (save_state row table) = Some row.
Proof.
  induction table as [|r t IH]; cbn [List.find save_state].
  - intros _. rewrite String.eqb_refl. reflexivity.
  - destruct (String.eqb (state_repoUrl r) (state_repoUrl row)) eqn:E; [discriminate|].
    intros Hnone. destruct (String.eqb (state_id r) (state_id row)); cbn [List.find].
    + rewrite String.eqb_refl. reflexivity.
    + rewrite E. apply IH, Hnone.
Qed.

Lemma split_only_logged (fileName : string) (content : jsstring) (w : World) :
  exists chunks w', split env fileName content w = (Ok chunks, w') /\ only_logged w w'.
Proof.
  unfold split. destruct (query_captures env fileName content) as [messages|captures].
  - assert (H : forall (w0 : World),
              exists w', for_each messages (fun '(lvl, msg) => logger lvl msg) w0 = (Ok tt, w')
                         /\ only_logged w0 w').
    { induction messages as [|[lvl msg] rest IH]; intros w0.
      - exists w0. split; [reflexivity|apply only_logged_refl].
      - cbn [for_each]. unfold bind at 1. cbn [logger modify].
        destruct (IH (snd (logger lvl msg w0))) as (w' & E & Hl).
        exists w'. split; [exact E|].
        eapply only_logged_trans; [apply only_logged_logger|exact Hl]. }
    destruct (H w) as (w' & E & Hl). rewrite (bind_ok _ _ _ _ _ E).
    eexists _, w'. split; [reflexivity|exact Hl].
  - cbv zeta. match goal with |- context [negb ?b] => destruct (negb b) end;
      unfold_monad; eexists _, _; (split; [reflexivity|]); repeat split.
Qed.

(** [upsert], whatever its outcome, leaves the two tables alone. *)
Lemma upsert_tables (records : list VectorRecord) (w : World) :
  content_blobs (snd (upsert env records w)) = content_blobs w /\
  repo_states (snd (upsert env records w)) = repo_states w.
Proof.
  destruct (ensureCollection_frame env w) as (Hr & _ & Hblobs & Hstates & _).
  destruct (ensureCollection env w) as [r w1] eqn:E.
  cbn [fst snd] in Hr, Hblobs, Hstates. subst r.
  unfold upsert. rewrite (bind_ok _ _ _ _ _ E). unfold validateUniqueIds.
  destruct (negb (length (map vr_id records) =? length (Set_from (map vr_id records)))%nat).
  - unfold_monad. cbn. split; assumption.
  - rewrite (bind_ok _ _ _ _ _ (eq_refl : ret tt w1 = (Ok tt, w1))).
    destruct (for_each_collection_upsert_tables env (slices (batchSize env) records) w1)
      as [Hb Hs].
    unfold record_item in Hb, Hs. split; congruence.
Qed.

(** The loop body for one file: it writes at most the row of that file. *)
Lemma process_file_tables state repoId userId sanitizedMeta (file : string) (w : World) :
  let w' := snd (process_file env state repoId userId sanitizedMeta file w) in
  repo_states w' = repo_states w /\
  (forall b, b ∈ content_blobs w -> blob_id b <> file -> b ∈ content_blobs w') /\
  (forall id, id ∈ map blob_id (content_blobs w) -> id ∈ map blob_id (content_blobs w')).
Proof.
  cbv zeta. unfold process_file.
  destruct (isBinaryFile file); [repeat split; auto|].
  destruct (fs_readFileSync env (state_localPath state +:+ "/" +:+ file)) as [content|e];
    [|cbn; repeat split; auto].
  destruct (saveParent_run file content (Some repoId) (Some sanitizedMeta) w)
    as (w1 & E1 & Hb1 & _ & _ & Hs1 & _).
  rewrite (bind_ok _ _ _ _ _ E1).
  destruct (split_only_logged file content w1) as (chunks & w2 & E2 & _ & _ & Hb2 & Hs2 & _).
  rewrite (bind_ok _ _ _ _ _ E2).
  assert (Hgoal : forall w3 : World,
            content_blobs w3 = content_blobs w2 -> repo_states w3 = repo_states w2 ->
            repo_states w3 = repo_states w /\
            (forall b, b ∈ content_blobs w -> blob_id b <> file -> b ∈ content_blobs w3) /\
            (forall id, id ∈ map blob_id (content_blobs w) ->
                        id ∈ map blob_id (content_blobs w3))).
  { intros w3 Hb3 Hs3. rewrite Hb3, Hs3, Hb2, Hs2, Hb1, Hs1.
    split; [reflexivity|]. split.
    - intros b Hb Hne. apply save_blob_keeps; [exact Hb|exact Hne].
    - intros id Hid. apply save_blob_ids, Hid. }
  match goal with |- context [List.filter ?p chunks] => set (semantic := List.filter p chunks) end.
  destruct (length semantic =? 0)%nat; [apply Hgoal; reflexivity|].
  pose proof (embedDocuments_frame env
                (Some (map (fun chunk => Some (chunk_content chunk)) semantic)) w2) as F.
  cbv zeta in F. destruct F as (_ & _ & Hb3 & Hs3 & _).
  destruct (embedDocuments env
              (Some (map (fun chunk => Some (chunk_content chunk)) semantic)) w2)
    as [[vectors|e] w3] eqn:E3; cbn [snd] in Hb3, Hs3.
  - rewrite (bind_ok _ _ _ _ _ E3). cbv zeta.
    set (records := chunks_to_records env state repoId userId sanitizedMeta file vectors semantic).
    set (warn := if negb (length (map vr_id records) =? length (Set_from (map vr_id records)))%nat
                 then _ else _).
    assert (Hwarn : exists w4, warn w3 = (Ok tt, w4) /\ content_blobs w4 = content_blobs w3
                               /\ repo_states w4 = repo_states w3).
    { subst warn. destruct (negb _); eexists; repeat split. }
    destruct Hwarn as (w4 & E4 & Hb4 & Hs4). rewrite (bind_ok _ _ _ _ _ E4).
    destruct (upsert_tables records w4) as [Hb5 Hs5].
    apply Hgoal; congruence.
  - rewrite (bind_throw _ _ _ _ _ E3). cbn [snd]. apply Hgoal; assumption.
Qed.

Lemma for_each_process_file_tables state repoId userId sanitizedMeta
    (files : list string) (w : World) :
  let w' := snd (for_each files (process_file env state repoId userId sanitizedMeta) w) in
  repo_states w' = repo_states w /\
  (forall b, b ∈ content_blobs w -> blob_id b ∉ files -> b ∈ content_blobs w') /\
  (forall id, id ∈ map blob_id (content_blobs w) -> id ∈ map blob_id (content_blobs w')).
Proof.
  cbv zeta. revert w. induction files as [|file rest IH]; intros w.
  - cbn. repeat split; auto.
  - cbn [for_each].
    pose proof (process_file_tables state repoId userId sanitizedMeta file w) as F.
    cbv zeta in F. destruct F as (Hs & Hb & Hid).
    destruct (process_file env state repoId userId sanitizedMeta file w) as [[[]|e] w1] eqn:E;
      cbn [snd] in Hs, Hb, Hid.
    + rewrite (bind_ok _ _ _ _ _ E). destruct (IH w1) as (Hs' & Hb' & Hid').
      split; [congruence|]. split.
      * intros b Hin [Hne Hrest]%not_elem_of_cons. apply Hb'; [|exact Hrest].
        apply Hb; [exact Hin|exact Hne].
      * intros id Hin. apply Hid', Hid, Hin.
    + rewrite (bind_throw _ _ _ _ _ E). cbn [snd]. split; [exact Hs|]. split.
      * intros b Hin [Hne _]%not_elem_of_cons. apply Hb; assumption.
      * exact Hid.
Qed.

Lemma getRepoState_blobs (repoUrl : string) (w : World) :
  content_blobs (snd (getRepoState env repoUrl w)) = content_blobs w.
Proof.
  unfold getRepoState. unfold bind at 1, get_world at 1.
  destruct (List.find _ (repo_states w)); [reflexivity|].
  unfold repoStateRepo_save. unfold_monad. cbn.
  destruct (git_cloneRepo env repoUrl _); reflexivity.
Qed.

Lemma getRepoState_new (repoUrl : string) (w : World) :
  List.find (fun s => String.eqb (state_repoUrl s) repoUrl) (repo_states w) = None ->
  let localPath := storage_path env (ulid env repoUrl) in
  let state := mkState (ulid env repoUrl) repoUrl localPath None in
  getRepoState env repoUrl w
  = match git_cloneRepo env repoUrl localPath with
    | Ok _ =>
        (Ok state,
         mkWorld (chroma w) (collection_cached w) (content_blobs w)
                 (save_state state (repo_states w))
                 (calls w ++ [GitClone repoUrl localPath; RepoStateSave (ulid env repoUrl) None])
                 (logs w))
    | Throw e =>
        (Throw e,
         mkWorld (chroma w) (collection_cached w) (content_blobs w) (repo_states w)
                 (calls w ++ [GitClone repoUrl localPath]) (logs w))
    end.
Proof.
  intros Hnone. cbv zeta. unfold getRepoState. unfold bind at 1, get_world at 1.
  rewrite Hnone. unfold repoStateRepo_save. unfold_monad. cbn.
  destruct (git_cloneRepo env repoUrl (storage_path env (ulid env repoUrl))) as [[]|e]; cbn.
  - rewrite <- app_assoc. reflexivity.
  - reflexivity.
Qed.

End RepoState.

(** X14.  A repository URL without a state row is cloned and registered
    once: [getRepoState] clones it to the storage path of a fresh id and
    saves a row with no processed commit; asked again it returns that row
    without cloning or saving.  When the clone fails the error is passed on
    and no row is saved. *)
Theorem getRepoState_registers_once env (repoUrl : string) (w : World) :
  List.find (fun s => String.eqb (state_repoUrl s) repoUrl) (repo_states w) = None ->
  let state := mkState (ulid env repoUrl) repoUrl
                       (storage_path env (ulid env repoUrl)) None in
  let w1 := snd (getRepoState env repoUrl w) in
  match git_cloneRepo env repoUrl (state_localPath state) with
  | Ok _ =>
      fst (getRepoState env repoUrl w) = Ok state /\
      calls w1 = calls w ++ [ GitClone repoUrl (state_localPath state);
                              RepoStateSave (state_id state) None ] /\
      state ∈ repo_states w1 /\
      getRepoState env repoUrl w1 = (Ok state, w1)
  | Throw e =>
      fst (getRepoState env repoUrl w) = Throw e /\
      calls w1 = calls w ++ [ GitClone repoUrl (state_localPath state) ] /\
      repo_states w1 = repo_states w
  end.
Proof.
  intros Hnone. cbv zeta. cbn [state_localPath state_id].
  pose proof (getRepoState_new env repoUrl w Hnone) as Hrun. cbv zeta in Hrun.
  rewrite Hrun.
  destruct (git_cloneRepo env repoUrl (storage_path env (ulid env repoUrl))) as [[]|e];
    cbn [fst snd calls repo_states]; [|repeat split].
  set (state := mkState (ulid env repoUrl) repoUrl
                        (storage_path env (ulid env repoUrl)) None).
  assert (Hfind : List.find (fun s => String.eqb (state_repoUrl s) repoUrl)
                            (save_state state (repo_states w)) = Some state).
  { apply (save_state_find state). exact Hnone. }
  split; [reflexivity|]. split; [reflexivity|]. split.
  - apply list_elem_of_In. apply (find_some _ _ Hfind).
  - unfold getRepoState. unfold bind, get_world. cbn [repo_states].
    rewrite Hfind. reflexivity.
Qed.

Lemma getRepoState_registers_once_witness :
  let env := Sample.env Sample.no_changes in
  let repoUrl := "https://github.com/acme/other.git" in
  let state := mkState (ulid env repoUrl) repoUrl
                       (storage_path env (ulid env repoUrl)) None in
  let w1 := snd (getRepoState env repoUrl Sample.world) in
  match git_cloneRepo env repoUrl (state_localPath state) with
  | Ok _ =>
      fst (getRepoState env repoUrl Sample.world) = Ok state /\
      calls w1 = calls Sample.world ++ [ GitClone repoUrl (state_localPath state);
                                          RepoStateSave (state_id state) None ] /\
      state ∈ repo_states w1 /\
      getRepoState env repoUrl w1 = (Ok state, w1)
  | Throw e =>
      fst (getRepoState env repoUrl Sample.world) = Throw e /\
      calls w1 = calls Sample.world ++ [ GitClone repoUrl (state_localPath state) ] /\
      repo_states w1 = repo_states Sample.world
  end.
Proof.
  cbv zeta.
  apply (getRepoState_registers_once (Sample.env Sample.no_changes)
           "https://github.com/acme/other.git" Sample.world).
  reflexivity.
Defined.

(** X15.  The processed commit of a known repository advances only when the
    job runs to completion, and then to the HEAD read at the start of the
    job: a job that returns [undefined] has saved the state row with
    [lastProcessedCommit = HEAD] as its last call; a job that returns
    ['No changes detected'] or fails (git, embedding or upsert error) leaves
    the table of repository states exactly as it was. *)
Theorem process_commit_only_on_completion env (job : RepoIngestionJobData)
    (state : RepoStateEntity) (w : World) :
  List.find (fun s => String.eqb (state_repoUrl s) (job_repoUrl job)) (repo_states w)
    = Some state ->
  let w' := snd (process env job w) in
  match fst (process env job w) with
  | Ok None =>
      exists head,
        git_getCurrentCommit env (state_localPath state) = Ok head /\
        repo_states w'
        = save_state (mkState (state_id state) (state_repoUrl state)
                              (state_localPath state) (Some head))
                     (repo_states w) /\
        last (calls w') = Some (RepoStateSave (state_id state) (Some head))
  | _ => repo_states w' = repo_states w
  end.
Proof.
  intros Hstate. cbv zeta.
  destruct (process env job w) as [r w'] eqn:Ep. cbn [fst snd]. revert Ep.
  pose proof (sanitizeMeta_only_logged (job_meta job) w) as Hl.
  destruct (sanitizeMeta_reserved (job_meta job) w) as (sm & w1 & E & _).
  rewrite E in Hl. cbn [snd] in Hl. destruct Hl as (_ & _ & _ & Hs1 & _).
  unfold process. rewrite (bind_ok _ _ _ _ _ E).
  assert (Es : getRepoState env (job_repoUrl job) w1 = (Ok state, w1)).
  { unfold getRepoState, bind, get_world. rewrite Hs1, Hstate. reflexivity. }
  rewrite (bind_ok _ _ _ _ _ Es).
  unfold bind at 1. unfold lift at 1.
  destruct (git_getCurrentCommit env (state_localPath state)) as [head|e];
    [|intros [= <- <-]; exact Hs1].
  unfold bind at 1. unfold lift at 1.
  destruct (git_getChangedFiles env (state_localPath state) _) as [changes|e];
    [|intros [= <- <-]; exact Hs1].
  destruct ((length (added changes) =? 0)%nat && (length (modified changes) =? 0)%nat);
    [intros [= <- <-]; exact Hs1|].
  set (del := if (0 <? length (deleted changes))%nat
              then deleteDocuments env (deleted changes) else ret tt).
  assert (Hdel : exists w2, del w1 = (Ok tt, w2) /\ repo_states w2 = repo_states w1).
  { subst del. destruct (0 <? length (deleted changes))%nat.
    - destruct (deleteDocuments_run env (deleted changes) w1)
        as (w2 & setup & Ed & _ & _ & Hs2 & _).
      exists w2. split; assumption.
    - exists w1. split; reflexivity. }
  destruct Hdel as (w2 & Ed & Hs2). rewrite (bind_ok _ _ _ _ _ Ed).
  pose proof (for_each_process_file_tables env state (job_repoId job) (job_userId job) sm
                (added changes ++ modified changes) w2) as F.
  cbv zeta in F. destruct F as (Hs3 & _).
  destruct (for_each (added changes ++ modified changes)
              (process_file env state (job_repoId job) (job_userId job) sm) w2)
    as [[[]|e] w3] eqn:Ef; cbn [snd] in Hs3.
  - rewrite (bind_ok _ _ _ _ _ Ef). unfold repoStateRepo_save. unfold_monad.
    intros [= <- <-]. cbn.
    exists head. split; [reflexivity|]. split; [congruence|].
    apply last_snoc.
  - rewrite (bind_throw _ _ _ _ _ Ef). intros [= <- <-]. congruence.
Qed.

Lemma process_commit_only_on_completion_witness :
  let env := Sample.env (mkChanges ["src/c.ts"] [] ["src/b.ts"] []) in
  let w' := snd (process env Sample.job Sample.world) in
  match fst (process env Sample.job Sample.world) with
  | Ok None =>
      exists head,
        git_getCurrentCommit env (state_localPath Sample.state_demo) = Ok head /\
        repo_states w'
        = save_state (mkState (state_id Sample.state_demo) (state_repoUrl Sample.state_demo)
                              (state_localPath Sample.state_demo) (Some head))
                     (repo_states Sample.world) /\
        last (calls w') = Some (RepoStateSave (state_id Sample.state_demo) (Some head))
  | _ => repo_states w' = repo_states Sample.world
  end.
Proof.
  cbv zeta.
  apply (process_commit_only_on_completion
           (Sample.env (mkChanges ["src/c.ts"] [] ["src/b.ts"] []))
           Sample.job Sample.state_demo Sample.world).
  reflexivity.
Defined.

(** X16.  A job never removes a parent blob: whatever the job does and
    however it ends, every id that had a row in the content store before
    still has one afterwards.  In particular the rows of files that the
    diff reports as deleted stay. *)
Theorem process_never_removes_blobs env (job : RepoIngestionJobData) (w : World)
    (id : string) :
  id ∈ map blob_id (content_blobs w) ->
  id ∈ map blob_id (content_blobs (snd (process env job w))).
Proof.
  intros Hid.
  pose proof (sanitizeMeta_only_logged (job_meta job) w) as Hl.
  destruct (sanitizeMeta_reserved (job_meta job) w) as (sm & w1 & E & _).
  rewrite E in Hl. cbn [snd] in Hl. destruct Hl as (_ & _ & Hb1 & _ & _).
  unfold process. rewrite (bind_ok _ _ _ _ _ E).
  pose proof (getRepoState_blobs env (job_repoUrl job) w1) as Hb2.
  destruct (getRepoState env (job_repoUrl job) w1) as [[state|e] w2] eqn:Es;
    cbn [snd] in Hb2.
  2:{ rewrite (bind_throw _ _ _ _ _ Es). cbn [snd]. congruence. }
  rewrite (bind_ok _ _ _ _ _ Es).
  assert (Hid2 : id ∈ map blob_id (content_blobs w2)) by congruence.
  unfold bind at 1. unfold lift at 1.
  destruct (git_getCurrentCommit env (state_localPath state)) as [head|e];
    [|cbn; exact Hid2].
  unfold bind at 1. unfold lift at 1.
  destruct (git_getChangedFiles env (state_localPath state) _) as [changes|e];
    [|cbn; exact Hid2].
  destruct ((length (added changes) =? 0)%nat && (length (modified changes) =? 0)%nat);
    [cbn; exact Hid2|].
  set (del := if (0 <? length (deleted changes))%nat
              then deleteDocuments env (deleted changes) else ret tt).
  assert (Hdel : exists w3, del w2 = (Ok tt, w3) /\ content_blobs w3 = content_blobs w2).
  { subst del. destruct (0 <? length (deleted changes))%nat.
    - destruct (deleteDocuments_run env (deleted changes) w2)
        as (w3 & setup & Ed & _ & Hb3 & _).
      exists w3. split; assumption.
    - exists w2. split; reflexivity. }
  destruct Hdel as (w3 & Ed & Hb3). rewrite (bind_ok _ _ _ _ _ Ed).
  pose proof (for_each_process_file_tables env state (job_repoId job) (job_userId job) sm
                (added changes ++ modified changes) w3) as F.
  cbv zeta in F. destruct F as (_ & _ & Hmono).
  assert (Hid3 : id ∈ map blob_id (content_blobs w3)) by congruence.
  specialize (Hmono id Hid3).
  destruct (for_each (added changes ++ modified changes)
              (process_file env state (job_repoId job) (job_userId job) sm) w3)
    as [[[]|e] w4] eqn:Ef; cbn [snd] in Hmono.
  - rewrite (bind_ok _ _ _ _ _ Ef). unfold repoStateRepo_save. unfold_monad. cbn.
    exact Hmono.
  - rewrite (bind_throw _ _ _ _ _ Ef). cbn. exact Hmono.
Qed.

Lemma process_never_removes_blobs_witness :
  "src/b.ts" ∈ map blob_id
    (content_blobs (snd (process (Sample.env (mkChanges ["src/c.ts"] [] ["src/b.ts"] []))
                                 Sample.job Sample.world))).
Proof.
  apply (process_never_removes_blobs
           (Sample.env (mkChanges ["src/c.ts"] [] ["src/b.ts"] []))
           Sample.job Sample.world "src/b.ts").
  apply (bool_decide_unpack _). vm_compute. exact I.
Defined.

(** ** The function name recovered from a chunk id (RepoUpdateProcessor) *)

Section FunctionName.

Variable env : Env.

Lemma split_on_app (sep : Ascii.ascii) (a b : string) :
  all_chars (fun c => negb (Ascii.eqb c sep)) a = true ->
  split_on sep (a +:+ String sep b) = a :: split_on sep b.
Proof.
  induction a as [|c a IH]; intros Ha.
  - change ("" +:+ String sep b) with (String sep b). cbn [split_on].
    rewrite Ascii.eqb_refl. reflexivity.
  - cbn [all_chars] in Ha. apply andb_true_iff in Ha as [Hc Ha].
    rewrite append_cons. cbn [split_on].
    apply negb_true_iff in Hc. rewrite Hc, (IH Ha). reflexivity.
Qed.

Lemma generateChunkId_parts (fileName name nodeType : string) (startLine : Z) :
  no_colon fileName = true -> no_colon name = true ->
  split_on ":" (generateChunkId fileName name nodeType startLine) !! 1%nat = Some name.
Proof.
  intros Hf Hn. unfold generateChunkId.
  change (fileName +:+ ":" +:+ name +:+ ":" +:+ nodeType +:+ ":L" +:+ pretty startLine)
    with (fileName +:+ String ":" (name +:+ String ":" (nodeType +:+ ":L" +:+ pretty startLine))).
  rewrite (split_on_app _ _ _ Hf), (split_on_app _ _ _ Hn). reflexivity.
Qed.

End FunctionName.

(** X17.  The [functionName] metadata is the name the chunker resolved: for
    a chunk built from a capture of a file whose path contains no colon,
    with a block name that contains no colon, the worker's
    [chunk.id.split(':')[1]] is that name (['anonymous'] for an empty name,
    as for a block without a name node). *)
Theorem functionName_is_block_name env (state : RepoStateEntity)
    (userId : option string) (file : string) (idx : nat)
    (fileName : string) (content : jsstring) (captures : list QueryCapture)
    (capture : QueryCapture) (chunk : CodeChunk) :
  let name := match findNameNode captures (cap_node capture) with
              | Some nameNode => node_text nameNode
              | None => "anonymous"
              end in
  chunk_of_capture fileName content captures capture = Some chunk ->
  no_colon fileName = true ->
  no_colon name = true ->
  baseMetadata env state userId file idx chunk !! "functionName"
  = Some (MStr (if String.eqb name "" then "anonymous" else name)).
Proof.
  cbv zeta. intros Hchunk Hf Hn. unfold chunk_of_capture in Hchunk.
  destruct (negb (String.eqb (cap_name capture) "block")); [discriminate|].
  destruct (expandContext (cap_node capture)) as [startIndex startRow].
  injection Hchunk as <-.
  set (name := match findNameNode captures (cap_node capture) with
               | Some nameNode => node_text nameNode
               | None => "anonymous"
               end) in *.
  assert (Hbase : forall c,
            baseMetadata env state userId file idx c !! "functionName"
            = Some (MStr (or_else (split_on ":" (chunk_id c) !! 1%nat) "anonymous")))
    by reflexivity.
  rewrite Hbase. cbn [chunk_id].
  rewrite (generateChunkId_parts _ _ _ _ Hf Hn). reflexivity.
Qed.

Lemma functionName_is_block_name_witness :
  let env := Sample.env Sample.no_changes in
  let content := of_string "function c() {}" in
  let captures := Sample.captures_of content in
  let capture := mkCapture "block"
                   (mkNode 1 "function_declaration" "function c() {}" None
                           0 (length content) 0 0 []) in
  let chunk := mkChunk "src/c.ts:c:function_declaration:L1" "function_declaration"
                       content 1 1 in
  baseMetadata env Sample.state_demo None "src/c.ts" 0 chunk !! "functionName"
  = Some (MStr "c").
Proof.
  cbv zeta.
  apply (functionName_is_block_name (Sample.env Sample.no_changes) Sample.state_demo
           None "src/c.ts" 0 "src/c.ts" (of_string "function c() {}")
           (Sample.captures_of (of_string "function c() {}"))
           (mkCapture "block"
              (mkNode 1 "function_declaration" "function c() {}" None
                      0 (length (of_string "function c() {}")) 0 0 []))).
  - vm_compute. reflexivity.
  - vm_compute. reflexivity.
  - vm_compute. reflexivity.
Defined.

(** ** Answers of [similaritySearch] (VectorStoreService) *)

Section SearchAnswers.

Variable env : Env.

Lemma where_of_filter_matches (filter : option Metadata) (item : ChromaItem) :
  where_matches (where_of_filter filter) item = true <->
  forall key value, default ∅ filter !! key = Some value ->
                    it_metadata item !! key = Some value.
Proof.
  destruct filter as [f|]; cbn [where_of_filter from_option].
  - destruct (0 <? size f)%nat eqn:E0.
    + destruct (1 <? size f)%nat; cbn [where_matches]; apply fields_match_map.
    + cbn [where_matches]. apply Nat.ltb_ge in E0.
      assert (f = ∅) by (apply map_size_empty_iff; lia). subst f.
      split; [|reflexivity]. intros _ key value H. unfold id in H.
      rewrite lookup_empty in H. discriminate.
  - cbn [where_matches]. split; [|reflexivity].
    intros _ key value H. rewrite lookup_empty in H. discriminate.
Qed.

(** The mapping of hits to records when every hit has a distance. *)
Lemma hits_to_records_ok (hits : list QueryHit) (index : nat) (w : World) :
  Forall (fun hit => is_Some (qh_distance hit)) hits ->
  exists records,
    hits_to_records env index hits w = (Ok records, w) /\
    Forall2 (fun hit record =>
               vr_id record = qh_id hit /\
               vr_score record = (fun d => (Z2Qc 1 - d)%Qc) <$> qh_distance hit /\
               vr_metadata record = <["id" := MStr (qh_id hit)]> (default ∅ (qh_metadata hit)) /\
               vr_vector record = [] /\
               is_Some (vr_content record) /\
               (forall c d, qh_document hit = Some (c :: d) ->
                            vr_content record = Some (c :: d)))
            hits records.
Proof.
  intros Hall. revert index. induction Hall as [|hit rest [d Hd] _ IH]; intros index.
  - exists []. split; [reflexivity|constructor].
  - destruct (IH (S index)) as (others & E & Hrest).
    cbn [hits_to_records]. rewrite Hd. rewrite (bind_ok _ _ _ _ _ E). unfold ret.
    eexists. split; [reflexivity|]. constructor; [|exact Hrest].
    cbn [vr_id vr_score vr_metadata vr_vector vr_content]. rewrite Hd.
    repeat split; [eexists; reflexivity|]. intros c d' ->. reflexivity.
Qed.

(** The mapping stops at the first hit without a distance. *)
Lemma hits_to_records_throw (before : list QueryHit) (hit : QueryHit)
    (after : list QueryHit) (index : nat) (w : World) :
  Forall (fun h => is_Some (qh_distance h)) before ->
  qh_distance hit = None ->
  hits_to_records env index (before ++ hit :: after) w
  = (Throw (mkError PlainError
              ("No distance found for result at index "
               +:+ pretty (index + length before)%nat)), w).
Proof.
  intros Hall Hnone. revert index.
  induction Hall as [|h rest [d Hd] _ IH]; intros index.
  - cbn [app hits_to_records length]. rewrite Hnone, Nat.add_0_r. reflexivity.
  - cbn [app hits_to_records length]. rewrite Hd.
    rewrite (bind_throw _ _ _ _ _ (IH (S index))).
    replace (S index + length rest)%nat with (index + S (length rest))%nat by lia.
    reflexivity.
Qed.

(** The hits that [similaritySearch] maps: a run of it is the mapping of
    the first [topK] ranked items that pass the filter. *)
Lemma similaritySearch_hits (qv : EmbeddingVector) (topK : Z)
    (filter : option Metadata) (w : World) :
  exists w1,
    similaritySearch env qv topK filter w
    = hits_to_records env 0
        (firstn (Z.to_nat topK)
           (chroma_rank env qv
              (List.filter (where_matches (where_of_filter filter)) (collection_items w))))
        w1.
Proof.
  destruct (ensureCollection_frame env w) as (Hr & Hitems & _).
  destruct (ensureCollection env w) as [r w1] eqn:E. cbn [fst snd] in Hr, Hitems. subst r.
  unfold similaritySearch. rewrite (bind_ok _ _ _ _ _ E).
  unfold collection_query. unfold_monad. cbn [fst snd].
  eexists. unfold collection_items in *. cbn [chroma]. rewrite Hitems. reflexivity.
Qed.

Lemma first_missing_distance (hits : list QueryHit) :
  Forall (fun h => is_Some (qh_distance h)) hits \/
  exists before hit after,
    hits = before ++ hit :: after /\
    Forall (fun h => is_Some (qh_distance h)) before /\ qh_distance hit = None.
Proof.
  induction hits as [|x l IH]; [left; constructor|].
  destruct (qh_distance x) as [d|] eqn:Ex.
  - destruct IH as [H|(b & hit & a & -> & Hb & Hn)].
    + left. constructor; [rewrite Ex; eexists; reflexivity|exact H].
    + right. exists (x :: b), hit, a. split; [reflexivity|]. split; [|exact Hn].
      constructor; [rewrite Ex; eexists; reflexivity|exact Hb].
  - right. exists [], x, l. split; [reflexivity|]. split; [constructor|exact Ex].
Qed.

(** The records of a successful search, hit by hit, when Chroma answers with
    items it was asked about. *)
Lemma similaritySearch_items (qv : EmbeddingVector) (topK : Z)
    (filter : option Metadata) (w : World) (records : list VectorRecord) :
  rank_returns_items env ->
  fst (similaritySearch env qv topK filter w) = Ok records ->
  Forall (fun record =>
            exists item d,
              item ∈ collection_items w /\
              where_matches (where_of_filter filter) item = true /\
              vr_id record = it_id item /\
              vr_metadata record = <["id" := MStr (it_id item)]> (it_metadata item) /\
              vr_score record = Some (Z2Qc 1 - d)%Qc /\ vr_vector record = [] /\
              is_Some (vr_content record) /\
              (forall c r, it_document item = c :: r -> vr_content record = Some (c :: r)))
         records.
Proof.
  intros Hrank Hok.
  destruct (similaritySearch_hits qv topK filter w) as (w1 & Hrun).
  rewrite Hrun in Hok.
  set (items := List.filter (where_matches (where_of_filter filter)) (collection_items w)) in *.
  set (hits := firstn (Z.to_nat topK) (chroma_rank env qv items)) in *.
  assert (Hdist : Forall (fun h => is_Some (qh_distance h)) hits).
  { destruct (first_missing_distance hits)
      as [H|(before & hit & after & Hsplit & Hb & Hn)]; [exact H|].
    rewrite Hsplit, (hits_to_records_throw before hit after 0 w1 Hb Hn) in Hok.
    discriminate. }
  destruct (hits_to_records_ok hits 0 w1 Hdist) as (records' & E & Hshape).
  rewrite E in Hok. injection Hok as <-.
  apply Forall_forall. intros record Hrec.
  apply list_elem_of_lookup in Hrec as (i & Hi).
  destruct (Forall2_lookup_r _ _ _ _ _ Hshape Hi)
    as (hit & Hhit & Hid & Hscore & Hmeta & Hvec & Hcont & Hdoc).
  assert (Hin : hit ∈ chroma_rank env qv items).
  { apply (subseteq_take (Z.to_nat topK)). apply list_elem_of_lookup. exists i. exact Hhit. }
  destruct (Hrank qv items hit Hin) as (item & Hitem & Hhid & Hhmeta & Hhdoc).
  apply list_elem_of_In, filter_In in Hitem as [Hitem Hmatch].
  rewrite Forall_forall in Hdist.
  destruct (Hdist hit) as [d Hd]; [apply list_elem_of_lookup; exists i; exact Hhit|].
  exists item, d. split; [apply list_elem_of_In, Hitem|]. split; [exact Hmatch|].
  split; [congruence|]. split.
  { rewrite Hmeta, Hhmeta, Hhid. reflexivity. }
  split; [rewrite Hscore, Hd; reflexivity|]. split; [exact Hvec|]. split; [exact Hcont|].
  intros c r Hcr. apply Hdoc. rewrite Hhdoc, Hcr. reflexivity.
Qed.

End SearchAnswers.

(** X18.  One hit without a distance fails the whole search: when, among the
    hits that Chroma returns for the query, the hit at index [i] is the first
    that has no distance, [similaritySearch] throws
    ['No distance found for result at index i'] and returns no record. *)
Theorem similaritySearch_missing_distance env (qv : EmbeddingVector) (topK : Z)
    (filter : option Metadata) (w : World)
    (before : list QueryHit) (hit : QueryHit) (after : list QueryHit) :
  firstn (Z.to_nat topK)
    (chroma_rank env qv
       (List.filter (where_matches (where_of_filter filter)) (collection_items w)))
  = before ++ hit :: after ->
  Forall (fun h => is_Some (qh_distance h)) before ->
  qh_distance hit = None ->
  fst (similaritySearch env qv topK filter w)
  = Throw (mkError PlainError
             ("No distance found for result at index " +:+ pretty (length before))).
Proof.
  intros Hhits Hbefore Hnone.
  destruct (similaritySearch_hits env qv topK filter w) as (w1 & ->).
  rewrite Hhits, (hits_to_records_throw env before hit after 0 w1 Hbefore Hnone).
  reflexivity.
Qed.

Lemma similaritySearch_missing_distance_witness :
  fst (similaritySearch Faulty.env [Z2Qc 1] 5 None Sample.world)
  = Throw (mkError PlainError "No distance found for result at index 0").
Proof.
  apply (similaritySearch_missing_distance Faulty.env [Z2Qc 1] 5 None Sample.world []
           (mkHit (it_id Sample.item_a) None (Some (it_metadata Sample.item_a))
                  (Some (it_document Sample.item_a)))
           [mkHit (it_id Sample.item_b) None (Some (it_metadata Sample.item_b))
                  (Some (it_document Sample.item_b))]).
  - reflexivity.
  - constructor.
  - reflexivity.
Defined.

(** X19.  Every record that [similaritySearch] returns is an item of the
    collection that satisfies the filter, provided Chroma answers with items
    it was asked about: the record has the item's id, the item's metadata
    with [id] set to that id, so at every key of the filter the filter's
    value; its score is present and its vector empty; its content is the
    item's document when that is not empty.  There are at most [topK]. *)
Theorem similaritySearch_records_match_filter env (qv : EmbeddingVector) (topK : Z)
    (filter : option Metadata) (w : World) (records : list VectorRecord) :
  rank_returns_items env ->
  fst (similaritySearch env qv topK filter w) = Ok records ->
  (length records <= Z.to_nat topK)%nat /\
  Forall (fun record =>
            exists item,
              item ∈ collection_items w /\
              vr_id record = it_id item /\
              vr_metadata record !! "id" = Some (MStr (vr_id record)) /\
              (forall key, key <> "id" ->
                           vr_metadata record !! key = it_metadata item !! key) /\
              (forall key value, default ∅ filter !! key = Some value ->
                                 it_metadata item !! key = Some value) /\
              is_Some (vr_score record) /\ vr_vector record = [] /\
              (it_document item <> [] -> vr_content record = Some (it_document item)))
         records.
Proof.
  intros Hrank Hok.
  pose proof (similaritySearch_frame env qv topK filter w) as F. cbv zeta in F.
  destruct F as (_ & _ & _ & _ & Hlen). split; [apply Hlen, Hok|].
  eapply Forall_impl; [exact (similaritySearch_items env qv topK filter w records Hrank Hok)|].
  intros record (item & d & Hitem & Hmatch & Hid & Hmeta & Hscore & Hvec & _ & Hdoc).
  exists item. split; [exact Hitem|]. split; [exact Hid|].
  split; [rewrite Hmeta, Hid; apply lookup_insert_eq|].
  split; [intros key Hkey; rewrite Hmeta; apply lookup_insert_ne; congruence|].
  split; [apply where_of_filter_matches, Hmatch|].
  split; [rewrite Hscore; eexists; reflexivity|]. split; [exact Hvec|].
  intros Hne. destruct (it_document item) as [|c r] eqn:Ed; [contradiction|].
  apply Hdoc. reflexivity.
Qed.

Lemma Sample_rank_returns_items (changes : GitChangedFiles) :
  rank_returns_items (Sample.env changes).
Proof.
  intros qv items hit Hin. cbn [chroma_rank Sample.env Sample.env_with] in Hin.
  unfold Sample.rank in Hin. apply list_elem_of_fmap in Hin as (item & -> & Hitem).
  exists item. split; [|repeat split].
  clear -Hitem. induction items as [|x items IH]; cbn [fold_right] in Hitem; [inversion Hitem|].
  assert (Hins : forall sorted, item ∈ Sample.insert_by qv x sorted -> item = x \/ item ∈ sorted).
  { induction sorted as [|y sorted IHs]; cbn [Sample.insert_by].
    - intros ->%list_elem_of_singleton. left. reflexivity.
    - case_bool_decide.
      + intros [->|H']%elem_of_cons; [left; reflexivity|right; exact H'].
      + intros [->|H']%elem_of_cons; [right; apply list_elem_of_here|].
        destruct (IHs H') as [->|H'']; [left; reflexivity|].
        right. apply list_elem_of_further, H''. }
  destruct (Hins _ Hitem) as [->|H]; [apply list_elem_of_here|].
  apply list_elem_of_further, IH, H.
Qed.

Lemma similaritySearch_records_match_filter_witness :
  let env := Sample.env Sample.no_changes in
  let filter : option Metadata := Some {[ "parentId" := MStr "src/b.ts" ]} in
  let records :=
    [ mkVectorRecord (it_id Sample.item_b) (Some (Z2Qc 1 - Z2Qc 4)%Qc)
                     (Some (it_document Sample.item_b)) []
                     (<["id" := MStr (it_id Sample.item_b)]> (it_metadata Sample.item_b)) ] in
  (length records <= Z.to_nat 5)%nat /\
  Forall (fun record =>
            exists item,
              item ∈ collection_items Sample.world /\
              vr_id record = it_id item /\
              vr_metadata record !! "id" = Some (MStr (vr_id record)) /\
              (forall key, key <> "id" ->
                           vr_metadata record !! key = it_metadata item !! key) /\
              (forall key value, default ∅ filter !! key = Some value ->
                                 it_metadata item !! key = Some value) /\
              is_Some (vr_score record) /\ vr_vector record = [] /\
              (it_document item <> [] -> vr_content record = Some (it_document item)))
         records.
Proof.
  cbv zeta.
  apply (similaritySearch_records_match_filter (Sample.env Sample.no_changes)
           [Z2Qc 1] 5 (Some {[ "parentId" := MStr "src/b.ts" ]}) Sample.world).
  - apply Sample_rank_returns_items.
  - vm_compute. reflexivity.
Defined.

(** ** Searches: blank prompts, the filter, and the repository of the answers *)

Section Searches.

Variable env : Env.

Lemma takeWhile_all (p : N -> bool) (s : jsstring) :
  forallb p s = true -> takeWhile p s = s.
Proof.
  induction s as [|c r IH]; [reflexivity|].
  cbn [forallb takeWhile]. intros [-> H]%andb_true_iff. rewrite (IH H). reflexivity.
Qed.

Lemma replace_trim_newlines_blank (text : jsstring) :
  forallb is_whitespace text = true -> text <> [LF] -> replace_trim_newlines text = [].
Proof.
  intros Hws Hne. unfold replace_trim_newlines.
  rewrite (takeWhile_all _ _ Hws), (dropWhile_all _ _ Hws).
  destruct text as [|c [|d r]]; try reflexivity.
  cbn. destruct (N.eqb_spec c LF) as [->|_]; [contradiction|reflexivity].
Qed.

(** The merged filter of a search has a key, so its [where] clause exists. *)
Lemma search_filter_clause (repoId : string) (meta : option Metadata) :
  where_of_filter (Some (default ∅ meta ∪ {[ "repoId" := MStr repoId ]})) <> None.
Proof.
  unfold where_of_filter.
  set (F := default ∅ meta ∪ {[ "repoId" := MStr repoId ]}).
  assert (HF : F <> ∅).
  { intros H. apply (f_equal (fun m : Metadata => m !! "repoId")) in H.
    subst F. rewrite lookup_union, lookup_singleton_eq, lookup_empty in H.
    destruct (default ∅ meta !! "repoId"); discriminate. }
  destruct (Nat.ltb_spec 0 (size F)) as [_|H0].
  - destruct (1 <? size F)%nat; discriminate.
  - exfalso. apply HF, map_size_empty_iff. lia.
Qed.

(** The calls of a search request, and its result in chunk mode. *)
Lemma search_with_calls (mode : SearchMode) (repoId : string)
    (params : QuerySearchRequest) (w : World) :
  let K := normalizeK (req_k params) in
  let F := default ∅ (req_meta params) ∪ {[ "repoId" := MStr repoId ]} in
  let run := search_with env mode repoId params w in
  exists emb rest,
    calls (snd run) = calls w ++ emb ++ rest /\
    Forall (fun c => exists input, c = OpenAIEmbeddingsCreate input) emb /\
    (rest = [] \/
     exists setup tail,
       rest = setup ++ [ChromaQuery (match mode with ParentMode => K * 3 | ChunkMode => K end)%Z
                                    (where_of_filter (Some F))] ++ tail /\
       Forall collection_setup setup /\
       Forall (fun c => exists ids, c = BlobFindByIdIn ids) tail).
Proof.
  cbv zeta. pose proof (normalizeK_range (req_k params)) as HK.
  set (K := normalizeK (req_k params)) in *.
  set (F := default ∅ (req_meta params) ∪ {[ "repoId" := MStr repoId ]}).
  unfold search_with. fold K. fold F.
  pose proof (embedDocuments_frame env (Some [Some (req_prompt params)]) w) as Fe.
  cbv zeta in Fe. destruct Fe as (_ & _ & _ & _ & emb & Hemb & Hopenai).
  destruct (embedDocuments env (Some [Some (req_prompt params)]) w)
    as [[[|queryVector others]|e] w1] eqn:Ee; cbn [fst snd] in Hemb.
  - rewrite (bind_ok _ _ _ _ _ Ee). unfold_monad. cbn [fst snd calls].
    exists emb, []. rewrite app_nil_r. split; [exact Hemb|]. split; [exact Hopenai|].
    left. reflexivity.
  - rewrite (bind_ok _ _ _ _ _ Ee). destruct mode.
    + pose proof (retrieve_run env queryVector K (Some F) w1) as R.
      pose proof (similaritySearch_frame env queryVector (K * 3) (Some F) w1) as Fs.
      cbv zeta in Fs. destruct Fs as (_ & _ & _ & (setup & Hcalls & Hsetup) & _).
      specialize (R ltac:(lia)).
      destruct (similaritySearch env queryVector (K * 3) (Some F) w1)
        as [[childResults|e] w2]; cbn [fst snd] in Hcalls.
      * cbv zeta in R. destruct R as [_ Rcalls].
        set (parentIds := Spec.first_k_parents (String_of env) K childResults) in *.
        destruct (retrieve env queryVector K (Some F) w1) as [[r|e] w3] eqn:Er;
          cbn [fst snd] in Rcalls;
          [rewrite (bind_ok _ _ _ _ _ Er)|rewrite (bind_throw _ _ _ _ _ Er)];
          unfold ret; cbn [fst snd];
          (exists emb, (setup ++ [ChromaQuery (K * 3) (where_of_filter (Some F))]
                        ++ (if (0 <? length parentIds)%nat
                            then [BlobFindByIdIn parentIds] else [])));
          (split; [rewrite Rcalls, Hcalls, Hemb, <- !app_assoc; reflexivity|]);
          (split; [exact Hopenai|]); right;
          (eexists setup, _; split; [reflexivity|]; split; [exact Hsetup|]);
          destruct (0 <? length parentIds)%nat; repeat constructor; eexists; reflexivity.
      * rewrite (bind_throw _ _ _ _ _ R). cbn [fst snd].
        exists emb, (setup ++ [ChromaQuery (K * 3) (where_of_filter (Some F))] ++ []).
        split; [rewrite Hcalls, Hemb, app_nil_r, <- !app_assoc; reflexivity|].
        split; [exact Hopenai|]. right. exists setup, [].
        split; [reflexivity|]. split; [exact Hsetup|constructor].
    + pose proof (retrieveChunks_run env queryVector K (Some F) w1) as R.
      cbv zeta in R. destruct R as (_ & setup & Hcalls & Hsetup).
      destruct (retrieveChunks env queryVector K (Some F) w1) as [[chunks|e] w2]
        eqn:Er; cbn [fst snd] in Hcalls;
        [rewrite (bind_ok _ _ _ _ _ Er)|rewrite (bind_throw _ _ _ _ _ Er)];
        unfold ret; cbn [fst snd];
        (exists emb, (setup ++ [ChromaQuery K (where_of_filter (Some F))] ++ []));
        (split; [rewrite Hcalls, Hemb, app_nil_r, <- !app_assoc; reflexivity|]);
        (split; [exact Hopenai|]); right; exists setup, [];
        (split; [reflexivity|]); (split; [exact Hsetup|constructor]).
  - rewrite (bind_throw _ _ _ _ _ Ee). cbn [fst snd].
    exists emb, []. rewrite app_nil_r. split; [exact Hemb|]. split; [exact Hopenai|].
    left. reflexivity.
Qed.

End Searches.

(** X20.  A blank prompt is refused before anything is asked of OpenAI or
    Chroma: when the prompt is empty or consists of whitespace only (and is
    not the single line feed), [search] and [searchChunks] throw
    [BadRequestException] with the message
    ['Failed to generate embeddings for the query. Please try again.'], and
    the run has made no call and changed no store. *)
Theorem search_blank_prompt env (mode : SearchMode) (repoId : string)
    (params : QuerySearchRequest) (w : World) :
  forallb is_whitespace (req_prompt params) = true ->
  req_prompt params <> [LF] ->
  exists w',
    search_with env mode repoId params w
    = (Throw (mkError BadRequestException
                "Failed to generate embeddings for the query. Please try again."), w') /\
    only_logged w w'.
Proof.
  intros Hws Hne.
  pose proof (replace_trim_newlines_blank _ Hws Hne) as Hblank.
  unfold search_with.
  assert (He : exists w1, embedDocuments env (Some [Some (req_prompt params)]) w = (Ok [], w1)
                          /\ only_logged w w1).
  { unfold embedDocuments.
    destruct (process_texts_run [Some (req_prompt params)] 0 w) as (w1 & E & Hl).
    assert (Hkept : kept_texts [Some (req_prompt params)] = []).
    { unfold kept_texts. cbn [omap list_omap]. rewrite Hblank. reflexivity. }
    rewrite Hkept in E. cbn [map] in E.
    rewrite (bind_ok _ _ _ _ _ E). cbn [length Nat.eqb]. unfold_monad.
    eexists. split; [reflexivity|].
    eapply only_logged_trans; [exact Hl|]. repeat split. }
  destruct He as (w1 & Ee & Hl). rewrite (bind_ok _ _ _ _ _ Ee). unfold_monad.
  eexists. split; [reflexivity|].
  eapply only_logged_trans; [exact Hl|]. repeat split.
Qed.

Lemma search_blank_prompt_witness :
  exists w',
    search_with (Sample.env Sample.no_changes) ChunkMode "demo"
                (mkRequest (of_string "   ") None None) Sample.world
    = (Throw (mkError BadRequestException
                "Failed to generate embeddings for the query. Please try again."), w') /\
    only_logged Sample.world w'.
Proof.
  apply (search_blank_prompt (Sample.env Sample.no_changes) ChunkMode "demo"
           (mkRequest (of_string "   ") None None) Sample.world).
  - reflexivity.
  - discriminate.
Defined.

(** X21.  The filter of a search is [{ repoId, ...meta }]: every query that
    a search request sends to Chroma carries the [where] clause of one
    mapping, which holds the entries of [meta] and, for the key [repoId],
    the repository of the request unless [meta] has a [repoId] of its own,
    which then wins.  The clause is never absent, and besides the embedding
    request, the collection set-up and the parent lookup a search calls
    nothing. *)
Theorem search_filter_merges_repoId env (mode : SearchMode) (repoId : string)
    (params : QuerySearchRequest) (w : World) :
  exists F : Metadata,
    F !! "repoId" = Some (default (MStr repoId) (default ∅ (req_meta params) !! "repoId")) /\
    (forall key, key <> "repoId" -> F !! key = default ∅ (req_meta params) !! key) /\
    where_of_filter (Some F) <> None /\
    exists new,
      calls (snd (search_with env mode repoId params w)) = calls w ++ new /\
      Forall (fun c => (exists input, c = OpenAIEmbeddingsCreate input) \/
                       collection_setup c \/
                       (exists n, c = ChromaQuery n (where_of_filter (Some F))) \/
                       (exists ids, c = BlobFindByIdIn ids)) new.
Proof.
  exists (default ∅ (req_meta params) ∪ {[ "repoId" := MStr repoId ]}).
  split; [|split; [|split]].
  - rewrite lookup_union, lookup_singleton_eq.
    destruct (default ∅ (req_meta params) !! "repoId"); reflexivity.
  - intros key Hkey. rewrite lookup_union, lookup_singleton_ne by congruence.
    destruct (default ∅ (req_meta params) !! key); reflexivity.
  - apply search_filter_clause.
  - pose proof (search_with_calls env mode repoId params w) as H. cbv zeta in H.
    destruct H as (emb & rest & Hcalls & Hemb & Hrest).
    exists (emb ++ rest). split; [exact Hcalls|].
    apply Forall_app. split.
    + eapply Forall_impl; [exact Hemb|]. intros c Hc. left. exact Hc.
    + destruct Hrest as [->|(setup & tail & -> & Hsetup & Htail)]; [constructor|].
      apply Forall_app. split.
      * eapply Forall_impl; [exact Hsetup|]. intros c Hc. right. left. exact Hc.
      * constructor.
        -- right. right. left. eexists. reflexivity.
        -- eapply Forall_impl; [exact Htail|]. intros c Hc. right. right. right. exact Hc.
Qed.

(** X22.  Chunk search stays inside the repository: when [meta] has no
    [repoId] of its own and Chroma answers with items it was asked about,
    every chunk that [searchChunks] returns has the requested repository as
    its [repoId] (field and metadata), carries every entry of [meta] in its
    metadata, and has non-empty content. *)
Theorem searchChunks_stays_in_repository env (repoId : string)
    (params : QuerySearchRequest) (w : World) (results : list RetrievedChunk) :
  rank_returns_items env ->
  default ∅ (req_meta params) !! "repoId" = None ->
  fst (searchChunks env repoId params w) = Ok results ->
  Forall (fun chunk =>
            rc_repoId chunk = Some (MStr repoId) /\
            rc_metadata chunk !! "repoId" = Some (MStr repoId) /\
            (forall key value, default ∅ (req_meta params) !! key = Some value ->
                               key <> "id" -> rc_metadata chunk !! key = Some value) /\
            rc_content chunk <> [])
         results.
Proof.
  intros Hrank Hmeta Hok. unfold searchChunks, search_with in Hok.
  set (F := default ∅ (req_meta params) ∪ {[ "repoId" := MStr repoId ]}) in *.
  destruct (embedDocuments env (Some [Some (req_prompt params)]) w)
    as [[[|queryVector others]|e] w1] eqn:Ee.
  - rewrite (bind_ok _ _ _ _ _ Ee) in Hok. discriminate.
  - rewrite (bind_ok _ _ _ _ _ Ee) in Hok. unfold retrieveChunks in Hok.
    pose proof (similaritySearch_items env queryVector (normalizeK (req_k params))
                  (Some F) w1) as Hitems.
    destruct (similaritySearch env queryVector (normalizeK (req_k params)) (Some F) w1)
      as [[records|e] w2] eqn:Es.
    + specialize (Hitems records Hrank eq_refl).
      unfold bind, ret in Hok. rewrite Es in Hok. cbn [fst] in Hok.
      injection Hok as <-.
      apply Forall_forall. intros chunk Hchunk.
      apply list_elem_of_fmap in Hchunk as (c0 & -> & Hc0).
      apply list_elem_of_omap in Hc0 as (record & Hrec & Hsome).
      rewrite Forall_forall in Hitems.
      destruct (Hitems record Hrec)
        as (item & d & _ & Hmatch & _ & Hrmeta & _).
      pose proof (proj1 (where_of_filter_matches (Some F) item) Hmatch) as Hf.
      cbn [from_option] in Hf. unfold id in Hf.
      destruct (vr_content record) as [[|c r]|]; try discriminate.
      injection Hsome as <-. cbn [rc_repoId rc_metadata rc_content orphan_of].
      assert (Hrepo : vr_metadata record !! "repoId" = Some (MStr repoId)).
      { rewrite Hrmeta, lookup_insert_ne by discriminate. apply Hf.
        subst F. rewrite lookup_union, Hmeta, lookup_singleton_eq. reflexivity. }
      split; [exact Hrepo|]. split; [exact Hrepo|]. split; [|discriminate].
      intros key value Hkv Hkey. rewrite Hrmeta, lookup_insert_ne by congruence.
      apply Hf. subst F. rewrite lookup_union, Hkv.
      destruct ({[ "repoId" := MStr repoId ]} !! key); reflexivity.
    + unfold bind in Hok. rewrite Es in Hok. discriminate.
  - rewrite (bind_throw _ _ _ _ _ Ee) in Hok. discriminate.
Qed.

Lemma searchChunks_stays_in_repository_witness :
  let params := mkRequest (of_string "function b") (Some (Finite (Z2Qc 1)))
                          (Some {[ "parentId" := MStr "src/b.ts" ]}) in
  let results :=
    [ mkRetrieved (it_id Sample.item_b) (it_document Sample.item_b)
                  (Some (MStr "demo"))
                  (<["id" := MStr (it_id Sample.item_b)]> (it_metadata Sample.item_b)) ] in
  Forall (fun chunk =>
            rc_repoId chunk = Some (MStr "demo") /\
            rc_metadata chunk !! "repoId" = Some (MStr "demo") /\
            (forall key value, default ∅ (req_meta params) !! key = Some value ->
                               key <> "id" -> rc_metadata chunk !! key = Some value) /\
            rc_content chunk <> [])
         results.
Proof.
  cbv zeta.
  apply (searchChunks_stays_in_repository (Sample.env Sample.no_changes) "demo"
           (mkRequest (of_string "function b") (Some (Finite (Z2Qc 1)))
                      (Some {[ "parentId" := MStr "src/b.ts" ]}))
           Sample.world).
  - apply Sample_rank_returns_items.
  - reflexivity.
  - vm_compute. reflexivity.
Defined.

(** ** The repository id deduced from a URL (IngestionService) *)

Section RepoId.

Lemma all_chars_app (p : Ascii.ascii -> bool) (a b : string) :
  all_chars p (a +:+ b) = all_chars p a && all_chars p b.
Proof.
  induction a as [|c a IH]; [reflexivity|].
  rewrite append_cons. cbn [all_chars]. rewrite IH, andb_assoc. reflexivity.
Qed.

Lemma append_assoc (a b c : string) : (a +:+ b) +:+ c = a +:+ (b +:+ c).
Proof.
  induction a as [|x a IH]; [reflexivity|].
  rewrite !append_cons, IH. reflexivity.
Qed.

Lemma strip_trailing_slashes_only (s : string) :
  all_chars (fun c => Ascii.eqb c "/") s = true -> strip_trailing_slashes s = "".
Proof.
  induction s as [|c r IH]; [reflexivity|].
  cbn [all_chars strip_trailing_slashes]. intros [Hc Hr]%andb_true_iff.
  rewrite (IH Hr), Hc. reflexivity.
Qed.

Lemma strip_trailing_slashes_app (a t : string) :
  strip_trailing_slashes t <> "" ->
  strip_trailing_slashes (a +:+ t) = a +:+ strip_trailing_slashes t.
Proof.
  intros Ht. induction a as [|c a IH]; [reflexivity|].
  rewrite !append_cons. cbn [strip_trailing_slashes]. rewrite IH.
  destruct (a +:+ strip_trailing_slashes t) eqn:E; [|reflexivity].
  exfalso. destruct a; [exact (Ht E)|discriminate].
Qed.

(** The URL without its trailing slashes, when what precedes them ends in
    a character that is no slash. *)
Lemma strip_trailing_slashes_end (a : string) (c : Ascii.ascii) (slashes : string) :
  Ascii.eqb c "/" = false ->
  all_chars (fun c => Ascii.eqb c "/") slashes = true ->
  strip_trailing_slashes (a +:+ String c slashes) = a +:+ String c "".
Proof.
  intros Hc Hs.
  assert (Hend : strip_trailing_slashes (String c slashes) = String c "").
  { cbn [strip_trailing_slashes]. rewrite (strip_trailing_slashes_only _ Hs), Hc.
    reflexivity. }
  rewrite strip_trailing_slashes_app; rewrite Hend; [reflexivity|discriminate].
Qed.

Lemma last_segment_none (s : string) :
  all_chars (fun c => negb (Ascii.eqb c "/")) s = true -> last_segment s = None.
Proof.
  induction s as [|c r IH]; [reflexivity|].
  cbn [all_chars last_segment]. intros [Hc Hr]%andb_true_iff.
  rewrite (IH Hr). apply negb_true_iff in Hc. rewrite Hc. reflexivity.
Qed.

Lemma last_segment_app (base seg : string) :
  all_chars (fun c => negb (Ascii.eqb c "/")) seg = true ->
  last_segment (base +:+ String "/" seg) = Some seg.
Proof.
  intros Hseg. induction base as [|c base IH].
  - change ("" +:+ String "/" seg) with (String "/" seg). cbn [last_segment].
    rewrite (last_segment_none _ Hseg). reflexivity.
  - rewrite append_cons. cbn [last_segment]. rewrite IH. reflexivity.
Qed.

Lemma lazy_name_git (name : string) :
  name <> "" -> lazy_name (name +:+ ".git") = name.
Proof.
  induction name as [|c r IH]; [contradiction|]. intros _.
  rewrite append_cons. cbn [lazy_name].
  destruct r as [|d r].
  - reflexivity.
  - destruct (String.eqb_spec (String d r +:+ ".git") ".git") as [E|_].
    + exfalso. apply (f_equal String.length) in E.
      rewrite string_length_app in E. cbn in E. lia.
    + rewrite IH by discriminate. reflexivity.
Qed.

Lemma lazy_name_plain (name : string) :
  (forall p, name <> p +:+ ".git") -> lazy_name name = name.
Proof.
  induction name as [|c r IH]; [reflexivity|]. intros Hne.
  cbn [lazy_name]. destruct (String.eqb_spec r ".git") as [->|_].
  - exfalso. apply (Hne (String c "")). reflexivity.
  - rewrite IH; [reflexivity|]. intros p ->. apply (Hne (String c p)). reflexivity.
Qed.

Lemma safe_char_no_slash (s : string) :
  all_chars safe_char s = true -> all_chars (fun c => negb (Ascii.eqb c "/")) s = true.
Proof.
  induction s as [|c r IH]; [reflexivity|]. cbn [all_chars].
  intros [Hc Hr]%andb_true_iff. rewrite (IH Hr), andb_true_r.
  destruct (Ascii.eqb_spec c "/") as [->|_]; [discriminate Hc|reflexivity].
Qed.

(** The last character of a non-empty text. *)
Lemma string_last (s : string) :
  s <> "" -> exists a c, s = a +:+ String c "".
Proof.
  induction s as [|c r IH]; [contradiction|]. intros _.
  destruct r as [|d r].
  - exists "", c. reflexivity.
  - destruct IH as (a & x & E); [discriminate|]. exists (String c a), x.
    rewrite append_cons, <- E. reflexivity.
Qed.

(** A URL that ends, before its trailing slashes, in a slash-free segment. *)
Lemma extractRepoId_segment (base seg slashes : string) (w : World) :
  seg <> "" ->
  all_chars (fun c => negb (Ascii.eqb c "/")) seg = true ->
  all_chars (fun c => Ascii.eqb c "/") slashes = true ->
  all_chars safe_char (lazy_name seg) = true ->
  extractRepoId (base +:+ "/" +:+ seg +:+ slashes) w = (Ok (lazy_name seg), w).
Proof.
  intros Hne Hseg Hsl Hsafe.
  destruct (string_last seg Hne) as (a & c & Eseg).
  assert (Hc : Ascii.eqb c "/" = false).
  { rewrite Eseg, all_chars_app in Hseg. apply andb_true_iff in Hseg as [_ Hc].
    cbn [all_chars] in Hc. rewrite andb_true_r in Hc. apply negb_true_iff, Hc. }
  assert (Hclean : strip_trailing_slashes (base +:+ "/" +:+ seg +:+ slashes)
                   = base +:+ String "/" seg).
  { change (base +:+ "/" +:+ seg +:+ slashes) with (base +:+ String "/" (seg +:+ slashes)).
    rewrite Eseg at 1. rewrite append_assoc. rewrite <- append_cons, <- append_assoc.
    change (String c "" +:+ slashes) with (String c slashes).
    rewrite (strip_trailing_slashes_end _ c slashes Hc Hsl).
    rewrite append_assoc, append_cons, <- Eseg. reflexivity. }
  unfold extractRepoId. cbv zeta. rewrite Hclean, (last_segment_app _ _ Hseg).
  destruct seg as [|x r]; [contradiction|]. rewrite Hsafe. reflexivity.
Qed.

End RepoId.

(** X23.  The repository id deduced from a URL is safe to use as a key:
    whenever [extractRepoId] returns, the name is not empty and consists of
    letters, digits, dots, underscores and hyphens only, and nothing was
    logged; in every other case it logs one error and throws
    [BadRequestException], never another kind of error. *)
Theorem extractRepoId_safe_or_bad_request (url : string) (w : World) :
  match extractRepoId url w with
  | (Ok repoName, w') =>
      repoName <> "" /\ all_chars safe_char repoName = true /\ w' = w
  | (Throw e, w') =>
      err_kind e = BadRequestException /\ only_logged w w' /\
      exists message, logs w' = logs w ++ [(Error, message)]
  end.
Proof.
  unfold extractRepoId. cbv zeta.
  destruct (last_segment (strip_trailing_slashes url)) as [[|c r]|].
  - unfold_monad. cbn. split; [reflexivity|]. split; [repeat split|].
    eexists. reflexivity.
  - destruct (all_chars safe_char (lazy_name (String c r))) eqn:Hsafe; cbn [negb].
    + unfold ret. split; [|split; [exact Hsafe|reflexivity]].
      cbn [lazy_name]. destruct (String.eqb r ".git"); discriminate.
    + unfold_monad. cbn. split; [reflexivity|]. split; [repeat split|].
      eexists. reflexivity.
  - unfold_monad. cbn. split; [reflexivity|]. split; [repeat split|].
    eexists. reflexivity.
Qed.

(** X24.  The repository id of a repository URL is the last path segment
    without its [.git] suffix: for a non-empty name of safe characters,
    [extractRepoId] returns the name for any URL that ends in
    [/name.git], followed by any number of slashes; and for one that ends
    in [/name], provided the name itself does not end in [.git]. *)
Theorem extractRepoId_of_repository_url (base name slashes : string) (w : World) :
  name <> "" ->
  all_chars safe_char name = true ->
  all_chars (fun c => Ascii.eqb c "/") slashes = true ->
  extractRepoId (base +:+ "/" +:+ (name +:+ ".git") +:+ slashes) w = (Ok name, w) /\
  ((forall p, name <> p +:+ ".git") ->
   extractRepoId (base +:+ "/" +:+ name +:+ slashes) w = (Ok name, w)).
Proof.
  intros Hne Hsafe Hsl.
  pose proof (safe_char_no_slash _ Hsafe) as Hns. split.
  - rewrite <- (lazy_name_git name Hne) at 2.
    apply extractRepoId_segment; try assumption.
    + destruct name; [contradiction|discriminate].
    + rewrite all_chars_app, Hns. reflexivity.
    + rewrite (lazy_name_git name Hne). exact Hsafe.
  - intros Hplain. rewrite <- (lazy_name_plain name Hplain) at 2.
    apply extractRepoId_segment; try assumption.
    rewrite (lazy_name_plain name Hplain). exact Hsafe.
Qed.

Lemma extractRepoId_of_repository_url_witness :
  extractRepoId ("https://github.com/twodHQ" +:+ "/" +:+ ("rephole" +:+ ".git") +:+ "//")
                Sample.world = (Ok "rephole", Sample.world) /\
  ((forall p, "rephole" <> p +:+ ".git") ->
   extractRepoId ("https://github.com/twodHQ" +:+ "/" +:+ "rephole" +:+ "//") Sample.world
   = (Ok "rephole", Sample.world)).
Proof.
  apply (extractRepoId_of_repository_url "https://github.com/twodHQ" "rephole" "//"
           Sample.world).
  - discriminate.
  - reflexivity.
  - reflexivity.
Defined.

(** The cases of the repository's tests of [extractRepoId], evaluated. *)
Example extractRepoId_tests :
  let result url := fst (extractRepoId url Sample.world) in
  let rejected url := match result url with
                      | Throw e => err_kind e = BadRequestException
                      | Ok _ => False
                      end in
  result "https://github.com/twodHQ/rephole.git" = Ok "rephole" /\
  result "https://github.com/twodHQ/rephole" = Ok "rephole" /\
  result "https://github.com/org/my-awesome-repo.git" = Ok "my-awesome-repo" /\
  result "https://github.com/org/my_repo_name.git" = Ok "my_repo_name" /\
  result "https://github.com/org/repo.name.git" = Ok "repo.name" /\
  result "https://gitlab.com/group/subgroup/project.git" = Ok "project" /\
  result "https://bitbucket.org/team/repo-name.git" = Ok "repo-name" /\
  result "https://github.com/org/repo/" = Ok "repo" /\
  result "https://github.com/org/repo///" = Ok "repo" /\
  rejected "not-a-valid-url" /\
  rejected "https://github.com/org/repo<name>.git".
Proof. vm_compute. repeat split. Qed.

(** ** Reading git's output (GitService) *)

Section GitParsing.

Import GitOutput.

Lemma has_false (c : N) (s : jsstring) : has c s = false <-> c ∉ s.
Proof.
  unfold has. induction s as [|x s IH]; cbn [existsb].
  - split; [intros _; apply not_elem_of_nil|reflexivity].
  - rewrite orb_false_iff, IH, not_elem_of_cons, N.eqb_neq. reflexivity.
Qed.

Lemma split_units_none (sep : N) (s : jsstring) :
  sep ∉ s -> split_units sep s = [s].
Proof.
  induction s as [|c r IH]; [reflexivity|].
  intros [Hc Hr]%not_elem_of_cons. cbn [split_units].
  destruct (N.eqb_spec c sep) as [->|_]; [contradiction|].
  rewrite (IH Hr). reflexivity.
Qed.

Lemma split_units_app (sep : N) (a b : jsstring) :
  sep ∉ a -> split_units sep (a ++ sep :: b) = a :: split_units sep b.
Proof.
  induction a as [|c a IH]; intros Ha.
  - cbn [app split_units]. rewrite N.eqb_refl. reflexivity.
  - apply not_elem_of_cons in Ha as [Hc Ha]. cbn [app split_units].
    destruct (N.eqb_spec c sep) as [->|_]; [contradiction|].
    rewrite (IH Ha). reflexivity.
Qed.

Lemma split_units_lines (ls : list jsstring) :
  ls <> [] -> Forall (fun l => LF ∉ l) ls -> split_units LF (lines ls) = ls.
Proof.
  intros Hne Hall. induction Hall as [|l rest Hl Hrest IH]; [contradiction|].
  destruct rest as [|l' rest].
  - cbn [lines]. apply split_units_none, Hl.
  - change (lines (l :: l' :: rest)) with (l ++ LF :: lines (l' :: rest)).
    rewrite (split_units_app _ _ _ Hl), IH by discriminate. reflexivity.
Qed.

Lemma well_formed_fields (e : Entry) :
  well_formed e = true ->
  (TAB ∉ status e) /\ (LF ∉ status e) /\ (TAB ∉ path e) /\ (LF ∉ path e) /\
  match target e with
  | Some t => (TAB ∉ t) /\ (LF ∉ t)
  | None => True
  end /\
  (exists c r, status e = c :: r /\ is_whitespace c = false).
Proof.
  unfold well_formed. rewrite !andb_true_iff, !negb_true_iff, !has_false.
  intros (((((H1 & H2) & H3) & H4) & H5) & H6).
  split; [exact H1|]. split; [exact H2|]. split; [exact H3|]. split; [exact H4|]. split.
  - destruct (target e) as [t|]; [|exact I].
    apply andb_true_iff in H5 as [H5 H5'].
    apply negb_true_iff, has_false in H5. apply negb_true_iff, has_false in H5'.
    split; assumption.
  - destruct (status e) as [|c r]; [discriminate|]. exists c, r.
    split; [reflexivity|]. apply negb_true_iff, H6.
Qed.

Lemma line_no_line_feed (e : Entry) : well_formed e = true -> LF ∉ line e.
Proof.
  intros (H1 & H2 & H3 & H4 & H5 & _)%well_formed_fields. unfold line.
  rewrite elem_of_app, elem_of_cons, elem_of_app.
  intros [H|[H|[H|H]]]; [exact (H2 H)|discriminate H|exact (H4 H)|].
  destruct (target e) as [t|]; [|inversion H].
  apply elem_of_cons in H as [H|H]; [discriminate H|].
  exact (proj2 H5 H).
Qed.

Lemma split_units_line (e : Entry) :
  well_formed e = true ->
  split_units TAB (line e)
  = status e :: path e :: match target e with Some t => [t] | None => [] end.
Proof.
  intros (H1 & _ & H3 & _ & H5 & _)%well_formed_fields. unfold line.
  rewrite (split_units_app _ _ _ H1). f_equal.
  destruct (target e) as [t|].
  - rewrite (split_units_app _ _ _ H3). f_equal.
    apply split_units_none, H5.
  - rewrite app_nil_r. apply split_units_none, H3.
Qed.

(** The four letters are tested in order; an entry lands in one list at
    most. *)
Lemma parse_diff_line_entry (result : ChangedPaths) (e : Entry) :
  well_formed e = true ->
  parse_diff_line result (line e)
  = mkPaths (paths_added result ++ with_status 65 [e])
            (paths_modified result ++ with_status 77 [e])
            (paths_deleted result ++ with_status 68 [e])
            (paths_renamed result ++ renamed_to [e]).
Proof.
  intros Hwf. unfold parse_diff_line. rewrite (split_units_line e Hwf).
  unfold with_status, renamed_to. cbn [omap list_omap].
  destruct (status e) as [|c r]; cbn [startsWith].
  - rewrite !app_nil_r. destruct result; reflexivity.
  - destruct (N.eqb_spec c 65) as [->|_]; [cbn; rewrite !app_nil_r; reflexivity|].
    destruct (N.eqb_spec c 77) as [->|_]; [cbn; rewrite !app_nil_r; reflexivity|].
    destruct (N.eqb_spec c 68) as [->|_]; [cbn; rewrite !app_nil_r; reflexivity|].
    destruct (N.eqb_spec c 82) as [->|_].
    + cbn. rewrite !app_nil_r. destruct (target e) as [[|x t]|]; reflexivity.
    + rewrite !app_nil_r. destruct result; reflexivity.
Qed.

Lemma omap_snoc {A B} (f : A -> option B) (l : list A) (x : A) :
  omap f (l ++ [x]) = omap f l ++ omap f [x].
Proof. induction l as [|y l IH]; [reflexivity|]. cbn. rewrite IH. destruct (f y); reflexivity. Qed.

Lemma parse_diff_lines (entries : list Entry) :
  Forall (fun e => well_formed e = true) entries ->
  fold_left parse_diff_line (map line entries) (mkPaths [] [] [] [])
  = mkPaths (with_status 65 entries) (with_status 77 entries)
            (with_status 68 entries) (renamed_to entries).
Proof.
  induction entries as [|e entries IH] using rev_ind; [reflexivity|].
  intros [Hall He]%Forall_app. apply Forall_inv in He.
  rewrite map_app, fold_left_app, (IH Hall). cbn [map fold_left].
  rewrite (parse_diff_line_entry _ e He). cbn [paths_added paths_modified
    paths_deleted paths_renamed].
  unfold with_status, renamed_to. rewrite !omap_snoc. reflexivity.
Qed.

Lemma dropWhile_head (p : N -> bool) (c : N) (s : jsstring) :
  p c = false -> dropWhile p (c :: s) = c :: s.
Proof. intros H. cbn [dropWhile]. rewrite H. reflexivity. Qed.

Lemma dropWhile_app_all (p : N -> bool) (a b : jsstring) :
  forallb p a = true -> dropWhile p (a ++ b) = dropWhile p b.
Proof.
  induction a as [|c a IH]; [reflexivity|].
  cbn [forallb app dropWhile]. intros [-> H]%andb_true_iff. exact (IH H).
Qed.

(** [trim] takes off the blank tail and nothing else of a text that begins
    and ends with code units that are no whitespace. *)
Lemma trim_tail (s tail : jsstring) (c : N) (r : jsstring) :
  s = c :: r -> is_whitespace c = false -> ends_tight s = true ->
  forallb is_whitespace tail = true ->
  trim (s ++ tail) = s.
Proof.
  intros Hs Hc Hend Htail. unfold trim.
  rewrite Hs at 1. cbn [app]. rewrite (dropWhile_head _ _ _ Hc).
  change (c :: r ++ tail) with ((c :: r) ++ tail). rewrite <- Hs.
  rewrite rev_app_distr, dropWhile_app_all by (rewrite forallb_rev; exact Htail).
  unfold ends_tight in Hend. destruct (rev s) as [|x l] eqn:Er; [discriminate|].
  apply negb_true_iff in Hend. rewrite (dropWhile_head _ _ _ Hend), <- Er.
  apply rev_involutive.
Qed.

Lemma lines_head (e : Entry) (entries : list Entry) :
  well_formed e = true ->
  exists c r, lines (map line (e :: entries)) = c :: r /\ is_whitespace c = false.
Proof.
  intros (_ & _ & _ & _ & _ & c & r & Hst & Hc)%well_formed_fields.
  cbn [map]. destruct (map line entries) as [|l rest]; cbn [lines]; unfold line;
    rewrite Hst; cbn [app]; eexists _, _; (split; [reflexivity|exact Hc]).
Qed.

End GitParsing.

(** X25.  [getChangedFiles] reads git's name-status output entry by entry:
    for output made of well-formed lines (status, tab, path, and for
    renames a tab and the new path; no tab or line feed inside a field)
    followed by any blank tail, the added, modified and deleted lists are
    the paths of the entries whose status begins with A, M and D, in order,
    and the renamed list holds only the new names of the R entries.  The
    old path of a rename and entries of any other status (copies, type
    changes) are in no list. *)
Theorem parse_name_status_entries (entries : list GitOutput.Entry) (tail : jsstring) :
  entries <> [] ->
  Forall (fun e => GitOutput.well_formed e = true) entries ->
  GitOutput.ends_tight (GitOutput.lines (map GitOutput.line entries)) = true ->
  forallb is_whitespace tail = true ->
  parse_name_status (GitOutput.lines (map GitOutput.line entries) ++ tail)
  = mkPaths (GitOutput.with_status 65 entries) (GitOutput.with_status 77 entries)
            (GitOutput.with_status 68 entries) (GitOutput.renamed_to entries).
Proof.
  intros Hne Hall Hend Htail. destruct entries as [|e entries]; [contradiction|].
  destruct (lines_head e entries (Forall_inv Hall)) as (c & r & Hhead & Hc).
  unfold parse_name_status.
  rewrite (trim_tail _ tail c r Hhead Hc Hend Htail).
  rewrite Hhead at 1. cbn [length Nat.eqb].
  rewrite split_units_lines.
  - apply parse_diff_lines, Hall.
  - discriminate.
  - apply Forall_forall. intros l (e' & -> & Hin)%list_elem_of_fmap.
    apply line_no_line_feed. rewrite Forall_forall in Hall. apply Hall, Hin.
Qed.

Lemma parse_name_status_entries_witness :
  let entries :=
    [ GitOutput.mkEntry (of_string "A") (of_string "src/new.ts") None;
      GitOutput.mkEntry (of_string "R100") (of_string "src/old.ts")
                        (Some (of_string "src/moved.ts"));
      GitOutput.mkEntry (of_string "D") (of_string "src/gone.ts") None;
      GitOutput.mkEntry (of_string "C75") (of_string "src/a.ts")
                        (Some (of_string "src/copy.ts"));
      GitOutput.mkEntry (of_string "M") (of_string "README.md") None ] in
  parse_name_status (GitOutput.lines (map GitOutput.line entries) ++ [LF])
  = mkPaths [of_string "src/new.ts"] [of_string "README.md"] [of_string "src/gone.ts"]
            [of_string "src/moved.ts"].
Proof.
  cbv zeta.
  apply (parse_name_status_entries
           [ GitOutput.mkEntry (of_string "A") (of_string "src/new.ts") None;
             GitOutput.mkEntry (of_string "R100") (of_string "src/old.ts")
                               (Some (of_string "src/moved.ts"));
             GitOutput.mkEntry (of_string "D") (of_string "src/gone.ts") None;
             GitOutput.mkEntry (of_string "C75") (of_string "src/a.ts")
                               (Some (of_string "src/copy.ts"));
             GitOutput.mkEntry (of_string "M") (of_string "README.md") None ]
           [LF]).
  - discriminate.
  - repeat constructor.
  - reflexivity.
  - reflexivity.
Defined.

(** X26.  On the first run every tracked file is reported as added: for the
    output of [git ls-files], one non-empty path per line with a final line
    feed, [getChangedFiles] returns exactly these paths as added, in order,
    and nothing as modified, deleted or renamed. *)
Theorem tracked_files_all_added (files : list jsstring) :
  Forall (fun f => f <> [] /\ LF ∉ f) files ->
  tracked_files (GitOutput.lines files ++ [LF]) = mkPaths files [] [] [].
Proof.
  intros Hall. unfold tracked_files. f_equal.
  destruct files as [|f0 files0]; [reflexivity|].
  assert (Hsplit : forall (f : jsstring) (rest : list jsstring),
            Forall (fun f => f <> [] /\ LF ∉ f) (f :: rest) ->
            split_units LF (GitOutput.lines (f :: rest) ++ [LF]) = (f :: rest) ++ [[]]).
  { intros f rest. revert f. induction rest as [|g rest IH]; intros f Hfr.
    - apply Forall_inv in Hfr as [_ Hf].
      cbn [GitOutput.lines]. rewrite (split_units_app _ _ _ Hf). reflexivity.
    - pose proof (Forall_inv Hfr) as [_ Hf]. apply Forall_inv_tail in Hfr.
      change (GitOutput.lines (f :: g :: rest))
        with (f ++ LF :: GitOutput.lines (g :: rest)).
      rewrite <- app_assoc. cbn [app]. rewrite (split_units_app _ _ _ Hf), (IH g Hfr).
      reflexivity. }
  rewrite (Hsplit f0 files0 Hall), List.filter_app.
  change (List.filter (fun f : list N => (0 <? length f)%nat) [[]]) with (@nil (list N)).
  rewrite app_nil_r. apply filter_all_true, forallb_forall.
  intros f Hin. apply list_elem_of_In in Hin. rewrite Forall_forall in Hall.
  destruct (Hall f Hin) as [Hne _]. destruct f; [contradiction|reflexivity].
Qed.

Lemma tracked_files_all_added_witness :
  tracked_files (GitOutput.lines [of_string "README.md"; of_string "src/a.ts"] ++ [LF])
  = mkPaths [of_string "README.md"; of_string "src/a.ts"] [] [] [].
Proof.
  apply (tracked_files_all_added [of_string "README.md"; of_string "src/a.ts"]).
  repeat constructor; discriminate || (apply (bool_decide_unpack _); vm_compute; exact I).
Defined.

(** X27.  The worker never reads the list of renamed files: whatever git
    reports as renamed, and whatever is put in its place, a job makes the
    same calls, leaves the same stores and logs, and returns the same
    result.  The new path of a renamed file is therefore not ingested and
    the vectors of its old path are not removed on account of the rename. *)
Theorem process_ignores_renamed env (rename : list string -> list string)
    (job : RepoIngestionJobData) (w : World) :
  process (with_renamed rename env) job w = process env job w.
Proof.
  unfold process.
  destruct (sanitizeMeta (job_meta job) w) as [[sm|e] w1] eqn:E;
    [rewrite !(bind_ok _ _ _ _ _ E)|rewrite !(bind_throw _ _ _ _ _ E); reflexivity].
  change (getRepoState (with_renamed rename env)) with (getRepoState env).
  destruct (getRepoState env (job_repoUrl job) w1) as [[state|e] w2] eqn:Es;
    [rewrite !(bind_ok _ _ _ _ _ Es)|rewrite !(bind_throw _ _ _ _ _ Es); reflexivity].
  unfold bind at 1 3. unfold lift at 1 3.
  cbn [git_getCurrentCommit with_renamed].
  destruct (git_getCurrentCommit env (state_localPath state)) as [head|e]; [|reflexivity].
  unfold bind at 1 4. unfold lift at 1 2.
  cbn [git_getChangedFiles with_renamed].
  destruct (git_getChangedFiles env (state_localPath state) _) as [changes|e];
    [|reflexivity].
  cbn [added modified deleted].
  reflexivity.
Qed.

(** ** Parent blobs written by a job (RepoUpdateProcessor) *)

Section StoredParents.

Variable env : Env.

(** The content store after the loop body for one file. *)
Lemma process_file_blobs state repoId userId sanitizedMeta (file : string) (w : World) :
  content_blobs (snd (process_file env state repoId userId sanitizedMeta file w))
  = if isBinaryFile file then content_blobs w
    else match fs_readFileSync env (state_localPath state +:+ "/" +:+ file) with
         | Ok content =>
             save_blob (mkBlob file (Some repoId) (sanitizeContent_text content)
                               sanitizedMeta)
                       (content_blobs w)
         | Throw _ => content_blobs w
         end.
Proof.
  unfold process_file. destruct (isBinaryFile file); [reflexivity|].
  destruct (fs_readFileSync env (state_localPath state +:+ "/" +:+ file)) as [content|e];
    [|reflexivity].
  destruct (saveParent_run file content (Some repoId) (Some sanitizedMeta) w)
    as (w1 & E1 & Hb1 & _).
  rewrite (bind_ok _ _ _ _ _ E1). cbn [from_option] in Hb1. unfold id in Hb1.
  rewrite <- Hb1.
  destruct (split_only_logged env file content w1) as (chunks & w2 & E2 & _ & _ & Hb2 & _).
  rewrite (bind_ok _ _ _ _ _ E2). rewrite <- Hb2.
  match goal with |- context [List.filter ?p chunks] => set (semantic := List.filter p chunks) end.
  destruct (length semantic =? 0)%nat; [reflexivity|].
  pose proof (embedDocuments_frame env
                (Some (map (fun chunk => Some (chunk_content chunk)) semantic)) w2) as F.
  cbv zeta in F. destruct F as (_ & _ & Hb3 & _).
  destruct (embedDocuments env
              (Some (map (fun chunk => Some (chunk_content chunk)) semantic)) w2)
    as [[vectors|e] w3] eqn:E3; cbn [snd] in Hb3.
  - rewrite (bind_ok _ _ _ _ _ E3). cbv zeta.
    set (records := chunks_to_records env state repoId userId sanitizedMeta file vectors semantic).
    set (warn := if negb (length (map vr_id records) =? length (Set_from (map vr_id records)))%nat
                 then _ else _).
    assert (Hwarn : exists w4, warn w3 = (Ok tt, w4) /\ content_blobs w4 = content_blobs w3).
    { subst warn. destruct (negb _); eexists; repeat split. }
    destruct Hwarn as (w4 & E4 & Hb4). rewrite (bind_ok _ _ _ _ _ E4).
    destruct (upsert_tables env records w4) as [Hb5 _].
    etransitivity; [exact Hb5|]. rewrite Hb4. exact Hb3.
  - rewrite (bind_throw _ _ _ _ _ E3). cbn [snd]. exact Hb3.
Qed.

(** A row that is what the loop writes for its own path survives the loop
    over any files, and the row of every file of a completed loop is
    there. *)
Lemma for_each_process_file_rows state repoId userId sanitizedMeta
    (files : list string) (w : World) (file : string) (content : jsstring) :
  isBinaryFile file = false ->
  fs_readFileSync env (state_localPath state +:+ "/" +:+ file) = Ok content ->
  let row := mkBlob file (Some repoId) (sanitizeContent_text content) sanitizedMeta in
  let run := for_each files (process_file env state repoId userId sanitizedMeta) w in
  (row ∈ content_blobs w -> row ∈ content_blobs (snd run)) /\
  (fst run = Ok tt -> file ∈ files -> row ∈ content_blobs (snd run)).
Proof.
  intros Hbin Hread. cbv zeta.
  set (row := mkBlob file (Some repoId) (sanitizeContent_text content) sanitizedMeta).
  assert (Hstep : forall f (w0 : World),
            (row ∈ content_blobs w0 \/ f = file) ->
            row ∈ content_blobs
                    (snd (process_file env state repoId userId sanitizedMeta f w0))).
  { intros f w0 Hrow. rewrite process_file_blobs.
    destruct (String.eqb_spec f file) as [->|Hne].
    - rewrite Hbin, Hread. apply save_blob_in.
    - destruct Hrow as [Hrow|]; [|contradiction].
      destruct (isBinaryFile f); [exact Hrow|].
      destruct (fs_readFileSync env (state_localPath state +:+ "/" +:+ f)) as [c|e];
        [|exact Hrow].
      apply save_blob_keeps; [exact Hrow|]. unfold row. cbn [blob_id]. congruence. }
  revert w. induction files as [|f rest IH]; intros w.
  - cbn. split; [auto|]. intros _ Hin. inversion Hin.
  - cbn [for_each].
    destruct (process_file env state repoId userId sanitizedMeta f w) as [[[]|e] w1] eqn:E.
    + rewrite (bind_ok _ _ _ _ _ E). destruct (IH w1) as [Hkeep Hall].
      pose proof (Hstep f w) as Hs. rewrite E in Hs. cbn [snd] in Hs. split.
      * intros Hrow. apply Hkeep, Hs. left. exact Hrow.
      * intros Hok [->|Hin]%elem_of_cons.
        -- apply Hkeep, Hs. right. reflexivity.
        -- apply Hall; assumption.
    + rewrite (bind_throw _ _ _ _ _ E). cbn [fst snd].
      pose proof (Hstep f w) as Hs. rewrite E in Hs. cbn [snd] in Hs. split.
      * intros Hrow. apply Hs. left. exact Hrow.
      * intros [=].
Qed.

End StoredParents.

(** X28.  A completed job has stored the parent of every file it was given:
    for a known repository, when the job returns [undefined], every added
    or modified file that is not binary and could be read has a row in the
    content store under its path, holding the sanitized content of the
    file, the job's repository id and the sanitized user metadata. *)
Theorem process_stores_parents env (job : RepoIngestionJobData)
    (state : RepoStateEntity) (w : World) (changes : GitChangedFiles)
    (file : string) (content : jsstring) :
  List.find (fun s => String.eqb (state_repoUrl s) (job_repoUrl job)) (repo_states w)
    = Some state ->
  git_getChangedFiles env (state_localPath state)
    (match state_lastProcessedCommit state with
     | Some c => if String.eqb c "" then None else Some c
     | None => None
     end) = Ok changes ->
  file ∈ added changes ++ modified changes ->
  isBinaryFile file = false ->
  fs_readFileSync env (state_localPath state +:+ "/" +:+ file) = Ok content ->
  fst (process env job w) = Ok None ->
  exists sanitizedMeta,
    fst (sanitizeMeta (job_meta job) w) = Ok sanitizedMeta /\
    mkBlob file (Some (job_repoId job)) (sanitizeContent_text content) sanitizedMeta
      ∈ content_blobs (snd (process env job w)).
Proof.
  intros Hstate Hchanges Hfile Hbin Hread Hok.
  pose proof (sanitizeMeta_only_logged (job_meta job) w) as Hl.
  destruct (sanitizeMeta_reserved (job_meta job) w) as (sm & w1 & E & _).
  rewrite E in Hl. cbn [snd] in Hl. destruct Hl as (_ & _ & _ & Hs1 & _).
  exists sm. split; [rewrite E; reflexivity|].
  destruct (process env job w) as [r w'] eqn:Ep. cbn [fst snd] in Hok |- *.
  subst r. revert Ep.
  unfold process. rewrite (bind_ok _ _ _ _ _ E).
  assert (Es : getRepoState env (job_repoUrl job) w1 = (Ok state, w1)).
  { unfold getRepoState, bind, get_world. rewrite Hs1, Hstate. reflexivity. }
  rewrite (bind_ok _ _ _ _ _ Es).
  unfold bind at 1. unfold lift at 1.
  destruct (git_getCurrentCommit env (state_localPath state)) as [head|e]; [|intros [=]].
  unfold bind at 1. unfold lift at 1. rewrite Hchanges.
  destruct ((length (added changes) =? 0)%nat && (length (modified changes) =? 0)%nat);
    [intros [=]|].
  set (del := if (0 <? length (deleted changes))%nat
              then deleteDocuments env (deleted changes) else ret tt).
  assert (Hdel : exists w2, del w1 = (Ok tt, w2)).
  { subst del. destruct (0 <? length (deleted changes))%nat.
    - destruct (deleteDocuments_run env (deleted changes) w1) as (w2 & setup & Ed & _).
      exists w2. exact Ed.
    - exists w1. reflexivity. }
  destruct Hdel as (w2 & Ed). rewrite (bind_ok _ _ _ _ _ Ed).
  pose proof (for_each_process_file_rows env state (job_repoId job) (job_userId job) sm
                (added changes ++ modified changes) w2 file content Hbin Hread) as F.
  cbv zeta in F. destruct F as [_ Hall].
  destruct (for_each (added changes ++ modified changes)
              (process_file env state (job_repoId job) (job_userId job) sm) w2)
    as [[[]|e] w3] eqn:Ef; cbn [fst snd] in Hall.
  - rewrite (bind_ok _ _ _ _ _ Ef). unfold repoStateRepo_save.
    unfold bind, log_call, get_world, set_states, modify, ret.
    intros [= <-]. cbn [content_blobs].
    apply Hall; [reflexivity|exact Hfile].
  - rewrite (bind_throw _ _ _ _ _ Ef). intros [=].
Qed.

Lemma process_stores_parents_witness :
  let env := Sample.env (mkChanges ["src/c.ts"] [] ["src/b.ts"] []) in
  exists sanitizedMeta,
    fst (sanitizeMeta (job_meta Sample.job) Sample.world) = Ok sanitizedMeta /\
    mkBlob "src/c.ts" (Some (job_repoId Sample.job))
           (sanitizeContent_text (of_string "function c() {}")) sanitizedMeta
      ∈ content_blobs (snd (process env Sample.job Sample.world)).
Proof.
  cbv zeta.
  apply (process_stores_parents (Sample.env (mkChanges ["src/c.ts"] [] ["src/b.ts"] []))
           Sample.job Sample.state_demo Sample.world
           (mkChanges ["src/c.ts"] [] ["src/b.ts"] []) "src/c.ts"
           (of_string "function c() {}")).
  - reflexivity.
  - reflexivity.
  - apply list_elem_of_here.
  - vm_compute. reflexivity.
  - reflexivity.
  - vm_compute. reflexivity.
Defined.

(** ** Chunk ids tell blocks apart (AstSplitterService) *)

Section ChunkIds.

Lemma append_inv_head (a b c : string) : a +:+ b = a +:+ c -> b = c.
Proof.
  induction a as [|x a IH]; [intros H; exact H|].
  rewrite !append_cons. intros [= H]. exact (IH H).
Qed.

(** Two texts cut at their first colon. *)
Lemma first_colon_inv (a a' r r' : string) :
  no_colon a = true -> no_colon a' = true ->
  a +:+ String ":" r = a' +:+ String ":" r' -> a = a' /\ r = r'.
Proof.
  revert a'. induction a as [|c a IH]; intros [|c' a'] Ha Ha'.
  - intros [= ->]. split; reflexivity.
  - rewrite append_cons. intros [= <- _]. discriminate Ha'.
  - rewrite append_cons. intros [= -> _]. discriminate Ha.
  - rewrite !append_cons. intros [= -> H].
    unfold no_colon in Ha, Ha'. cbn [all_chars] in Ha, Ha'.
    apply andb_true_iff in Ha as [_ Ha]. apply andb_true_iff in Ha' as [_ Ha'].
    destruct (IH a' Ha Ha' H) as [-> ->]. split; reflexivity.
Qed.

End ChunkIds.

(** X29.  Chunk ids tell the blocks of a file apart by name, node type and
    start line: when names and node types contain no colon, two blocks of
    the same file get the same chunk id if and only if they have the same
    name, the same node type and the same start line.  A getter and a
    setter of one property, on the same line, get different ids. *)
Theorem generateChunkId_injective (fileName name name' nodeType nodeType' : string)
    (startLine startLine' : Z) :
  no_colon name = true -> no_colon name' = true ->
  no_colon nodeType = true -> no_colon nodeType' = true ->
  generateChunkId fileName name nodeType startLine
  = generateChunkId fileName name' nodeType' startLine'
  <-> name = name' /\ nodeType = nodeType' /\ startLine = startLine'.
Proof.
  intros Hn Hn' Ht Ht'. split; [|intros (-> & -> & ->); reflexivity].
  intros Heq. unfold generateChunkId in Heq.
  change (fileName +:+ ":" +:+ name +:+ ":" +:+ nodeType +:+ ":L" +:+ pretty startLine)
    with (fileName +:+ String ":" (name +:+ String ":"
            (nodeType +:+ String ":" (String "L" (pretty startLine))))) in Heq.
  change (fileName +:+ ":" +:+ name' +:+ ":" +:+ nodeType' +:+ ":L" +:+ pretty startLine')
    with (fileName +:+ String ":" (name' +:+ String ":"
            (nodeType' +:+ String ":" (String "L" (pretty startLine'))))) in Heq.
  apply append_inv_head in Heq. injection Heq as Heq.
  apply first_colon_inv in Heq as [-> Heq]; [|assumption..].
  apply first_colon_inv in Heq as [-> Heq]; [|assumption..].
  injection Heq as Heq. apply (inj pretty) in Heq. subst. repeat split.
Qed.

Lemma generateChunkId_injective_witness :
  generateChunkId "src/a.ts" "value" "get_accessor" 12
  <> generateChunkId "src/a.ts" "value" "set_accessor" 12 /\
  generateChunkId "src/a.ts" "value" "get_accessor" 12
  <> generateChunkId "src/a.ts" "value" "get_accessor" 15.
Proof.
  split; intros Heq.
  - apply (generateChunkId_injective "src/a.ts" "value" "value"
             "get_accessor" "set_accessor" 12 12) in Heq;
      [|reflexivity..].
    destruct Heq as (_ & Htype & _). discriminate Htype.
  - apply (generateChunkId_injective "src/a.ts" "value" "value"
             "get_accessor" "get_accessor" 12 15) in Heq;
      [|reflexivity..].
    destruct Heq as (_ & _ & Hline). discriminate Hline.
Defined.

(** ** Chunks and their vectors stay aligned (RepoUpdateProcessor) *)

Section Alignment.

Variable env : Env.

Lemma dropWhile_trim_nil (s : jsstring) :
  dropWhile is_whitespace s = [] -> trim s = [].
Proof. unfold trim. intros ->. reflexivity. Qed.

(** Text that [trim] does not empty is not emptied by the replacement of
    [embedDocuments] either. *)
Lemma replace_trim_newlines_keeps (text : jsstring) :
  trim text <> [] -> replace_trim_newlines text <> [].
Proof.
  intros Htrim.
  destruct (dropWhile is_whitespace text) as [|c r] eqn:Ed.
  { exfalso. apply Htrim, dropWhile_trim_nil, Ed. }
  assert (Hc : is_whitespace c = false).
  { clear -Ed. induction text as [|x text IH]; [discriminate|].
    cbn [dropWhile] in Ed. destruct (is_whitespace x) eqn:Ex; [exact (IH Ed)|].
    injection Ed as -> _. exact Ex. }
  assert (Hfrom : replace_from (c :: r) <> []).
  { cbn [replace_from]. rewrite Hc. cbn [andb].
    destruct (N.eqb_spec c LF) as [->|_]; [discriminate Hc|discriminate]. }
  unfold replace_trim_newlines.
  destruct (takeWhile is_whitespace text) as [|l lead] eqn:Et.
  - rewrite <- (takeWhile_nil_dropWhile _ _ Et), Ed. exact Hfrom.
  - rewrite Ed. intros H. apply app_eq_nil in H as [_ H]. exact (Hfrom H).
Qed.

Lemma kept_texts_all (chunks : list CodeChunk) :
  Forall (fun chunk => trim (chunk_content chunk) <> []) chunks ->
  kept_texts (map (fun chunk => Some (chunk_content chunk)) chunks)
  = map (fun chunk => replace_trim_newlines (chunk_content chunk)) chunks.
Proof.
  induction 1 as [|chunk rest Hc _ IH]; [reflexivity|].
  unfold kept_texts in *. cbn [map omap list_omap]. rewrite IH.
  pose proof (replace_trim_newlines_keeps _ Hc) as Hne.
  destruct (replace_trim_newlines (chunk_content chunk)); [contradiction|reflexivity].
Qed.

End Alignment.

(** X30.  Chunks and vectors stay aligned: the chunks that the worker
    embeds (those whose content is not blank) are all sent to the embedding
    endpoint, one text per chunk in chunk order and none dropped, each the
    chunk's content with its edges trimmed, line feeds replaced and the
    length capped; the answer of the endpoint is returned as it is.  So
    [vectors[idx]] is the vector computed from chunk [idx]. *)
Theorem embedDocuments_one_text_per_chunk env (semanticChunks : list CodeChunk)
    (w : World) :
  semanticChunks <> [] ->
  Forall (fun chunk => trim (chunk_content chunk) <> []) semanticChunks ->
  let cap text := if (MAX_TOKENS_PER_INPUT <? estimateTokens text)%nat
                  then substring 0 (MAX_TOKENS_PER_INPUT * 4) text else text in
  let inputs := map (fun chunk => cap (replace_trim_newlines (chunk_content chunk)))
                    semanticChunks in
  let run := embedDocuments env (Some (map (fun chunk => Some (chunk_content chunk))
                                           semanticChunks)) w in
  length inputs = length semanticChunks /\
  fst run = openai_embeddings_create env inputs /\
  calls (snd run) = calls w ++ [OpenAIEmbeddingsCreate inputs].
Proof.
  intros Hne Hall. cbv zeta. split; [apply length_map|].
  unfold embedDocuments.
  destruct semanticChunks as [|chunk rest]; [contradiction|]. cbn [map].
  change (Some (chunk_content chunk)
          :: map (fun chunk0 => Some (chunk_content chunk0)) rest)
    with (map (fun chunk0 => Some (chunk_content chunk0)) (chunk :: rest)).
  destruct (process_texts_run
              (map (fun chunk0 => Some (chunk_content chunk0)) (chunk :: rest)) 0 w)
    as (w1 & E & _ & _ & _ & _ & Hcalls).
  rewrite (kept_texts_all _ Hall), map_map in E.
  unfold Spec.truncate in E. cbn [map] in E |- *.
  rewrite (bind_ok _ _ _ _ _ E). cbn [length Nat.eqb].
  unfold_monad. cbn [fst snd].
  match goal with
  | |- context [openai_embeddings_create env ?x] =>
      destruct (openai_embeddings_create env x)
  end; cbn [fst snd calls]; rewrite Hcalls; split; reflexivity.
Qed.

Lemma embedDocuments_one_text_per_chunk_witness :
  let env := Sample.env Sample.no_changes in
  let semanticChunks :=
    [ mkChunk "src/c.ts:c:function_declaration:L1" "function_declaration"
              (of_string "function c() {}") 1 1 ] in
  let cap text := if (MAX_TOKENS_PER_INPUT <? estimateTokens text)%nat
                  then substring 0 (MAX_TOKENS_PER_INPUT * 4) text else text in
  let inputs := map (fun chunk => cap (replace_trim_newlines (chunk_content chunk)))
                    semanticChunks in
  let run := embedDocuments env (Some (map (fun chunk => Some (chunk_content chunk))
                                           semanticChunks)) Sample.world in
  length inputs = length semanticChunks /\
  fst run = openai_embeddings_create env inputs /\
  calls (snd run) = calls Sample.world ++ [OpenAIEmbeddingsCreate inputs].
Proof.
  cbv zeta.
  apply (embedDocuments_one_text_per_chunk (Sample.env Sample.no_changes)
           [ mkChunk "src/c.ts:c:function_declaration:L1" "function_declaration"
                     (of_string "function c() {}") 1 1 ]
           Sample.world).
  - discriminate.
  - repeat constructor. vm_compute. discriminate.
Defined.
